(** * FurDLP: the GRBL line protocol and the G-code exposure executor

    A shallow embedding of [grbl_client.py] (class [GrblClient]) and
    [gcode_executor.py] (class [GcodeExecutor]), and the properties of the
    design document checked against them; then of the two devices the
    executor drives: the projector ([I2C_DLP_HDMI.py],
    [projector_control.py]) and the display ([exposure.py],
    [display_control.py]), with properties read off their code.

    Conventions of the embedding.
    - Text is a [string] whose characters are the code points 0..255; the
      predicates [isspace] and [lower] are Python's [str.isspace] and
      [str.lower] on that range.
    - The clock of the serial port, the delays of the configuration and
      the time a line takes to come are exact rationals [Q]; the
      comparison that decides control flow on a parsed literal,
      [s_val >= 1.0], is modelled with the rounding of [float()].
    - What Python computes on floats is computed on IEEE doubles, with
      the primitive floats of the kernel: the seconds of a dwell
      ([float(ms) / 1000.0]), the brightness of the projector, and the
      whole of [sleep_with_pump] (clock readings, period, naps).
    - Python [int] counters are [Z].
    - A method is a computation in a state-and-exception monad: it returns
      or raises, and the state it leaves behind is kept in both cases.
    - A line of the serial port comes as a whole, some time after the one
      before; [_readline] gives up when its deadline passes first.  The
      time that the port itself blocks in [read(1)] is taken as nothing.
    - The two [while True] loops of [GrblClient] take something from the
      serial port at every turn but the last; they run on fuel taken from
      the length of what the port still has to say, and are proved never
      to exhaust it.  The loop of [sleep_with_pump] is followed for a
      number of turns that the caller of the model chooses; a dwell of
      infinitely many seconds is a call that is never over.
    - The I2C bus and pygame are known by the calls made on them, kept in
      a log; what they answer is a function of the log so far.
    - The text given to [print] is left out. *)

From Stdlib Require Import ZArith QArith Qreduction List String Ascii Bool Lia Lqa.
From Stdlib Require Floats Qround.
Import ListNotations.

Local Open Scope string_scope.

(* ================================================================== *)
(** * Python text primitives *)
(* ================================================================== *)

Module Text.

Definition code (c : ascii) : N := N_of_ascii c.

(** [str.isspace] for one character: TAB..CR, FS..US, SPACE, NEL, NBSP. *)
Definition isspace (c : ascii) : bool :=
  let n := code c in
  (((9 <=? n) && (n <=? 13)) || ((28 <=? n) && (n <=? 32))
   || (n =? 133) || (n =? 160))%N.

(** [str.lower] for one character: A..Z and the accented capitals. *)
Definition lower_char (c : ascii) : ascii :=
  let n := code c in
  if (((65 <=? n) && (n <=? 90))
      || ((192 <=? n) && (n <=? 222) && negb (n =? 215)))%N
  then ascii_of_N (n + 32) else c.

Fixpoint lower (s : string) : string :=
  match s with
  | EmptyString => EmptyString
  | String c r => String (lower_char c) (lower r)
  end.

Fixpoint lstrip (s : string) : string :=
  match s with
  | EmptyString => EmptyString
  | String c r => if isspace c then lstrip r else s
  end.

Fixpoint rstrip (s : string) : string :=
  match s with
  | EmptyString => EmptyString
  | String c r =>
      match rstrip r with
      | EmptyString => if isspace c then EmptyString else String c EmptyString
      | r' => String c r'
      end
  end.

(** [s.strip()] *)
Definition strip (s : string) : string := rstrip (lstrip s).

(** [c in s] for a one-character needle. *)
Fixpoint contains (c : ascii) (s : string) : bool :=
  match s with
  | EmptyString => false
  | String d r => Ascii.eqb c d || contains c r
  end.

(** [s.split(c, 1)[0]]: the text before the first [c], all of [s] when
    there is none. *)
Fixpoint before (c : ascii) (s : string) : string :=
  match s with
  | EmptyString => EmptyString
  | String d r => if Ascii.eqb c d then EmptyString else String d (before c r)
  end.

(** [s.startswith(p)] *)
Definition startswith (p s : string) : bool := String.prefix p s.

(** [s.endswith(p)] *)
Fixpoint endswith (p s : string) : bool :=
  String.eqb p s ||
  match s with
  | EmptyString => false
  | String _ r => endswith p r
  end.

(** Longest prefix of [s] whose characters satisfy [f], and the rest. *)
Fixpoint span (f : ascii -> bool) (s : string) : string * string :=
  match s with
  | EmptyString => (EmptyString, EmptyString)
  | String c r =>
      if f c then let '(a, b) := span f r in (String c a, b)
      else (EmptyString, s)
  end.

Fixpoint all (f : ascii -> bool) (s : string) : bool :=
  match s with
  | EmptyString => true
  | String c r => f c && all f r
  end.

Definition is_empty (s : string) : bool :=
  match s with EmptyString => true | _ => false end.

End Text.

Import Text.

(* ================================================================== *)
(** * Events, exceptions and the monad of methods *)
(* ================================================================== *)

(** What the process does to the outside: bytes written to and lines read
    from the serial port, [time.sleep], and the calls made on the
    projector and on the display.  [DisplaySleepWithPump sec] is the call
    of [sleep_with_pump] with a finite number of seconds,
    [DisplaySleepForever] the call with an infinite one. *)
Inductive event : Type :=
| SerialWrite (payload : string)
| SerialLine (line : string)
| SerialSilence
| TimeSleep (sec : Q)
| ProjectorOff
| ProjectorOn
| DisplayBlack
| DisplayShow (path : string)
| DisplaySleepWithPump (sec : Q)
| DisplaySleepForever.

(** The exceptions of the two classes.  [ReadTimeout] and
    [AwaitIdleTimeout] are Python's [TimeoutError]; [ControllerRejected],
    [ControllerAlarm] and [NoImageSelected] are [RuntimeError];
    [DeviceError] is whatever a projector or display call raises. *)
Inductive exn : Type :=
| ReadTimeout
| ControllerRejected (resp clean : string)
| ControllerAlarm (raw : string)
| AwaitIdleTimeout (raw : string)
| NoImageSelected
| ValueError (text : string)
| DeviceError (e : event).

(** How a method ends: it returns, it raises, or it has not ended: a
    loop of the model that is out of fuel, or a wait that is never
    over. *)
Inductive outcome (A : Type) : Type :=
| Ok (a : A)
| Raise (e : exn)
| OutOfFuel.

Arguments Ok {A} a.
Arguments Raise {A} e.
Arguments OutOfFuel {A}.

Definition M (S A : Type) : Type := S -> outcome A * S.

Definition ret {S A} (a : A) : M S A := fun s => (Ok a, s).

Definition raise {S A} (e : exn) : M S A := fun s => (Raise e, s).

Definition out_of_fuel {S A} : M S A := fun s => (OutOfFuel, s).

Definition bind {S A B} (m : M S A) (k : A -> M S B) : M S B :=
  fun s =>
    match m s with
    | (Ok a, s') => k a s'
    | (Raise e, s') => (Raise e, s')
    | (OutOfFuel, s') => (OutOfFuel, s')
    end.

Declare Scope monad_scope.
Delimit Scope monad_scope with monad.
Notation "x <- c ;; k" := (bind c (fun x => k))
  (at level 61, c at next level, right associativity) : monad_scope.
Notation "c ;; k" := (bind c (fun _ => k))
  (at level 61, right associativity) : monad_scope.
Local Open Scope monad_scope.

(* ================================================================== *)
(** * The outside world *)
(* ================================================================== *)

(** What the serial port has to say next.  [Delivered dt text]: after
    [dt] seconds of silence the line [text] is there, whole; [text] is
    what stands between two line terminators, so it holds neither CR nor
    LF, and an empty [text] is a terminator that follows another one (the
    LF of a CR LF).  [Silent]: nothing comes, however long the read
    waits. *)
Inductive rx_item : Type :=
| Delivered (dt : Q) (text : string)
| Silent.

(** [now] is the reading of [time.time()]; [rx] what the serial port has
    to say, a controller that has said all of it staying silent; [trace]
    the events so far, oldest first; [faulty h e] tells whether the
    projector or display call [e], made after the events [h], raises. *)
Record world : Type := mkWorld {
  now : Q;
  rx : list rx_item;
  trace : list event;
  faulty : list event -> event -> bool
}.

Definition emit (e : event) : M world unit :=
  fun w => (Ok tt, mkWorld (now w) (rx w) (trace w ++ [e])%list (faulty w)).

Definition time_time : M world Q := fun w => (Ok (now w), w).

Definition Qlt_bool (a b : Q) : bool := negb (Qle_bool b a).

(** [time.sleep(sec)]: refuses a negative length. *)
Definition time_sleep (sec : Q) : M world unit :=
  if Qlt_bool sec 0%Q then raise (ValueError "sleep length must be non-negative")
  else fun w => (Ok tt, mkWorld (now w + sec)%Q (rx w) (trace w ++ [TimeSleep sec])%list (faulty w)).

(** A call on the projector or on the display.  The call is recorded,
    then returns or raises.  The clock is read by the idle wait alone,
    which makes no such call: the time a call takes is left out. *)
Definition call (e : event) : M world unit :=
  fun w =>
    let w' := mkWorld (now w) (rx w) (trace w ++ [e])%list (faulty w) in
    if faulty w (trace w) e then (Raise (DeviceError e), w') else (Ok tt, w').

(** [display.sleep_with_pump(sec)] for a double.  A finite number of
    seconds is a call like the others; with an infinite one (or a NaN)
    the loop of [sleep_with_pump] never meets its end, and the call is
    never over. *)
Definition display_sleep_with_pump (sec : option Q) : M world unit :=
  match sec with
  | Some q => call (DisplaySleepWithPump q)
  | None =>
      fun w =>
        (OutOfFuel,
         mkWorld (now w) (rx w) (trace w ++ [DisplaySleepForever])%list (faulty w))
  end.

(** Runs a loop with one unit of fuel more than the serial port has to
    say: every turn of the loops below takes something from the port, or
    is the last. *)
Definition with_fuel {A} (loop : nat -> M world A) : M world A :=
  fun w => loop (S (List.length (rx w))) w.

(* ================================================================== *)
(** * grbl_client.py: class GrblClient *)
(* ================================================================== *)

Record GrblStatus : Type := mkGrblStatus {
  raw : string;
  state : option string
}.

(** The loop of [_readline], line by line: [left] is the time left to
    the deadline, [t] the clock.  The deadline is tested before every
    byte is read, and a read that finds nothing is taken to give up at
    once: the loop sees the deadline when it passes.  A line that is whole
    by then is returned, decoded and stripped; a bare terminator is
    skipped ([if buf: break] else [continue]) and the loop reads on under
    the same deadline; when the deadline passes first, [TimeoutError], and
    a line that is still on its way stays on its way. *)
Fixpoint read_loop (left t : Q) (items : list rx_item)
    : outcome string * (Q * list rx_item * list event) :=
  match items with
  | Delivered dt text :: rest =>
      if Qlt_bool left dt
      then (Raise ReadTimeout,
            ((t + left)%Q, Delivered (dt - left) text :: rest, [SerialSilence]))
      else if is_empty text
           then let '(r, (t', items', evs)) := read_loop (left - dt) (t + dt) rest in
                (r, (t', items', SerialLine EmptyString :: evs))
           else (Ok (strip text), ((t + dt)%Q, rest, [SerialLine (strip text)]))
  | Silent :: rest => (Raise ReadTimeout, ((t + left)%Q, rest, [SerialSilence]))
  | [] => (Raise ReadTimeout, ((t + left)%Q, [], [SerialSilence]))
  end.

(** [_readline(timeout_s)]: the next line, decoded and stripped, or
    [TimeoutError]. *)
Definition _readline (timeout_s : Q) : M world string :=
  fun w =>
    let '(r, (t, items, evs)) := read_loop timeout_s (now w) (rx w) in
    (r, mkWorld t items (trace w ++ evs)%list (faulty w)).

Definition NL : string := String (ascii_of_N 10) EmptyString.

Definition write_line (line : string) : M world unit :=
  emit (SerialWrite (strip line ++ NL)).

(** The loop of [send_line_wait_ok]. *)
Fixpoint ack_loop (fuel : nat) (clean : string) : M world string :=
  match fuel with
  | O => out_of_fuel
  | S fuel' =>
      resp <- _readline 10%Q ;;
      let low := lower resp in
      if low =? "ok" then ret resp
      else if startswith "error" low || startswith "alarm" low
           then raise (ControllerRejected resp clean)
           else ack_loop fuel' clean
  end.

Definition send_line_wait_ok (line : string) : M world string :=
  let clean := strip line in
  if is_empty clean then ret EmptyString
  else write_line clean ;; with_fuel (fun fuel => ack_loop fuel clean).

Definition unlock : M world unit := _ <- send_line_wait_ok "$X" ;; ret tt.

Definition home : M world unit := _ <- send_line_wait_ok "$H" ;; ret tt.

(** [line[1:]] *)
Definition tail (s : string) : string :=
  match s with
  | EmptyString => EmptyString
  | String _ r => r
  end.

(** The parsing half of [get_status]. *)
Definition parse_status (line : string) : GrblStatus :=
  let state :=
    if startswith "<" line && contains "|" line
    then Some (before "|" (tail line))
    else None in
  mkGrblStatus line state.

Definition get_status : M world GrblStatus :=
  write_line "?" ;;
  line <- _readline 2%Q ;;
  ret (parse_status line).

(** [st.state == name] *)
Definition state_is (st : GrblStatus) (name : string) : bool :=
  match state st with
  | Some s => s =? name
  | None => false
  end.

(** The loop of [wait_until_idle]. *)
Fixpoint idle_loop (fuel : nat) (t0 timeout_s poll_s : Q) : M world unit :=
  match fuel with
  | O => out_of_fuel
  | S fuel' =>
      st <- get_status ;;
      if state_is st "Idle" then ret tt
      else if state_is st "Alarm" then raise (ControllerAlarm (raw st))
      else
        t <- time_time ;;
        if Qlt_bool timeout_s (t - t0)%Q then raise (AwaitIdleTimeout (raw st))
        else time_sleep poll_s ;; idle_loop fuel' t0 timeout_s poll_s
  end.

Definition wait_until_idle (timeout_s poll_s : Q) : M world unit :=
  t0 <- time_time ;;
  with_fuel (fun fuel => idle_loop fuel t0 timeout_s poll_s).

(* ================================================================== *)
(** * gcode_executor.py: the three patterns and the literals they capture *)
(* ================================================================== *)

(** A literal of a pattern compiled with [re.IGNORECASE]; [p] is given in
    lower case.  Returns what follows the literal. *)
Fixpoint lit_ci (p s : string) : option string :=
  match p, s with
  | EmptyString, _ => Some s
  | String a p', String c s' =>
      if Ascii.eqb a (lower_char c) then lit_ci p' s' else None
  | String _ _, EmptyString => None
  end.

Definition quote : ascii := ascii_of_N 34.

(** An optional double quote. *)
Definition opt_quote (s : string) : string :=
  match s with
  | String c r => if Ascii.eqb c quote then r else s
  | EmptyString => s
  end.

(** Neither a double quote nor white space. *)
Definition name_char (c : ascii) : bool := negb (Ascii.eqb c quote) && negb (isspace c).

Definition is_digit (c : ascii) : bool := ((48 <=? code c) && (code c <=? 57))%N.

(** [[0-9\.]] *)
Definition num_char (c : ascii) : bool := is_digit c || Ascii.eqb c ".".

(** [\s*$] *)
Definition at_end (s : string) : bool := is_empty (snd (span isspace s)).

(** [\s+], then a pattern that cannot start with white space: the run of
    white space is taken whole, and is not empty. *)
Definition spaces1 (s : string) : option string :=
  let '(ws, r) := span isspace s in
  if is_empty ws then None else Some r.

(** A capture group [(...+)] over a class of characters, followed by an
    optional double quote and [\s*$], or by [\s*$]: no character of the
    class follows the group, so the group is the whole run, and is not
    empty. *)
Definition group1 (cls : ascii -> bool) (s : string) : option (string * string) :=
  let '(g, r) := span cls s in
  if is_empty g then None else Some (g, r).

(** [^M6054\s+D?([^D\s]+)D?\s*$] with [D] the double quote: group 1 of
    the match. *)
Definition _RE_M6054 (line : string) : option string :=
  match lit_ci "m6054" line with
  | None => None
  | Some r =>
      match spaces1 r with
      | None => None
      | Some r =>
          match group1 name_char (opt_quote r) with
          | None => None
          | Some (name, r) => if at_end (opt_quote r) then Some name else None
          end
      end
  end.

(** [^<op>\s+<letter>([0-9\.]+)\s*$], group 1 of the match. *)
Definition re_op_number (op letter : string) (line : string) : option string :=
  match lit_ci op line with
  | None => None
  | Some r =>
      match spaces1 r with
      | None => None
      | Some r =>
          match lit_ci letter r with
          | None => None
          | Some r =>
              match group1 num_char r with
              | None => None
              | Some (num, r) => if at_end r then Some num else None
              end
          end
      end
  end.

(** [^M106\s+S([0-9\.]+)\s*$] *)
Definition _RE_M106 : string -> option string := re_op_number "m106" "s".

(** [^G4\s+P([0-9\.]+)\s*$] *)
Definition _RE_G4P : string -> option string := re_op_number "g4" "p".

(** The number written by a string of decimal digits. *)
Fixpoint digits_value (acc : N) (s : string) : N :=
  match s with
  | EmptyString => acc
  | String c r => digits_value (10 * acc + (code c - 48))%N r
  end.

Fixpoint pow10 (n : nat) : positive :=
  match n with
  | O => 1%positive
  | S k => (10 * pow10 k)%positive
  end.

(** [float(text)] on a text of digits and dots (what group 1 of the two
    numeric patterns holds): the decimal it writes, or [ValueError] when
    it has two dots or no digit. *)
Definition py_float (text : string) : option Q :=
  let '(ip, r) := span is_digit text in
  match r with
  | EmptyString =>
      if is_empty ip then None else Some (Z.of_N (digits_value 0 ip) # 1)
  | String c fp =>
      if Ascii.eqb c "." && all is_digit fp && negb (is_empty ip && is_empty fp)
      then Some (Qred (Z.of_N (digits_value 0 (ip ++ fp)) # pow10 (String.length fp)))
      else None
  end.

(** [float(text) >= 1.0].  [float] rounds the decimal to the nearest
    double, ties to even; the doubles next to 1 are [1 - 2^-53] and 1, so
    the decimals that round to 1.0 or more are those from [1 - 2^-54]
    on. *)
Definition ge_1 (s_val : Q) : bool :=
  Qle_bool ((2 ^ 54 - 1) # (2 ^ 54)) s_val.

(** An integer as a binary number with exponent 0. *)
Definition sf_of_Z (n : Z) : SpecFloat.spec_float :=
  match n with
  | Z0 => SpecFloat.S754_zero false
  | Zpos p => SpecFloat.S754_finite false p 0
  | Zneg p => SpecFloat.S754_finite true p 0
  end.

(** The double nearest to a rational, ties to even, an infinity beyond
    the range of the doubles: what [float] makes of a decimal. *)
Definition double_of_Q (q : Q) : PrimFloat.float :=
  FloatOps.SF2Prim
    (SpecFloat.SFdiv FloatOps.prec FloatOps.emax
       (sf_of_Z (Qnum q)) (SpecFloat.S754_finite false (Qden q) 0)).

(** The rational that a double stands for; [None] for an infinity and
    for a NaN. *)
Definition Q_of_double (x : PrimFloat.float) : option Q :=
  match FloatOps.Prim2SF x with
  | SpecFloat.S754_zero _ => Some 0%Q
  | SpecFloat.S754_finite s m e =>
      let magnitude :=
        match e with
        | Z0 => Z.pos m # 1
        | Zpos p => (Z.pos m * Z.pos (2 ^ p)) # 1
        | Zneg p => Z.pos m # (2 ^ p)
        end in
      Some (Qred (if s then - magnitude else magnitude)%Q)
  | _ => None
  end.

(** A double that is zero or finite, and below [2 ^ k] in size. *)
Definition finite_below (k : Z) (x : SpecFloat.spec_float) : Prop :=
  match x with
  | SpecFloat.S754_zero _ => True
  | SpecFloat.S754_finite _ m e => (Z.pos (SpecFloat.digits2_pos m) + e <= k)%Z
  | _ => False
  end.

Section Dwell.

Import Floats.PrimFloat.

(** [ms / 1000.0] *)
Definition dwell_seconds (ms : PrimFloat.float) : PrimFloat.float := (ms / 1000)%float.

End Dwell.

(** [s * n] *)
Fixpoint str_mul (s : string) (n : nat) : string :=
  match n with
  | O => EmptyString
  | S k => (s ++ str_mul s k)%string
  end.

(** [os.path.join(a, b)] of [posixpath]. *)
Definition path_join (a b : string) : string :=
  if startswith "/" b then b
  else if is_empty a || endswith "/" a then a ++ b
  else a ++ "/" ++ b.

(* ================================================================== *)
(** * gcode_executor.py: class GcodeExecutor *)
(* ================================================================== *)

Record RunStats : Type := mkRunStats {
  gcode_lines_total : Z;
  gcode_lines_sent_grbl : Z;
  dwell_count : Z;
  exposure_on_count : Z;
  exposure_off_count : Z;
  image_select_count : Z
}.

(** [RunStats()] *)
Definition RunStats0 : RunStats := mkRunStats 0 0 0 0 0 0.

(** The fields of the executor.  Its [grbl], [display] and [projector]
    are the [world]. *)
Record GcodeExecutor : Type := mkExecutor {
  image_dir : string;
  dry_run : bool;
  idle_timeout_s : Q;
  idle_poll_s : Q;
  event_pump_hz : Z;
  post_exposure_black_delay_s : Q;
  _exposure_active : bool;
  pre_exposure_black_delay_s : Q;
  current_image : option string;
  stats : RunStats
}.

(** [GcodeExecutor.__init__] *)
Definition new_executor (image_dir : string) (dry_run : bool)
    (idle_timeout_s idle_poll_s : Q) (event_pump_hz : Z)
    (post_exposure_black_delay_s pre_exposure_black_delay_s : Q) : GcodeExecutor :=
  mkExecutor image_dir dry_run idle_timeout_s idle_poll_s event_pump_hz
    post_exposure_black_delay_s false pre_exposure_black_delay_s None RunStats0.

Definition set_stats (st : RunStats) (self : GcodeExecutor) : GcodeExecutor :=
  mkExecutor (image_dir self) (dry_run self) (idle_timeout_s self) (idle_poll_s self)
    (event_pump_hz self) (post_exposure_black_delay_s self) (_exposure_active self)
    (pre_exposure_black_delay_s self) (current_image self) st.

Definition set_current_image (img : option string) (self : GcodeExecutor) : GcodeExecutor :=
  mkExecutor (image_dir self) (dry_run self) (idle_timeout_s self) (idle_poll_s self)
    (event_pump_hz self) (post_exposure_black_delay_s self) (_exposure_active self)
    (pre_exposure_black_delay_s self) img (stats self).

Definition set_exposure_active (b : bool) (self : GcodeExecutor) : GcodeExecutor :=
  mkExecutor (image_dir self) (dry_run self) (idle_timeout_s self) (idle_poll_s self)
    (event_pump_hz self) (post_exposure_black_delay_s self) b
    (pre_exposure_black_delay_s self) (current_image self) (stats self).

Definition set_dry_run (b : bool) (self : GcodeExecutor) : GcodeExecutor :=
  mkExecutor (image_dir self) b (idle_timeout_s self) (idle_poll_s self)
    (event_pump_hz self) (post_exposure_black_delay_s self) (_exposure_active self)
    (pre_exposure_black_delay_s self) (current_image self) (stats self).

(** The [+= 1] on each counter. *)
Definition inc_total (s : RunStats) : RunStats :=
  mkRunStats (gcode_lines_total s + 1) (gcode_lines_sent_grbl s) (dwell_count s)
    (exposure_on_count s) (exposure_off_count s) (image_select_count s).

Definition inc_sent (s : RunStats) : RunStats :=
  mkRunStats (gcode_lines_total s) (gcode_lines_sent_grbl s + 1) (dwell_count s)
    (exposure_on_count s) (exposure_off_count s) (image_select_count s).

Definition inc_dwell (s : RunStats) : RunStats :=
  mkRunStats (gcode_lines_total s) (gcode_lines_sent_grbl s) (dwell_count s + 1)
    (exposure_on_count s) (exposure_off_count s) (image_select_count s).

Definition inc_on (s : RunStats) : RunStats :=
  mkRunStats (gcode_lines_total s) (gcode_lines_sent_grbl s) (dwell_count s)
    (exposure_on_count s + 1) (exposure_off_count s) (image_select_count s).

Definition inc_off (s : RunStats) : RunStats :=
  mkRunStats (gcode_lines_total s) (gcode_lines_sent_grbl s) (dwell_count s)
    (exposure_on_count s) (exposure_off_count s + 1) (image_select_count s).

Definition inc_select (s : RunStats) : RunStats :=
  mkRunStats (gcode_lines_total s) (gcode_lines_sent_grbl s) (dwell_count s)
    (exposure_on_count s) (exposure_off_count s) (image_select_count s + 1).

(** Methods of the executor run on the executor and the world. *)
Definition X (A : Type) : Type := M (GcodeExecutor * world) A.

(** A method of [self.grbl], [self.display] or [self.projector]. *)
Definition on_world {A} (m : M world A) : X A :=
  fun s =>
    let '(r, w') := m (snd s) in (r, (fst s, w')).

Definition get_self : X GcodeExecutor := fun s => (Ok (fst s), s).

Definition update (f : GcodeExecutor -> GcodeExecutor) : X unit :=
  fun s => (Ok tt, (f (fst s), snd s)).

Definition count (inc : RunStats -> RunStats) : X unit :=
  update (fun self => set_stats (inc (stats self)) self).

(** [float(m.group(1))] *)
Definition float_of_group (text : string) : X Q :=
  match py_float text with
  | Some v => ret v
  | None => raise (ValueError text)
  end.

Definition _strip_comment (line : string) : string :=
  strip (if contains ";" line then before ";" line else line).

Definition has_image_suffix (name : string) : bool :=
  endswith ".png" (lower name) || endswith ".bmp" (lower name)
  || endswith ".jpg" (lower name) || endswith ".jpeg" (lower name).

Definition _handle_m6054 (line : string) : X bool :=
  match _RE_M6054 line with
  | None => ret false
  | Some name =>
      let name := if has_image_suffix name then name else name ++ ".png" in
      self <- get_self ;;
      update (set_current_image (Some (path_join (image_dir self) name))) ;;
      count inc_select ;;
      ret true
  end.

Definition _handle_m106 (line : string) : X bool :=
  match _RE_M106 line with
  | None => ret false
  | Some text =>
      s_val <- float_of_group text ;;
      if ge_1 s_val then
        count inc_on ;;
        self <- get_self ;;
        match current_image self with
        | None => raise NoImageSelected
        | Some img =>
            (if negb (dry_run self) then
               on_world (wait_until_idle (idle_timeout_s self) (idle_poll_s self)) ;;
               on_world (call ProjectorOff) ;;
               on_world (call DisplayBlack) ;;
               (if Qlt_bool 0 (pre_exposure_black_delay_s self)
                then on_world (call (DisplaySleepWithPump (pre_exposure_black_delay_s self)))
                else ret tt) ;;
               on_world (call (DisplayShow img)) ;;
               on_world (call ProjectorOn)
             else ret tt) ;;
            ret true
        end
      else
        count inc_off ;;
        self <- get_self ;;
        let was_active := _exposure_active self in
        update (set_exposure_active false) ;;
        (if negb (dry_run self) then
           on_world (call ProjectorOff) ;;
           on_world (call DisplayBlack) ;;
           if was_active && Qlt_bool 0 (post_exposure_black_delay_s self)
           then on_world (call (DisplaySleepWithPump (post_exposure_black_delay_s self)))
           else ret tt
         else ret tt) ;;
        ret true
  end.

Definition _handle_g4 (line : string) : X bool :=
  match _RE_G4P line with
  | None => ret false
  | Some text =>
      ms <- float_of_group text ;;
      let sec := dwell_seconds (double_of_Q ms) in
      count inc_dwell ;;
      self <- get_self ;;
      (if negb (dry_run self) then on_world (display_sleep_with_pump (Q_of_double sec))
       else ret tt) ;;
      ret true
  end.

Definition _send_to_grbl (line : string) : X unit :=
  self <- get_self ;;
  if dry_run self then ret tt
  else
    _ <- on_world (send_line_wait_ok line) ;;
    count inc_sent.

(** The body of the loop of [run_file], for one line of the file. *)
Definition run_line (raw : string) : X unit :=
  count inc_total ;;
  let line := _strip_comment raw in
  if is_empty line then ret tt
  else
    b <- _handle_m6054 line ;;
    if b then ret tt
    else
      b <- _handle_m106 line ;;
      if b then ret tt
      else
        b <- _handle_g4 line ;;
        if b then ret tt
        else _send_to_grbl line.

Fixpoint run_lines (lines : list string) : X unit :=
  match lines with
  | [] => ret tt
  | raw :: rest => run_line raw ;; run_lines rest
  end.

(** The first statement of [run_file]: [self.stats = RunStats()]. *)
Definition run_begin (self : GcodeExecutor) : GcodeExecutor :=
  set_stats RunStats0 self.

(** [run_file], on the lines of the file at [gcode_path]. *)
Definition run_file (lines : list string) : X RunStats :=
  update run_begin ;;
  run_lines lines ;;
  self <- get_self ;;
  ret (stats self).

(* ================================================================== *)
(** * Vocabulary of the design document *)
(* ================================================================== *)

(** The Operation of a non-blank line: the first pattern that matches, in
    the order SelectImage, SetExposure, Dwell, with MotionCommand as the
    fallback. *)
Inductive Operation : Type :=
| SelectImage (name : string)
| SetExposure (level : string)
| Dwell (milliseconds : string)
| MotionCommand (text : string).

Definition classify (line : string) : Operation :=
  match _RE_M6054 line with
  | Some name => SelectImage name
  | None =>
      match _RE_M106 line with
      | Some level => SetExposure level
      | None =>
          match _RE_G4P line with
          | Some ms => Dwell ms
          | None => MotionCommand line
          end
      end
  end.

(** The lines of a program that are not blank once the comment is gone. *)
Definition non_blank (lines : list string) : list string :=
  filter (fun line => negb (is_empty line)) (map _strip_comment lines).

Definition is_select (op : Operation) : bool :=
  match op with SelectImage _ => true | _ => false end.

Definition is_exposure (op : Operation) : bool :=
  match op with SetExposure _ => true | _ => false end.

Definition is_dwell (op : Operation) : bool :=
  match op with Dwell _ => true | _ => false end.

Definition is_motion (op : Operation) : bool :=
  match op with MotionCommand _ => true | _ => false end.

(** How many lines of a program are of a given kind. *)
Definition how_many (kind : Operation -> bool) (lines : list string) : Z :=
  Z.of_nat (List.length (filter kind (map classify (non_blank lines)))).

(** The whole SessionState as [__init__] leaves it. *)
Definition session_fresh (self : GcodeExecutor) : Prop :=
  stats self = RunStats0 /\ current_image self = None /\ _exposure_active self = false.

(** A run of projector and display calls, each made only when the one
    before it returned. *)
Fixpoint calls (es : list event) : M world unit :=
  match es with
  | [] => ret tt
  | e :: rest => call e ;; calls rest
  end.

(** Whether the call at place [k] of [steps] fails, when it is made
    after the events [tr] and the calls before it. *)
Definition step_fails (w : world) (tr steps : list event) (k : nat) : bool :=
  match nth_error steps k with
  | Some e => faulty w (tr ++ firstn k steps)%list e
  | None => false
  end.

(** Steps (ii) to (v) of begin-exposure. *)
Definition begin_steps (self : GcodeExecutor) (img : string) : list event :=
  ([ProjectorOff; DisplayBlack]
   ++ (if Qlt_bool 0 (pre_exposure_black_delay_s self)
       then [DisplaySleepWithPump (pre_exposure_black_delay_s self)] else [])
   ++ [DisplayShow img; ProjectorOn])%list.

(** What follows the first [c] in [s]. *)
Fixpoint after (c : ascii) (s : string) : option string :=
  match s with
  | EmptyString => None
  | String d r => if Ascii.eqb c d then Some r else after c r
  end.

(** The state as the design document words it: the token between the
    first opening bracket and the first bar of the raw report; unknown
    when the report lacks that shape. *)
Definition documented_state (raw : string) : option string :=
  match after "<" raw with
  | Some r => if contains "|" r then Some (before "|" r) else None
  | None => None
  end.

(** A status line that neither ends the idle wait nor raises the alarm. *)
Definition neutral (text : string) : bool :=
  negb (state_is (parse_status (strip text)) "Idle")
  && negb (state_is (parse_status (strip text)) "Alarm").

(** A response that is neither the acknowledgement nor a rejection. *)
Definition rejection (resp : string) : bool :=
  startswith "error" (lower resp) || startswith "alarm" (lower resp).

Definition informational (text : string) : bool :=
  negb (lower (strip text) =? "ok") && negb (rejection (strip text)).

Definition deliver (p : Q * string) : rx_item := Delivered (fst p) (snd p).

(** A line that a read with the deadline [timeout_s] returns: it is
    whole before the deadline has passed, and it is a line, not a bare
    terminator. *)
Definition prompt (timeout_s : Q) (p : Q * string) : bool :=
  Qle_bool (fst p) timeout_s && negb (is_empty (snd p)).

(** What a read takes from the port or finds there. *)
Definition read_event (e : event) : Prop :=
  e = SerialSilence \/ exists line : string, e = SerialLine line.

(** The clock along a run of neutral polls that starts at [t]: no poll
    finds the deadline passed. *)
Fixpoint in_time (t0 timeout_s poll_s t : Q) (polls : list (Q * string)) : bool :=
  match polls with
  | [] => true
  | p :: rest =>
      Qle_bool (t + fst p - t0) timeout_s
      && in_time t0 timeout_s poll_s (t + fst p + poll_s) rest
  end.

(** The clock after that run. *)
Fixpoint clock_after (poll_s t : Q) (polls : list (Q * string)) : Q :=
  match polls with
  | [] => t
  | p :: rest => clock_after poll_s (t + fst p + poll_s) rest
  end.

(** The events of one poll. *)
Definition poll_events (text : string) : list event :=
  [SerialWrite ("?" ++ NL); SerialLine (strip text)].

(** The events of a run of neutral polls, each followed by its sleep. *)
Definition polls_events (poll_s : Q) (polls : list (Q * string)) : list event :=
  flat_map (fun p => poll_events (snd p) ++ [TimeSleep poll_s])%list polls.

(** A controller and devices for the examples: nothing fails. *)
Definition reliable : list event -> event -> bool := fun _ _ => false.

Definition idle_report : string := "<Idle|MPos:0.000,0.000,0.000|FS:0,0>".

(** The clock after a run of delivered lines read from time [t]. *)
Fixpoint read_clock (t : Q) (items : list (Q * string)) : Q :=
  match items with
  | [] => t
  | p :: rest => read_clock (t + fst p) rest
  end.

(** The events of reading them. *)
Definition read_events (items : list (Q * string)) : list event :=
  map (fun p => SerialLine (strip (snd p))) items.

(** The events of the motion link: the serial port and [time.sleep]. *)
Definition motion_link_event (e : event) : bool :=
  match e with
  | SerialWrite _ | SerialLine _ | SerialSilence | TimeSleep _ => true
  | _ => false
  end.

(* ================================================================== *)
(** * The executor as a function of the program *)
(* ================================================================== *)

(** What an Operation that goes through does to the fields of the
    executor. *)
Definition after_op (op : Operation) (self : GcodeExecutor) : GcodeExecutor :=
  match op with
  | SelectImage name =>
      let name := if has_image_suffix name then name else name ++ ".png" in
      set_stats (inc_select (stats self))
        (set_current_image (Some (path_join (image_dir self) name)) self)
  | SetExposure level =>
      match py_float level with
      | Some s_val =>
          if ge_1 s_val then set_stats (inc_on (stats self)) self
          else set_exposure_active false (set_stats (inc_off (stats self)) self)
      | None => self
      end
  | Dwell _ => set_stats (inc_dwell (stats self)) self
  | MotionCommand _ =>
      if dry_run self then self else set_stats (inc_sent (stats self)) self
  end.

Definition after_line (raw : string) (self : GcodeExecutor) : GcodeExecutor :=
  let self1 := set_stats (inc_total (stats self)) self in
  let line := _strip_comment raw in
  if is_empty line then self1 else after_op (classify line) self1.

Definition is_some {A} (o : option A) : bool :=
  match o with Some _ => true | None => false end.

(** Whether the executor itself lets the Operation through: the number
    is one that [float] reads, and an image is selected when exposure
    begins. *)
Definition op_ok (op : Operation) (self : GcodeExecutor) : bool :=
  match op with
  | SetExposure level =>
      match py_float level with
      | Some s_val => if ge_1 s_val then is_some (current_image self) else true
      | None => false
      end
  | Dwell ms => is_some (py_float ms)
  | _ => true
  end.

Definition line_ok (raw : string) (self : GcodeExecutor) : bool :=
  let line := _strip_comment raw in
  if is_empty line then true else op_ok (classify line) self.

Definition set_sent (k : Z) (s : RunStats) : RunStats :=
  mkRunStats (gcode_lines_total s) k (dwell_count s)
    (exposure_on_count s) (exposure_off_count s) (image_select_count s).

(** The dry-run twin of an executor, with [k] in the forwarded-line
    counter. *)
Definition dry_twin (k : Z) (self : GcodeExecutor) : GcodeExecutor :=
  set_dry_run true (set_stats (set_sent k (stats self)) self).

(** Every method of the executor leaves its configuration alone. *)
Definition keeps_self {A} (m : X A) : Prop :=
  forall (s s' : GcodeExecutor * world) (r : outcome A),
    m s = (r, s') -> fst s' = fst s.

(** A method that returns or raises, on every state. *)
Definition terminates {S A} (m : M S A) : Prop :=
  forall s : S, fst (m s) <> OutOfFuel.

(** What one line adds to the count of a kind of Operation. *)
Definition one (kind : Operation -> bool) (raw : string) : Z :=
  let line := _strip_comment raw in
  if is_empty line then 0 else if kind (classify line) then 1 else 0.

(** The sum the design document equates with the number of non-blank
    lines. *)
Definition dispatched (s : RunStats) : Z :=
  gcode_lines_sent_grbl s + image_select_count s + exposure_on_count s
  + exposure_off_count s + dwell_count s.

(* ================================================================== *)
(** * Vocabulary for the traces of the serial port *)
(* ================================================================== *)

(** The status query as it goes on the wire. *)
Definition status_query : string := "?" ++ NL.

(** What the idle wait may do: write the status query, read, and sleep
    the poll interval. *)
Definition poll_event (poll_s : Q) (e : event) : Prop :=
  match e with
  | SerialWrite p => p = status_query
  | SerialLine _ | SerialSilence => True
  | TimeSleep d => d = poll_s
  | _ => False
  end.

(** The payloads written to the serial port, oldest first. *)
Definition payloads (tr : list event) : list string :=
  flat_map (fun e => match e with SerialWrite p => [p] | _ => [] end) tr.

Definition not_query (p : string) : bool := negb (p =? status_query).

(** The commands of a program, as they are forwarded. *)
Definition commands (lines : list string) : list string :=
  map (fun line => line ++ NL)
    (filter (fun line => is_motion (classify line)) (non_blank lines)).



(** The calls of end-exposure. *)
Definition end_steps (self : GcodeExecutor) : list event :=
  ([ProjectorOff; DisplayBlack]
   ++ (if _exposure_active self && Qlt_bool 0 (post_exposure_black_delay_s self)
       then [DisplaySleepWithPump (post_exposure_black_delay_s self)] else []))%list.

(* ================================================================== *)
(** * Vocabulary for what a run leaves alone *)
(* ================================================================== *)

(** The configuration of an executor: what [__init__] takes from its
    caller. *)
Definition same_setup (a b : GcodeExecutor) : Prop :=
  image_dir b = image_dir a
  /\ dry_run b = dry_run a
  /\ idle_timeout_s b = idle_timeout_s a
  /\ idle_poll_s b = idle_poll_s a
  /\ event_pump_hz b = event_pump_hz a
  /\ post_exposure_black_delay_s b = post_exposure_black_delay_s a
  /\ pre_exposure_black_delay_s b = pre_exposure_black_delay_s a.

(** The configuration and the count of lines read. *)
Definition same_setup_and_total (a b : GcodeExecutor) : Prop :=
  same_setup a b /\ gcode_lines_total (stats b) = gcode_lines_total (stats a).

(** A method whose every outcome leaves the executor related to what it
    was. *)
Definition respects {A} (R : GcodeExecutor -> GcodeExecutor -> Prop) (m : X A) : Prop :=
  forall (s s' : GcodeExecutor * world) (r : outcome A),
    m s = (r, s') -> R (fst s) (fst s').

(** Events that put nothing but status queries on the wire. *)
Definition quiet_events (evs : list event) : Prop :=
  filter not_query (payloads evs) = [].

(** A method that puts nothing but status queries on the wire, whatever
    its outcome. *)
Definition quiet_world {A} (m : M world A) : Prop :=
  forall (w w' : world) (r : outcome A),
    m w = (r, w') ->
    exists evs : list event, trace w' = (trace w ++ evs)%list /\ quiet_events evs.

Definition quiet {A} (m : X A) : Prop :=
  forall (s s' : GcodeExecutor * world) (r : outcome A),
    m s = (r, s') ->
    exists evs : list event,
      trace (snd s') = (trace (snd s) ++ evs)%list /\ quiet_events evs.

(* ================================================================== *)
(** * The monad of the projector and of the display *)
(* ================================================================== *)

(** These two classes raise errors of their own; their methods are
    computations that end with a value, with an error of the class, or
    (for the one loop among them) out of fuel. *)
Inductive res (E A : Type) : Type :=
| Done (a : A)
| Fail (e : E)
| Spent.

Arguments Done {E A} a.
Arguments Fail {E A} e.
Arguments Spent {E A}.

Definition IO (E S A : Type) : Type := S -> res E A * S.

Definition io_ret {E S A} (a : A) : IO E S A := fun s => (Done a, s).

Definition io_fail {E S A} (e : E) : IO E S A := fun s => (Fail e, s).

Definition io_bind {E S A B} (m : IO E S A) (k : A -> IO E S B) : IO E S B :=
  fun s =>
    match m s with
    | (Done a, s') => k a s'
    | (Fail e, s') => (Fail e, s')
    | (Spent, s') => (Spent, s')
    end.

Declare Scope io_scope.
Delimit Scope io_scope with io.
Notation "x <- c ;; k" := (io_bind c (fun x => k))
  (at level 61, c at next level, right associativity) : io_scope.
Notation "c ;; k" := (io_bind c (fun _ => k))
  (at level 61, right associativity) : io_scope.

Local Close Scope monad_scope.
Local Open Scope io_scope.

(* ================================================================== *)
(** * I2C_DLP_HDMI.py: the commands of the DLPC3439 *)
(* ================================================================== *)

Module I2C_DLP_HDMI.

Import Floats.PrimFloat.

Definition DLP_I2C_ADDR : Z := 27.

Definition DEFAULT_BLUE_CURRENT : Z := 512.

(** What happens on the I2C bus: a block write that the controller
    took, one that it refused ([OSError]), and the settle time after a
    write. *)
Inductive bus_event : Type :=
| Written (addr cmd : Z) (data : list Z)
| Refused (addr cmd : Z) (data : list Z)
| Settled (sec : Q).

(** The errors of the projector: the driver module could not be
    imported ([RuntimeError] of [DlpProjector.init]), a write was refused
    ([OSError] of [write_i2c_block_data]), [int] was given a NaN
    ([ValueError]). *)
Inductive error : Type :=
| ImportFailed
| BusError (cmd : Z) (data : list Z)
| NotANumber.

(** [wire] is what happened on the bus, oldest first; [refuses h cmd
    data] tells whether the write of [data] under [cmd], after [h], is
    refused. *)
Record bus : Type := mkBus {
  wire : list bus_event;
  refuses : list bus_event -> Z -> list Z -> bool
}.

Definition low_byte (x : Z) : Z := Z.land x 255.

Definition high_byte (x : Z) : Z := Z.land (Z.shiftr x 8) 255.

Definition dlp_write_cmd (cmd : Z) (data_bytes : option (list Z)) : IO error bus unit :=
  fun b =>
    let data_bytes := match data_bytes with None => [] | Some l => l end in
    let data_list := map (fun x => Z.land x 255) data_bytes in
    if refuses b (wire b) cmd data_list
    then (Fail (BusError cmd data_list),
          mkBus (wire b ++ [Refused DLP_I2C_ADDR cmd data_list])%list (refuses b))
    else (Done tt,
          mkBus (wire b ++ [Written DLP_I2C_ADDR cmd data_list; Settled (2 # 1000)])%list
            (refuses b)).

Definition dlp_set_led_control_manual : IO error bus unit :=
  let led_control_method := 0%Z in
  dlp_write_cmd 80 (Some [led_control_method]).

Definition dlp_enable_blue_only : IO error bus unit :=
  let led_enable := 4%Z in
  dlp_write_cmd 82 (Some [led_enable]).

Definition dlp_all_leds_off : IO error bus unit :=
  let led_enable := 0%Z in
  dlp_write_cmd 82 (Some [led_enable]).

Definition dlp_set_blue_current (raw_value : Z) : IO error bus unit :=
  let raw_value := if (raw_value <? 0)%Z then 0%Z else raw_value in
  let raw_value := if (raw_value >? 1023)%Z then 1023%Z else raw_value in
  let red := 0%Z in
  let green := 0%Z in
  let blue := raw_value in
  let params := [low_byte red; high_byte red;
                 low_byte green; high_byte green;
                 low_byte blue; high_byte blue] in
  dlp_write_cmd 84 (Some params).

(** [int(x)] of a float: the integer part, [ValueError] on a NaN and
    [OverflowError] on an infinity. *)
Definition int_of_float (x : PrimFloat.float) : option Z :=
  match FloatOps.Prim2SF x with
  | SpecFloat.S754_zero _ => Some 0%Z
  | SpecFloat.S754_finite s m e =>
      let magnitude :=
        if (0 <=? e)%Z then (Z.pos m * 2 ^ e)%Z else (Z.pos m / 2 ^ (- e))%Z in
      Some (if s then (- magnitude)%Z else magnitude)
  | _ => None
  end.

Definition dlp_set_blue_brightness_percent (percent : PrimFloat.float)
    : IO error bus unit :=
  let percent := if PrimFloat.ltb percent 0%float then 0%float else percent in
  let percent := if PrimFloat.ltb 100%float percent then 100%float else percent in
  let max_param := 1023%float in
  match int_of_float (PrimFloat.mul max_param (PrimFloat.div percent 100%float)) with
  | None => io_fail NotANumber
  | Some raw => dlp_set_blue_current raw
  end.

Definition dlp_setup_blue_only : IO error bus unit :=
  dlp_set_led_control_manual ;;
  dlp_set_blue_current DEFAULT_BLUE_CURRENT ;;
  dlp_enable_blue_only.

Definition dlp_setup_external_video_1920x1080_RGB888 : IO error bus unit :=
  let width := 1920%Z in
  let height := 1080%Z in
  let params_size := [low_byte width; high_byte width;
                      low_byte height; high_byte height] in
  dlp_write_cmd 46 (Some params_size) ;;
  let fmt := 67%Z in
  dlp_write_cmd 7 (Some [fmt]) ;;
  let params_disp := [low_byte width; high_byte width;
                      low_byte height; high_byte height] in
  dlp_write_cmd 18 (Some params_disp) ;;
  let src := 0%Z in
  dlp_write_cmd 5 (Some [src]).

Definition dlp_disable_curtain : IO error bus unit :=
  let curtain_param := 0%Z in
  dlp_write_cmd 22 (Some [curtain_param]).

End I2C_DLP_HDMI.

(* ================================================================== *)
(** * projector_control.py: class DlpProjector *)
(* ================================================================== *)

Module projector_control.

Import I2C_DLP_HDMI.

Record ProjectorConfig : Type := mkProjectorConfig {
  enabled : bool;
  blue_brightness_percent : option PrimFloat.float
}.

Record DlpProjector : Type := mkDlpProjector {
  cfg : ProjectorConfig;
  _ready : bool
}.

(** [DlpProjector(cfg)] *)
Definition new_projector (cfg : ProjectorConfig) : DlpProjector :=
  mkDlpProjector cfg false.

(** What the module sees besides the object: whether the import of the
    driver went through ([dlp is not None]), and the bus. *)
Record machine : Type := mkMachine {
  dlp : bool;
  i2c : bus
}.

Definition P (A : Type) : Type := IO error (DlpProjector * machine) A.

(** A function of the driver module. *)
Definition on_bus {A} (m : IO error bus A) : P A :=
  fun s =>
    let '(r, b) := m (i2c (snd s)) in
    (r, (fst s, mkMachine (dlp (snd s)) b)).

Definition get_projector : P DlpProjector := fun s => (Done (fst s), s).

Definition get_machine : P machine := fun s => (Done (snd s), s).

Definition set_ready (b : bool) : P unit :=
  fun s => (Done tt, (mkDlpProjector (cfg (fst s)) b, snd s)).

Definition init : P unit :=
  self <- get_projector ;;
  if negb (enabled (cfg self)) then io_ret tt
  else
    mc <- get_machine ;;
    if negb (dlp mc) then io_fail ImportFailed
    else if _ready self then io_ret tt
    else
      on_bus dlp_setup_external_video_1920x1080_RGB888 ;;
      on_bus dlp_setup_blue_only ;;
      (match blue_brightness_percent (cfg self) with
       | Some percent => on_bus (dlp_set_blue_brightness_percent percent)
       | None => io_ret tt
       end) ;;
      on_bus dlp_all_leds_off ;;
      set_ready true.

Definition on : P unit :=
  self <- get_projector ;;
  if negb (enabled (cfg self)) then io_ret tt
  else init ;; on_bus dlp_enable_blue_only.

Definition off : P unit :=
  self <- get_projector ;;
  if negb (enabled (cfg self)) then io_ret tt
  else init ;; on_bus dlp_all_leds_off.

End projector_control.

Local Close Scope io_scope.
Local Open Scope monad_scope.

(* ================================================================== *)
(** * Vocabulary for the I2C bus *)
(* ================================================================== *)

(** The settle time after a write. *)
Definition settle : I2C_DLP_HDMI.bus_event := I2C_DLP_HDMI.Settled (2 # 1000).

(** A write that was taken, with its settle time. *)
Definition sent (cmd : Z) (data : list Z) : list I2C_DLP_HDMI.bus_event :=
  [I2C_DLP_HDMI.Written 27 cmd data; settle].

(** The LED current command for a 10-bit value. *)
Definition current_bytes (v : Z) : list Z := [0; 0; 0; 0; v mod 256; v / 256]%Z.

(** What the set-up of the video input puts on the bus. *)
Definition video_setup : list I2C_DLP_HDMI.bus_event :=
  (sent 46 [128; 7; 56; 4] ++ sent 7 [67] ++ sent 18 [128; 7; 56; 4] ++ sent 5 [0])%list%Z.

(** What the set-up of the blue channel puts on the bus. *)
Definition blue_setup : list I2C_DLP_HDMI.bus_event :=
  (sent 80 [0] ++ sent 84 (current_bytes 512) ++ sent 82 [4])%list%Z.

(** A bus computation that, when it ends well, has put exactly [evs] on
    the bus. *)
Definition sends (evs : list I2C_DLP_HDMI.bus_event)
    (m : IO I2C_DLP_HDMI.error I2C_DLP_HDMI.bus unit) : Prop :=
  forall (b b' : I2C_DLP_HDMI.bus) (r : res I2C_DLP_HDMI.error unit),
    m b = (r, b') ->
    I2C_DLP_HDMI.refuses b' = I2C_DLP_HDMI.refuses b
    /\ r <> Spent
    /\ (r = Done tt -> I2C_DLP_HDMI.wire b' = (I2C_DLP_HDMI.wire b ++ evs)%list).

(** The value of the LED enable register: the data of the last write of
    command 0x52 that was taken. *)
Fixpoint led_enable (h : list I2C_DLP_HDMI.bus_event) : option (list Z) :=
  match h with
  | [] => None
  | e :: rest =>
      match led_enable rest with
      | Some d => Some d
      | None =>
          match e with
          | I2C_DLP_HDMI.Written _ cmd d => if (cmd =? 82)%Z then Some d else None
          | _ => None
          end
      end
  end.

Definition is_byte (x : Z) : Prop := (0 <= x <= 255)%Z.

(** What the projector may be told: bytes, to the address of the
    controller; under the LED enable command, nothing or the blue LED;
    under the LED current command, no red, no green, ten bits of blue. *)
Definition safe_command (cmd : Z) (data : list Z) : Prop :=
  Forall is_byte data
  /\ (cmd = 82%Z -> data = [0%Z] \/ data = [4%Z])
  /\ (cmd = 84%Z -> exists v : Z, (0 <= v <= 1023)%Z /\ data = current_bytes v).

(** Writes that the controller took, each one safe and followed by its
    settle time. *)
Inductive taken : list I2C_DLP_HDMI.bus_event -> Prop :=
| taken_nil : taken []
| taken_cons (cmd : Z) (data : list Z) (rest : list I2C_DLP_HDMI.bus_event) :
    safe_command cmd data -> taken rest -> taken (sent cmd data ++ rest).

(** What a call may put on the bus, by its outcome: safe writes that
    were taken, each with its settle time, and, when the call fails on a
    write, that write last, safe too, refused and without settle time. *)
Definition safe_wire {A} (r : res I2C_DLP_HDMI.error A)
    (evs : list I2C_DLP_HDMI.bus_event) : Prop :=
  match r with
  | Fail (I2C_DLP_HDMI.BusError cmd data) =>
      exists before : list I2C_DLP_HDMI.bus_event,
        evs = (before ++ [I2C_DLP_HDMI.Refused 27 cmd data])%list
        /\ taken before /\ safe_command cmd data
  | _ => taken evs
  end.

(** A bus computation that puts only safe events on the bus, whatever
    its outcome. *)
Definition stays_safe {A} (m : IO I2C_DLP_HDMI.error I2C_DLP_HDMI.bus A) : Prop :=
  forall (b b' : I2C_DLP_HDMI.bus) (r : res I2C_DLP_HDMI.error A),
    m b = (r, b') ->
    exists evs : list I2C_DLP_HDMI.bus_event,
      I2C_DLP_HDMI.wire b' = (I2C_DLP_HDMI.wire b ++ evs)%list
      /\ safe_wire r evs.

(** The bus part of [DlpProjector.init]. *)
Definition init_program (percent : option PrimFloat.float)
    : IO I2C_DLP_HDMI.error I2C_DLP_HDMI.bus unit :=
  io_bind I2C_DLP_HDMI.dlp_setup_external_video_1920x1080_RGB888 (fun _ =>
  io_bind I2C_DLP_HDMI.dlp_setup_blue_only (fun _ =>
  io_bind (match percent with
           | Some p => I2C_DLP_HDMI.dlp_set_blue_brightness_percent p
           | None => io_ret tt
           end) (fun _ =>
  I2C_DLP_HDMI.dlp_all_leds_off))).

(** A method of the projector that puts only safe events on the bus,
    whatever its outcome. *)
Definition drives_safely {A} (m : projector_control.P A) : Prop :=
  forall (s s' : projector_control.DlpProjector * projector_control.machine)
         (r : res I2C_DLP_HDMI.error A),
    m s = (r, s') ->
    exists evs : list I2C_DLP_HDMI.bus_event,
      I2C_DLP_HDMI.wire (projector_control.i2c (snd s'))
      = (I2C_DLP_HDMI.wire (projector_control.i2c (snd s)) ++ evs)%list
      /\ safe_wire r evs.

(* ================================================================== *)
(** * exposure.py: the full-screen window *)
(* ================================================================== *)

Local Close Scope monad_scope.
Local Open Scope io_scope.

Module exposure.

(** An event of the window system, as far as [_process_events] looks at
    it. *)
Inductive pg_event : Type :=
| QUIT
| KEYDOWN (key : Z)
| OtherEvent.

Definition K_ESCAPE : Z := 27.

(** The calls made on pygame, on [os.environ] and on [time.sleep].  The
    numbers in [Scale] and [Blit] are the size of the resulting and of the
    drawn image. *)
Inductive call : Type :=
| SetEnv (display_index : Z)
| PygameInit
| MouseSetVisible (visible : bool)
| SetMode
| NewClock
| EventGet
| PygameQuit
| ImageLoad (path : string)
| Convert
| Scale (w h : Z)
| Blit (w h : Z)
| Fill
| Flip
| Sleep (sec : PrimFloat.float).

Inductive entry : Type :=
| Returned (c : call)
| Raised (c : call).

(** What [pygame.image.load] does with a path: a surface of some size,
    [pygame.error], or another exception. *)
Inductive load_answer : Type :=
| Loaded (w h : Z)
| LoadPygameError
| LoadOtherError.

Inductive error : Type :=
| InitFirst
| SystemExit (code : Z)
| PygameError (c : call)
| LoadError (path : string)
| TypeError
| ZeroDivisionError
| ValueError
| OverflowError.

(** The outside of the module: [log] is what was called so far, oldest
    first, [time_now] the clock; the other fields tell, from the log, what
    the outside answers: whether a call raises [pygame.error], the native
    size of the screen, the events that are waiting, what a file loads
    to, and by how much a [time.sleep] oversleeps. *)
Record outside : Type := mkOutside {
  log : list entry;
  time_now : Q;
  raises : list entry -> call -> bool;
  native : list entry -> Z * Z;
  posted : list entry -> list pg_event;
  file : list entry -> string -> load_answer;
  lag : list entry -> Q
}.

Definition logged (o : outside) (e : entry) : outside :=
  mkOutside (log o ++ [e])%list (time_now o) (raises o) (native o) (posted o)
    (file o) (lag o).

(** The globals of the module.  [screen] is the surface of the window,
    known by its size. *)
Record globals : Type := mkGlobals {
  screen : option (Z * Z);
  screen_width : option Z;
  screen_height : option Z;
  clock : bool
}.

Definition fresh : globals := mkGlobals None None None false.

Definition E (A : Type) : Type := IO error (globals * outside) A.

Definition get_globals : E globals := fun s => (Done (fst s), s).

Definition put_globals (g : globals) : E unit := fun s => (Done tt, (g, snd s)).

(** [pygame.init] and [pygame.quit] do not raise, nor does the
    assignment to [os.environ]. *)
Definition may_raise (c : call) : bool :=
  match c with
  | SetEnv _ | PygameInit | PygameQuit | Sleep _ => false
  | _ => true
  end.

(** A call that returns nothing of interest. *)
Definition pg (c : call) : E unit :=
  fun s =>
    let o := snd s in
    if may_raise c && raises o (log o) c
    then (Fail (PygameError c), (fst s, logged o (Raised c)))
    else (Done tt, (fst s, logged o (Returned c))).

(** [pygame.display.set_mode((0, 0), pygame.FULLSCREEN)] *)
Definition set_mode : E (Z * Z) :=
  fun s =>
    let o := snd s in
    if raises o (log o) SetMode
    then (Fail (PygameError SetMode), (fst s, logged o (Raised SetMode)))
    else (Done (native o (log o)), (fst s, logged o (Returned SetMode))).

(** [pygame.event.get()] *)
Definition event_get : E (list pg_event) :=
  fun s =>
    let o := snd s in
    if raises o (log o) EventGet
    then (Fail (PygameError EventGet), (fst s, logged o (Raised EventGet)))
    else (Done (posted o (log o)), (fst s, logged o (Returned EventGet))).

(** [pygame.image.load(path)] under the [try] of [_load_image]:
    [pygame.error] is caught and gives [None]. *)
Definition image_load (path : string) : E (option (Z * Z)) :=
  fun s =>
    let o := snd s in
    match file o (log o) path with
    | Loaded w h => (Done (Some (w, h)), (fst s, logged o (Returned (ImageLoad path))))
    | LoadPygameError => (Done None, (fst s, logged o (Raised (ImageLoad path))))
    | LoadOtherError => (Fail (LoadError path), (fst s, logged o (Raised (ImageLoad path))))
    end.

Definition init_display (display_index : Z) : E unit :=
  pg (SetEnv display_index) ;;
  pg PygameInit ;;
  pg (MouseSetVisible false) ;;
  size <- set_mode ;;
  g <- get_globals ;;
  put_globals (mkGlobals (Some size) (screen_width g) (screen_height g) (clock g)) ;;
  g <- get_globals ;;
  put_globals (mkGlobals (screen g) (Some (fst size)) (Some (snd size)) (clock g)) ;;
  pg NewClock ;;
  g <- get_globals ;;
  put_globals (mkGlobals (screen g) (screen_width g) (screen_height g) true).

Definition sys_exit {A} (code : Z) : E A := io_fail (SystemExit code).

(** The loop of [_process_events] over the events that were waiting. *)
Fixpoint handle_events (evs : list pg_event) : E unit :=
  match evs with
  | [] => io_ret tt
  | ev :: rest =>
      match ev with
      | QUIT => pg PygameQuit ;; sys_exit 0
      | KEYDOWN key =>
          if (key =? K_ESCAPE)%Z then pg PygameQuit ;; sys_exit 0
          else handle_events rest
      | OtherEvent => handle_events rest
      end
  end.

Definition _process_events : E unit :=
  evs <- event_get ;;
  handle_events evs.

Definition same_size (a : Z * Z) (b : option Z * option Z) : bool :=
  match b with
  | (Some w, Some h) => (fst a =? w)%Z && (snd a =? h)%Z
  | _ => false
  end.

(** The result is the size of the surface that is returned, [None] for
    Python's [None]. *)
Definition _load_image (path : string) : E (option (Z * Z)) :=
  image <- image_load path ;;
  match image with
  | None => io_ret None
  | Some size =>
      pg Convert ;;
      g <- get_globals ;;
      if negb (same_size size (screen_width g, screen_height g))
      then
        match screen_width g, screen_height g with
        | Some w, Some h => pg (Scale w h) ;; io_ret (Some (w, h))
        | _, _ => io_fail TypeError
        end
      else io_ret (Some size)
  end.

Definition start_exposure (image_path : string) : E unit :=
  g <- get_globals ;;
  match screen g with
  | None => io_fail InitFirst
  | Some _ =>
      _process_events ;;
      image <- _load_image image_path ;;
      match image with
      | None => io_ret tt
      | Some (w, h) => pg (Blit w h) ;; pg Flip
      end
  end.

Definition stop_exposure : E unit :=
  g <- get_globals ;;
  match screen g with
  | None => io_fail InitFirst
  | Some _ =>
      _process_events ;;
      pg Fill ;;
      pg Flip
  end.

Definition close_display : E unit := pg PygameQuit.

End exposure.

(* ================================================================== *)
(** * display_control.py: class HdmiDisplay *)
(* ================================================================== *)

Module display_control.

Record HdmiDisplay : Type := mkHdmiDisplay {
  display_index : Z;
  event_pump_hz : Z;
  _inited : bool
}.

(** [HdmiDisplay(display_index, event_pump_hz)] *)
Definition new_display (display_index event_pump_hz : Z) : HdmiDisplay :=
  mkHdmiDisplay display_index (Z.max 1 event_pump_hz) false.

Definition D (A : Type) : Type :=
  IO exposure.error (HdmiDisplay * (exposure.globals * exposure.outside)) A.

(** A function of the module [exposure]. *)
Definition on_exposure {A} (m : exposure.E A) : D A :=
  fun s =>
    let '(r, m') := m (snd s) in
    (r, (fst s, m')).

Definition get_display : D HdmiDisplay := fun s => (Done (fst s), s).

Definition set_inited (b : bool) : D unit :=
  fun s =>
    (Done tt, (mkHdmiDisplay (display_index (fst s)) (event_pump_hz (fst s)) b, snd s)).

Definition init : D unit :=
  self <- get_display ;;
  if _inited self then io_ret tt
  else
    on_exposure (exposure.init_display (display_index self)) ;;
    set_inited true.

Definition show (image_path : string) : D unit :=
  init ;;
  on_exposure (exposure.start_exposure image_path).

Definition black : D unit :=
  self <- get_display ;;
  if negb (_inited self) then io_ret tt
  else on_exposure exposure.stop_exposure.

Definition close : D unit :=
  self <- get_display ;;
  (if _inited self then on_exposure exposure.close_display else io_ret tt) ;;
  set_inited false.

Section Waiting.

Import Floats.PrimFloat.

(** [time.time()]: the double next to the clock. *)
Definition time_time : D PrimFloat.float :=
  fun s => (Done (double_of_Q (exposure.time_now (snd (snd s)))), s).

(** [time.sleep(sec)]: [ValueError] for a NaN and for a negative number,
    [OverflowError] for an infinity; otherwise the clock moves on by
    [sec] and by the lag. *)
Definition time_sleep (sec : PrimFloat.float) : D unit :=
  fun s =>
    let o := snd (snd s) in
    let refused e :=
      (Fail e, (fst s, (fst (snd s), exposure.logged o (exposure.Raised (exposure.Sleep sec))))) in
    match Q_of_double sec with
    | None =>
        refused (if PrimFloat.is_nan sec then exposure.ValueError
                 else exposure.OverflowError)
    | Some q =>
        if Qlt_bool q 0 then refused exposure.ValueError
        else
          (Done tt,
           (fst s,
            (fst (snd s),
             exposure.mkOutside
               (exposure.log o ++ [exposure.Returned (exposure.Sleep sec)])%list
               (exposure.time_now o + q + exposure.lag o (exposure.log o))%Q
               (exposure.raises o) (exposure.native o) (exposure.posted o)
               (exposure.file o) (exposure.lag o))))
    end.

(** Python's [min(a, b)] of two floats: [b] when [b < a], else [a]. *)
Definition py_min (a b : PrimFloat.float) : PrimFloat.float :=
  if PrimFloat.ltb b a then b else a.

(** The [while True] of [sleep_with_pump], followed for [turns] turns. *)
Fixpoint pump_loop (turns : nat) (period t_end : PrimFloat.float) : D unit :=
  match turns with
  | O => fun s => (Spent, s)
  | S turns' =>
      now <- time_time ;;
      if PrimFloat.leb t_end now then io_ret tt
      else
        time_sleep (py_min period (PrimFloat.sub t_end now)) ;;
        pump_loop turns' period t_end
  end.

(** [1.0 / hz] for the integer [hz]: [OverflowError] when [hz] is beyond
    the doubles, [ZeroDivisionError] when it is 0. *)
Definition pump_period (hz : Z) : D PrimFloat.float :=
  match Q_of_double (double_of_Q (inject_Z hz)) with
  | None => io_fail exposure.OverflowError
  | Some _ =>
      if (hz =? 0)%Z then io_fail exposure.ZeroDivisionError
      else io_ret (PrimFloat.div 1%float (double_of_Q (inject_Z hz)))
  end.

(** [sleep_with_pump(seconds)], its loop followed for [turns] turns. *)
Definition sleep_with_pump (turns : nat) (seconds : PrimFloat.float) : D unit :=
  if PrimFloat.leb seconds 0%float then io_ret tt
  else
    self <- get_display ;;
    period <- pump_period (event_pump_hz self) ;;
    now <- time_time ;;
    let t_end := PrimFloat.add now seconds in
    pump_loop turns period t_end.

End Waiting.

End display_control.

(* ================================================================== *)
(** * Vocabulary for the display *)
(* ================================================================== *)

(** The methods of [HdmiDisplay]. *)
Inductive display_method : Type :=
| DoInit
| DoShow (image_path : string)
| DoBlack
| DoClose
| DoSleepWithPump (turns : nat) (seconds : PrimFloat.float).

Definition perform (m : display_method) : display_control.D unit :=
  match m with
  | DoInit => display_control.init
  | DoShow image_path => display_control.show image_path
  | DoBlack => display_control.black
  | DoClose => display_control.close
  | DoSleepWithPump turns seconds => display_control.sleep_with_pump turns seconds
  end.

Definition display_state : Type :=
  (display_control.HdmiDisplay * (exposure.globals * exposure.outside))%type.

(** The outcomes of a series of calls by a caller that carries on after
    an error. *)
Fixpoint outcomes (ms : list display_method) (s : display_state)
    : list (res exposure.error unit) :=
  match ms with
  | [] => []
  | m :: rest => let '(r, s') := perform m s in r :: outcomes rest s'
  end.

(** A display that holds itself for initialised has a window, and a
    window comes with its width and height. *)
Definition has_window (s : display_state) : Prop :=
  (display_control._inited (fst s) = true -> exposure.screen (fst (snd s)) <> None)
  /\ (forall size, exposure.screen (fst (snd s)) = Some size ->
      exposure.screen_width (fst (snd s)) = Some (fst size)
      /\ exposure.screen_height (fst (snd s)) = Some (snd size)).

Definition the_log (s : display_state) : list exposure.entry :=
  exposure.log (snd (snd s)).

Definition the_time (s : display_state) : Q := exposure.time_now (snd (snd s)).

(** A call that changes what the screen shows. *)
Definition draws (e : exposure.entry) : bool :=
  match e with
  | exposure.Returned (exposure.Blit _ _)
  | exposure.Returned exposure.Fill
  | exposure.Returned exposure.Flip => true
  | _ => false
  end.

(** An event on which [_process_events] ends the program. *)
Definition asks_to_quit (ev : exposure.pg_event) : bool :=
  match ev with
  | exposure.QUIT => true
  | exposure.KEYDOWN key => (key =? exposure.K_ESCAPE)%Z
  | exposure.OtherEvent => false
  end.

(** The naps of a wait, as the log has them. *)
Definition naps_of (naps : list PrimFloat.float) : list exposure.entry :=
  map (fun d => exposure.Returned (exposure.Sleep d)) naps.

(** A nap of one period, or of a double below the period. *)
Definition nap (period d : PrimFloat.float) : Prop :=
  d = period \/ PrimFloat.ltb d period = true.

Local Close Scope io_scope.
Local Open Scope monad_scope.

(* ================================================================== *)
(** * I2C_DLP.py: the stand-alone driver *)
(* ================================================================== *)

Module I2C_DLP.

(** The two bytes of a 10-bit code, low byte first. *)
Definition pack_10bit_le (code : Z) : Z * Z :=
  let code := if (code <? 0)%Z then 0%Z else code in
  let code := if (code >? 1023)%Z then 1023%Z else code in
  let lsb := Z.land code 255 in
  let msb := Z.land (Z.shiftr code 8) 3 in
  (lsb, msb).

End I2C_DLP.

(* ================================================================== *)
(** * Lemmas on text *)
(* ================================================================== *)

Lemma lstrip_blank (s : string) : all isspace s = true -> lstrip s = EmptyString.
Proof.
  induction s as [|c r IH]; simpl; [reflexivity|].
  intros H. apply andb_true_iff in H as [Hc Hr]. rewrite Hc. auto.
Qed.

Lemma strip_blank (s : string) : all isspace s = true -> strip s = EmptyString.
Proof. intros H. unfold strip. rewrite lstrip_blank by assumption. reflexivity. Qed.

Lemma is_empty_true (s : string) : is_empty s = true <-> s = EmptyString.
Proof. destruct s; simpl; split; intro H; congruence. Qed.

Lemma is_empty_false (s : string) : is_empty s = false <-> s <> EmptyString.
Proof. destruct s; simpl; split; intro H; congruence. Qed.

Lemma before_append (c : ascii) (tok rest : string) :
  contains c tok = false -> before c (tok ++ String c rest) = tok.
Proof.
  induction tok as [|d r IH]; simpl.
  - rewrite Ascii.eqb_refl. reflexivity.
  - intros H. apply orb_false_iff in H as [Hd Hr]. rewrite Hd, IH; auto.
Qed.

Lemma contains_append (c : ascii) (tok rest : string) :
  contains c (tok ++ String c rest) = true.
Proof.
  induction tok as [|d r IH]; simpl.
  - rewrite Ascii.eqb_refl. reflexivity.
  - rewrite IH. apply orb_true_r.
Qed.

Lemma lstrip_head (s : string) :
  lstrip s = EmptyString
  \/ exists c r, lstrip s = String c r /\ isspace c = false.
Proof.
  induction s as [|c r IH]; cbn [lstrip]; [auto|].
  destruct (isspace c) eqn:Hc; [assumption|]. right. eauto.
Qed.

Lemma rstrip_idempotent (s : string) : rstrip (rstrip s) = rstrip s.
Proof.
  induction s as [|c r IH]; [reflexivity|]. cbn [rstrip].
  destruct (rstrip r) as [|d r'] eqn:Hr.
  - destruct (isspace c) eqn:Hc; [reflexivity|]. cbn [rstrip]. rewrite Hc. reflexivity.
  - cbn [rstrip] in *. rewrite IH. reflexivity.
Qed.

Lemma lstrip_rstrip (c : ascii) (r : string) :
  isspace c = false -> lstrip (rstrip (String c r)) = rstrip (String c r).
Proof.
  intros Hc. cbn [rstrip]. destruct (rstrip r); rewrite ?Hc; cbn [lstrip];
    rewrite Hc; reflexivity.
Qed.

Lemma strip_idempotent (s : string) : strip (strip s) = strip s.
Proof.
  unfold strip. destruct (lstrip_head s) as [He|(c & r & He & Hc)]; rewrite He.
  - reflexivity.
  - rewrite (lstrip_rstrip c r Hc). apply rstrip_idempotent.
Qed.

(* ================================================================== *)
(** * Lemmas on the monad *)
(* ================================================================== *)

Lemma bind_Ok {S A B} (m : M S A) (k : A -> M S B) (s s' : S) (b : B) :
  bind m k s = (Ok b, s') ->
  exists a s1, m s = (Ok a, s1) /\ k a s1 = (Ok b, s').
Proof.
  unfold bind. destruct (m s) as [[a| e |] s1]; intros H; try discriminate.
  exists a, s1. auto.
Qed.

Lemma bind_step {S A B} (m : M S A) (k : A -> M S B) (s s1 : S) (a : A) :
  m s = (Ok a, s1) -> bind m k s = k a s1.
Proof. intros H. unfold bind. rewrite H. reflexivity. Qed.


Lemma on_world_Ok {A} (m : M world A) (s s' : GcodeExecutor * world) (a : A) :
  on_world m s = (Ok a, s') ->
  exists w1, m (snd s) = (Ok a, w1) /\ s' = (fst s, w1).
Proof.
  unfold on_world. destruct (m (snd s)) as [r w1]. intros H.
  inversion H; subst. eauto.
Qed.

(* ================================================================== *)
(** * GrblClient: reading a line *)
(* ================================================================== *)

Lemma read_loop_inv :
  forall (items : list rx_item) (left t : Q) (r : outcome string) (t' : Q)
         (items' : list rx_item) (evs : list event),
    read_loop left t items = (r, (t', items', evs)) ->
    Forall read_event evs
    /\ r <> OutOfFuel
    /\ (forall e, r = Raise e -> e = ReadTimeout)
    /\ (forall line, r = Ok line ->
        exists (skipped : list (Q * string)) (dt : Q) (text : string),
          items = (map deliver skipped ++ Delivered dt text :: items')%list
          /\ Forall (fun p => snd p = EmptyString) skipped
          /\ text <> EmptyString
          /\ line = strip text
          /\ evs = (read_events skipped ++ [SerialLine line])%list).
Proof.
  assert (Hsilence : Forall read_event [SerialSilence])
    by (constructor; [left; reflexivity|constructor]).
  induction items as [|[dt text|] rest IH]; intros left t r t' items' evs Hrun;
    cbn [read_loop] in Hrun.
  - inversion Hrun; subst. split; [exact Hsilence|].
    split; [discriminate|]. split; [intros e He; congruence|discriminate].
  - destruct (Qlt_bool left dt).
    + inversion Hrun; subst. split; [exact Hsilence|].
      split; [discriminate|]. split; [intros e He; congruence|discriminate].
    + destruct (is_empty text) eqn:Hempty.
      * destruct (read_loop (left - dt) (t + dt) rest) as [r0 [[t0 items0] evs0]] eqn:Hrec.
        inversion Hrun; subst.
        apply IH in Hrec as (Hevs & Hfuel & Hraise & Hok).
        split; [constructor; [right; eexists; reflexivity|exact Hevs]|].
        split; [exact Hfuel|]. split; [exact Hraise|].
        intros line Hline.
        destruct (Hok line Hline) as (skipped & dt' & text' & Hitems & Hskip & Htext & Hl & He).
        exists ((dt, text) :: skipped), dt', text'.
        apply is_empty_true in Hempty. subst text.
        split; [rewrite Hitems; reflexivity|].
        split; [constructor; [reflexivity|exact Hskip]|].
        split; [exact Htext|]. split; [exact Hl|].
        rewrite He. reflexivity.
      * inversion Hrun; subst.
        split; [constructor; [right; eexists; reflexivity|constructor]|].
        split; [discriminate|]. split; [discriminate|].
        intros line Hline. inversion Hline; subst.
        exists [], dt, text. apply is_empty_false in Hempty.
        repeat split; auto.
  - inversion Hrun; subst. split; [exact Hsilence|].
    split; [discriminate|]. split; [intros e He; congruence|discriminate].
Qed.

(** What a call of [_readline] may do, whatever the port says. *)
Lemma readline_inv (timeout_s : Q) (w w' : world) (r : outcome string) :
  _readline timeout_s w = (r, w') ->
  faulty w' = faulty w
  /\ r <> OutOfFuel
  /\ (forall e, r = Raise e -> e = ReadTimeout)
  /\ exists evs : list event,
       trace w' = (trace w ++ evs)%list
       /\ Forall read_event evs
       /\ (forall line, r = Ok line ->
           exists (skipped : list (Q * string)) (dt : Q) (text : string),
             rx w = (map deliver skipped ++ Delivered dt text :: rx w')%list
             /\ Forall (fun p => snd p = EmptyString) skipped
             /\ text <> EmptyString
             /\ line = strip text
             /\ evs = (read_events skipped ++ [SerialLine line])%list).
Proof.
  unfold _readline.
  destruct (read_loop timeout_s (now w) (rx w)) as [r0 [[t0 items0] evs0]] eqn:Hloop.
  intros Hrun. inversion Hrun; subst. cbn [faulty trace rx].
  apply read_loop_inv in Hloop as (Hevs & Hfuel & Hraise & Hok).
  split; [reflexivity|]. split; [exact Hfuel|]. split; [exact Hraise|].
  exists evs0. auto.
Qed.

(** A line returned takes at least one item from the port. *)
Lemma readline_Ok_shorter (timeout_s : Q) (w w' : world) (line : string) :
  _readline timeout_s w = (Ok line, w') ->
  (List.length (rx w') < List.length (rx w))%nat.
Proof.
  intros Hrun. apply readline_inv in Hrun as (_ & _ & _ & evs & _ & _ & Hok).
  destruct (Hok line eq_refl) as (skipped & dt & text & Hrx & _).
  rewrite Hrx, length_app. cbn [List.length]. lia.
Qed.

Lemma prompt_in_time (timeout_s dt : Q) (text : string) :
  prompt timeout_s (dt, text) = true ->
  Qlt_bool timeout_s dt = false /\ is_empty text = false.
Proof.
  unfold prompt, Qlt_bool. cbn [fst snd]. intros H.
  apply andb_true_iff in H as [Hdt Htext]. rewrite Hdt.
  apply negb_true_iff in Htext. auto.
Qed.

(** A line that is whole before the deadline is returned. *)
Lemma readline_prompt (timeout_s t dt : Q) (text : string) (rest : list rx_item)
    (tr : list event) (f : list event -> event -> bool) :
  prompt timeout_s (dt, text) = true ->
  _readline timeout_s (mkWorld t (Delivered dt text :: rest) tr f)
  = (Ok (strip text), mkWorld (t + dt) rest (tr ++ [SerialLine (strip text)]) f).
Proof.
  intros Hp. apply prompt_in_time in Hp as [Hdt Htext].
  unfold _readline. cbn [now rx trace faulty read_loop]. rewrite Hdt, Htext. reflexivity.
Qed.



(* ================================================================== *)
(** * GrblClient: acknowledgement loop *)
(* ================================================================== *)

Lemma ack_loop_skip (clean : string) (tl : list rx_item) (f : list event -> event -> bool) :
  forall (infos : list (Q * string)) (fuel : nat) (t : Q) (tr : list event),
    (List.length infos < fuel)%nat ->
    Forall (fun p => informational (snd p) = true) infos ->
    Forall (fun p => prompt 10 p = true) infos ->
    ack_loop fuel clean (mkWorld t (map deliver infos ++ tl) tr f)
    = ack_loop (fuel - List.length infos) clean
        (mkWorld (read_clock t infos) tl (tr ++ read_events infos) f).
Proof.
  induction infos as [|[dt text] infos IH]; intros fuel t tr Hfuel Hinfo Hprompt.
  - simpl. rewrite Nat.sub_0_r, app_nil_r. reflexivity.
  - destruct fuel as [|fuel]; [simpl in Hfuel; lia|].
    inversion Hinfo as [|? ? Hp Hrest]; subst. simpl in Hp.
    inversion Hprompt as [|? ? Hq Hqrest]; subst.
    unfold informational in Hp. apply andb_true_iff in Hp as [Hok Hrej].
    apply negb_true_iff in Hok, Hrej. unfold rejection in Hrej.
    cbn [ack_loop map app]. change (deliver (dt, text)) with (Delivered dt text).
    rewrite (bind_step _ _ _ _ _ (readline_prompt _ _ _ _ _ _ _ Hq)).
    rewrite Hok, Hrej.
    rewrite IH by (simpl in Hfuel; auto; lia).
    unfold read_events. simpl. rewrite <- app_assoc. reflexivity.
Qed.

Lemma ack_loop_total :
  forall (fuel : nat) (clean : string) (w : world),
    (List.length (rx w) < fuel)%nat ->
    fst (ack_loop fuel clean w) <> OutOfFuel.
Proof.
  induction fuel as [|fuel IH]; intros clean w Hfuel; [lia|].
  cbn [ack_loop]. unfold bind.
  destruct (_readline 10 w) as [[resp|e|] w1] eqn:Hread.
  - apply readline_Ok_shorter in Hread.
    destruct (lower resp =? "ok"); [discriminate|].
    destruct (startswith "error" (lower resp) || startswith "alarm" (lower resp));
      [discriminate|].
    apply IH. lia.
  - discriminate.
  - apply readline_inv in Hread as (_ & Hfuel' & _). contradiction Hfuel'. reflexivity.
Qed.

Lemma send_line_wait_ok_total (line : string) (w : world) :
  fst (send_line_wait_ok line w) <> OutOfFuel.
Proof.
  unfold send_line_wait_ok. destruct (is_empty (strip line)); [discriminate|].
  unfold bind at 1. unfold write_line, emit. cbv beta iota. unfold with_fuel.
  apply ack_loop_total. simpl. lia.
Qed.

(** C10. A line that is empty or made of white space only is answered
    with the empty string at once: nothing is written, nothing is read,
    nothing is raised, and the client and the port are as they were. *)
Theorem send_blank_line_is_noop (line : string) (w : world) :
  all isspace line = true ->
  send_line_wait_ok line w = (Ok EmptyString, w).
Proof.
  intros H. unfold send_line_wait_ok. rewrite (strip_blank _ H). reflexivity.
Qed.

Lemma send_blank_line_is_noop_witness :
  let w := mkWorld 0 [Delivered 0 "ok"] [] reliable in
  all isspace "  " = true /\ send_line_wait_ok "  " w = (Ok EmptyString, w).
Proof.
  split; [reflexivity | apply (send_blank_line_is_noop "  "); reflexivity].
Defined.

(** C5. After writing a command that is not blank, [send_line_wait_ok]
    reads one line at a time, each within the ten seconds that a read
    waits: lines that are neither the acknowledgement nor a rejection are
    dropped; the first line that reads ok in any case is returned; the
    first line that starts with error or alarm in any case is raised at
    once, with nothing written or read after it.  A command answered by
    two informational lines and then ok returns ok and takes three lines
    from the port. *)
Theorem send_line_wait_ok_reads_to_terminal
    (line : string) (w : world) (infos : list (Q * string))
    (dt : Q) (text : string) (rest : list rx_item) :
  strip line <> EmptyString ->
  rx w = (map deliver infos ++ Delivered dt text :: rest)%list ->
  Forall (fun p => informational (snd p) = true) infos ->
  Forall (fun p => prompt 10 p = true) infos ->
  prompt 10 (dt, text) = true ->
  let resp := strip text in
  let w' := mkWorld (read_clock (now w) infos + dt) rest
              (trace w ++ [SerialWrite (strip line ++ NL)]
                 ++ read_events infos ++ [SerialLine resp])%list
              (faulty w) in
  (lower resp = "ok" -> send_line_wait_ok line w = (Ok resp, w'))
  /\ (rejection resp = true ->
      send_line_wait_ok line w = (Raise (ControllerRejected resp (strip line)), w'))
  /\ send_line_wait_ok "G21"
       (mkWorld 0 [Delivered 0 "[MSG:Caution]"; Delivered 0 "[GC:G0 G54]";
                   Delivered 0 "ok"; Delivered 0 "<Idle|MPos:0>"] [] reliable)
     = (Ok "ok",
        mkWorld (0 + 0 + 0 + 0) [Delivered 0 "<Idle|MPos:0>"]
          [SerialWrite ("G21" ++ NL); SerialLine "[MSG:Caution]";
           SerialLine "[GC:G0 G54]"; SerialLine "ok"] reliable).
Proof.
  intros Hclean Hrx Hinfo Hprompt Hlast resp w'.
  assert (Hrun : send_line_wait_ok line w
                 = ack_loop (S (S (List.length rest))) (strip line)
                     (mkWorld (read_clock (now w) infos) (Delivered dt text :: rest)
                        ((trace w ++ [SerialWrite (strip line ++ NL)])
                           ++ read_events infos) (faulty w))).
  { unfold send_line_wait_ok. apply is_empty_false in Hclean. rewrite Hclean.
    unfold bind at 1. unfold write_line, emit. cbv beta iota. unfold with_fuel.
    rewrite strip_idempotent.
    destruct w as [t items tr f]. cbn [now rx trace faulty] in *. subst items.
    rewrite ack_loop_skip;
      [|rewrite length_app, length_map; simpl; lia|assumption|assumption].
    f_equal. rewrite length_app, length_map. cbn [List.length]. lia. }
  split; [|split].
  - intros Hok. rewrite Hrun. cbn [ack_loop].
    rewrite (bind_step _ _ _ _ _ (readline_prompt _ _ _ _ _ _ _ Hlast)).
    fold resp. rewrite Hok. simpl. unfold ret, w'. repeat rewrite <- app_assoc. reflexivity.
  - intros Hrej. rewrite Hrun. cbn [ack_loop].
    rewrite (bind_step _ _ _ _ _ (readline_prompt _ _ _ _ _ _ _ Hlast)).
    fold resp. unfold rejection in Hrej.
    destruct (lower resp =? "ok") eqn:Hok.
    + apply String.eqb_eq in Hok. rewrite Hok in Hrej. discriminate.
    + rewrite Hrej. unfold raise, w'. repeat rewrite <- app_assoc. reflexivity.
  - reflexivity.
Qed.

Lemma send_line_wait_ok_reads_to_terminal_witness :
  send_line_wait_ok "G21"
    (mkWorld 0 [Delivered 0 "[MSG:Caution]"; Delivered 0 "[GC:G0 G54]";
                Delivered 0 "OK"; Delivered 0 "<Idle|MPos:0>"] [] reliable)
  = (Ok "OK",
     mkWorld (0 + 0 + 0 + 0) [Delivered 0 "<Idle|MPos:0>"]
       [SerialWrite ("G21" ++ NL); SerialLine "[MSG:Caution]";
        SerialLine "[GC:G0 G54]"; SerialLine "OK"] reliable).
Proof.
  refine (proj1 (send_line_wait_ok_reads_to_terminal "G21"
                   (mkWorld 0 [Delivered 0 "[MSG:Caution]"; Delivered 0 "[GC:G0 G54]";
                               Delivered 0 "OK"; Delivered 0 "<Idle|MPos:0>"] [] reliable)
                   [(0, "[MSG:Caution]"); (0, "[GC:G0 G54]")] 0 "OK"
                   [Delivered 0 "<Idle|MPos:0>"] _ _ _ _ _) _).
  - vm_compute. discriminate.
  - reflexivity.
  - repeat constructor.
  - repeat constructor.
  - reflexivity.
  - reflexivity.
Defined.

(* ================================================================== *)
(** * GrblClient: status query and idle wait *)
(* ================================================================== *)

Lemma get_status_delivered (t dt : Q) (text : string) (rest : list rx_item)
    (tr : list event) (f : list event -> event -> bool) :
  prompt 2 (dt, text) = true ->
  get_status (mkWorld t (Delivered dt text :: rest) tr f)
  = (Ok (parse_status (strip text)),
     mkWorld (t + dt) rest (tr ++ poll_events text) f).
Proof.
  intros Hp. unfold get_status, write_line, emit. unfold bind at 1. cbv beta iota.
  cbn [now rx trace faulty].
  rewrite (bind_step _ _ _ _ _ (readline_prompt _ _ _ _ _ _ _ Hp)).
  unfold ret, poll_events. rewrite <- app_assoc. reflexivity.
Qed.

(** What a status query may do, whatever the port says. *)
Lemma get_status_inv (w w' : world) (r : outcome GrblStatus) :
  get_status w = (r, w') ->
  faulty w' = faulty w
  /\ r <> OutOfFuel
  /\ (forall e, r = Raise e -> e = ReadTimeout)
  /\ exists evs : list event,
       trace w' = (trace w ++ SerialWrite status_query :: evs)%list
       /\ Forall read_event evs
       /\ (forall st, r = Ok st ->
           (List.length (rx w') < List.length (rx w))%nat
           /\ exists (before_it : list event) (line : string),
                evs = (before_it ++ [SerialLine line])%list
                /\ st = parse_status line).
Proof.
  unfold get_status, write_line, emit. unfold bind at 1. cbv beta iota.
  set (w0 := mkWorld (now w) (rx w) (trace w ++ [SerialWrite (strip "?" ++ NL)]) (faulty w)).
  unfold bind. destruct (_readline 2 w0) as [[line|e|] w1] eqn:Hread; intros Hrun;
    inversion Hrun; subst;
    pose proof (readline_inv _ _ _ _ Hread) as (Hf & Hfuel & Hraise & evs & Htr & Hevs & Hok);
    unfold w0 in Hf, Htr; cbn [faulty trace rx] in Hf, Htr.
  - split; [exact Hf|]. split; [discriminate|]. split; [discriminate|].
    pose proof (readline_Ok_shorter _ _ _ _ Hread) as Hshort.
    unfold w0 in Hshort. cbn [rx] in Hshort.
    exists evs.
    split; [rewrite Htr, <- app_assoc; reflexivity|]. split; [exact Hevs|].
    intros st Hst. inversion Hst; subst. split; [exact Hshort|].
    destruct (Hok line eq_refl) as (skipped & dt & text & _ & _ & _ & Hline & He).
    exists (read_events skipped), line. split; [exact He|reflexivity].
  - split; [exact Hf|]. split; [discriminate|].
    split; [intros e0 He0; inversion He0; subst; apply Hraise; reflexivity|].
    exists evs. split; [rewrite Htr, <- app_assoc; reflexivity|].
    split; [exact Hevs|discriminate].
  - contradiction Hfuel. reflexivity.
Qed.

(** C8. On every line that the port delivers within the two seconds
    that the read waits, [get_status] returns: the line is kept as the raw
    text; when it starts with the opening bracket and holds a bar, the
    state is the token between that bracket and the first bar, which is
    what the design document says of such a line; every other line, also
    one that holds a bracket and a bar further in, has the unknown state
    ([None]).  The report of an idle controller parses to Idle. *)
Theorem get_status_parses_any_line
    (w : world) (dt : Q) (text : string) (rest : list rx_item) :
  rx w = Delivered dt text :: rest ->
  prompt 2 (dt, text) = true ->
  let line := strip text in
  get_status w
  = (Ok (parse_status line),
     mkWorld (now w + dt) rest (trace w ++ poll_events text) (faulty w))
  /\ raw (parse_status line) = line
  /\ (forall tok more : string,
        line = "<" ++ tok ++ "|" ++ more -> contains "|" tok = false ->
        state (parse_status line) = Some tok)
  /\ (startswith "<" line = true ->
      state (parse_status line) = documented_state line)
  /\ (startswith "<" line && contains "|" line = false ->
      state (parse_status line) = None)
  /\ state (parse_status idle_report) = Some "Idle"
  /\ state (parse_status "ok") = None
  /\ state (parse_status "Idle|MPos:0.000,0.000,0.000") = None
  /\ state (parse_status "<Idle,MPos:0.000,0.000,0.000>") = None.
Proof.
  intros Hrx Hp line. destruct w as [t items tr f]. cbn [now rx trace faulty] in *.
  subst items. split; [apply get_status_delivered; exact Hp|].
  split; [reflexivity|]. split; [|split; [|split]].
  - intros tok more Hline Hbar. unfold parse_status. rewrite Hline.
    change ("<" ++ tok ++ "|" ++ more) with (String "<" (tok ++ String "|" more)).
    unfold startswith. cbn [String.prefix contains tail state].
    rewrite contains_append, before_append by assumption.
    destruct (tok ++ String "|" more); reflexivity.
  - intros Hstart. unfold parse_status, documented_state. cbn [state].
    rewrite Hstart. destruct line as [|c r]; [discriminate|].
    unfold startswith in Hstart. cbn [String.prefix] in Hstart.
    destruct (Ascii.eqb_spec "<"%char c) as [Hc|Hc].
    + subst c. cbn [after tail contains andb orb]. rewrite Ascii.eqb_refl.
      change (Ascii.eqb "|" "<") with false. cbn [orb]. reflexivity.
    + destruct c as [[] [] [] [] [] [] [] []]; try discriminate; contradiction Hc; reflexivity.
  - intros Hshape. unfold parse_status. rewrite Hshape. reflexivity.
  - repeat split; reflexivity.
Qed.

Lemma get_status_parses_any_line_witness :
  get_status (mkWorld 0 [Delivered (1 # 100) idle_report] [] reliable)
  = (Ok (mkGrblStatus idle_report (Some "Idle")),
     mkWorld (0 + (1 # 100)) [] (poll_events idle_report) reliable).
Proof.
  exact (proj1 (get_status_parses_any_line
                  (mkWorld 0 [Delivered (1 # 100) idle_report] [] reliable)
                  (1 # 100) idle_report [] eq_refl eq_refl)).
Defined.

(** C8, the counterexample.  A line that holds the bracket and the bar
    further in: the token between the first bracket and the first bar is
    Idle, and [get_status] returns the unknown state. *)
Lemma get_status_wants_the_bracket_first :
  let w := mkWorld 0 [Delivered 0 "x<Idle|y"] [] reliable in
  documented_state "x<Idle|y" = Some "Idle"
  /\ fst (get_status w) = Ok (mkGrblStatus "x<Idle|y" None)
  /\ state (parse_status "x<Idle|y") <> documented_state "x<Idle|y".
Proof.
  cbv zeta. split; [reflexivity|]. split; [reflexivity|]. vm_compute. discriminate.
Qed.

Lemma Qlt_bool_false (a b : Q) : Qle_bool b a = true -> Qlt_bool a b = false.
Proof. intros H. unfold Qlt_bool. rewrite H. reflexivity. Qed.

Lemma neutral_states (text : string) :
  neutral text = true ->
  state_is (parse_status (strip text)) "Idle" = false
  /\ state_is (parse_status (strip text)) "Alarm" = false.
Proof.
  unfold neutral. intros H. apply andb_true_iff in H as [H1 H2].
  apply negb_true_iff in H1, H2. auto.
Qed.

Lemma idle_loop_skip (t0 timeout_s poll_s : Q) (tl : list rx_item)
    (f : list event -> event -> bool) :
  Qlt_bool poll_s 0 = false ->
  forall (polls : list (Q * string)) (fuel : nat) (t : Q) (tr : list event),
    (List.length polls < fuel)%nat ->
    Forall (fun p => neutral (snd p) = true) polls ->
    Forall (fun p => prompt 2 p = true) polls ->
    in_time t0 timeout_s poll_s t polls = true ->
    idle_loop fuel t0 timeout_s poll_s (mkWorld t (map deliver polls ++ tl) tr f)
    = idle_loop (fuel - List.length polls) t0 timeout_s poll_s
        (mkWorld (clock_after poll_s t polls) tl (tr ++ polls_events poll_s polls) f).
Proof.
  intros Hpoll.
  induction polls as [|[dt text] polls IH]; intros fuel t tr Hfuel Hneutral Hprompt Htime.
  - cbn [List.length clock_after polls_events flat_map map app].
    rewrite Nat.sub_0_r, app_nil_r. reflexivity.
  - destruct fuel as [|fuel]; [cbn [List.length] in Hfuel; lia|].
    inversion Hneutral as [|? ? Hp Hrest]; subst. cbn [snd] in Hp.
    inversion Hprompt as [|? ? Hq Hqrest]; subst.
    apply neutral_states in Hp as [Hidle Halarm].
    cbn [in_time fst] in Htime. apply andb_true_iff in Htime as [Hnow Hlater].
    cbn [idle_loop map app].
    change (deliver (dt, text)) with (Delivered dt text).
    rewrite (bind_step _ _ _ _ _ (get_status_delivered _ _ _ _ _ _ Hq)).
    rewrite Hidle, Halarm.
    unfold bind at 1. unfold time_time. cbn [now].
    rewrite (Qlt_bool_false _ _ Hnow).
    unfold time_sleep. rewrite Hpoll. unfold bind at 1. cbn [now rx trace faulty].
    rewrite IH; [|cbn [List.length] in Hfuel; lia|assumption|assumption|assumption].
    cbn [List.length clock_after polls_events flat_map fst snd Nat.sub].
    repeat rewrite <- app_assoc. reflexivity.
Qed.

(** One turn of the idle loop that goes on to the next: the poll took
    something from the port, and added a query, what was read, and a
    sleep. *)
Lemma idle_loop_turn (fuel : nat) (t0 timeout_s poll_s : Q) (w w1 : world)
    (r : outcome unit) :
  idle_loop (S fuel) t0 timeout_s poll_s w = (r, w1) ->
  (exists (st : GrblStatus) (w0 : world),
      get_status w = (Ok st, w0)
      /\ ((state_is st "Idle" = true /\ r = Ok tt /\ w1 = w0)
          \/ (state_is st "Idle" = false /\ state_is st "Alarm" = true
              /\ r = Raise (ControllerAlarm (raw st)) /\ w1 = w0)
          \/ (state_is st "Idle" = false /\ state_is st "Alarm" = false
              /\ Qlt_bool timeout_s (now w0 - t0) = true
              /\ r = Raise (AwaitIdleTimeout (raw st)) /\ w1 = w0)
          \/ (state_is st "Idle" = false /\ state_is st "Alarm" = false
              /\ Qlt_bool timeout_s (now w0 - t0) = false
              /\ Qlt_bool poll_s 0 = true
              /\ r = Raise (ValueError "sleep length must be non-negative") /\ w1 = w0)
          \/ (state_is st "Idle" = false /\ state_is st "Alarm" = false
              /\ Qlt_bool timeout_s (now w0 - t0) = false
              /\ Qlt_bool poll_s 0 = false
              /\ idle_loop fuel t0 timeout_s poll_s
                   (mkWorld (now w0 + poll_s) (rx w0) (trace w0 ++ [TimeSleep poll_s])
                      (faulty w0)) = (r, w1))))
  \/ (get_status w = (Raise ReadTimeout, w1) /\ r = Raise ReadTimeout).
Proof.
  cbn [idle_loop]. unfold bind at 1.
  destruct (get_status w) as [[st|e|] w0] eqn:Hget; intros Hrun.
  - left. exists st, w0. split; [reflexivity|].
    destruct (state_is st "Idle"); [inversion Hrun; subst; auto|].
    destruct (state_is st "Alarm"); [inversion Hrun; subst; right; left; auto|].
    unfold bind at 1 in Hrun. unfold time_time in Hrun.
    destruct (Qlt_bool timeout_s (now w0 - t0));
      [inversion Hrun; subst; right; right; left; auto|].
    unfold time_sleep in Hrun.
    destruct (Qlt_bool poll_s 0);
      [inversion Hrun; subst; right; right; right; left; repeat split; reflexivity|].
    unfold bind at 1 in Hrun. right; right; right; right. auto.
  - right. inversion Hrun; subst.
    pose proof (get_status_inv _ _ _ Hget) as (_ & _ & Hraise & _).
    rewrite (Hraise e eq_refl) in *. auto.
  - pose proof (get_status_inv _ _ _ Hget) as (_ & Hfuel & _).
    contradiction Hfuel. reflexivity.
Qed.

Lemma idle_loop_total (t0 timeout_s poll_s : Q) :
  forall (fuel : nat) (w : world),
    (List.length (rx w) < fuel)%nat ->
    fst (idle_loop fuel t0 timeout_s poll_s w) <> OutOfFuel.
Proof.
  induction fuel as [|fuel IH]; intros w Hfuel; [lia|].
  destruct (idle_loop (S fuel) t0 timeout_s poll_s w) as [r w1] eqn:Hrun. cbn [fst].
  apply idle_loop_turn in Hrun
    as [(st & w0 & Hget & [H|[H|[H|[H|H]]]])|[_ Hr]].
  - destruct H as (_ & Hr & _). subst r. discriminate.
  - destruct H as (_ & _ & Hr & _). subst r. discriminate.
  - destruct H as (_ & _ & _ & Hr & _). subst r. discriminate.
  - destruct H as (_ & _ & _ & _ & Hr & _). subst r. discriminate.
  - destruct H as (_ & _ & _ & _ & Hnext).
    apply get_status_inv in Hget as (_ & _ & _ & evs & _ & _ & Hok).
    destruct (Hok st eq_refl) as [Hshort _].
    specialize (IH (mkWorld (now w0 + poll_s) (rx w0) (trace w0 ++ [TimeSleep poll_s])
                      (faulty w0))).
    rewrite Hnext in IH. apply IH. cbn [rx]. lia.
  - subst r. discriminate.
Qed.

Lemma wait_until_idle_total (timeout_s poll_s : Q) (w : world) :
  fst (wait_until_idle timeout_s poll_s w) <> OutOfFuel.
Proof.
  unfold wait_until_idle, bind, time_time, with_fuel.
  apply idle_loop_total. lia.
Qed.

Lemma state_is_Some (st : GrblStatus) (name : string) :
  state_is st name = true -> state st = Some name.
Proof.
  unfold state_is. destruct (state st) as [s|]; [|discriminate].
  intros H. apply String.eqb_eq in H. congruence.
Qed.

(** What the idle loop adds to the trace: polls, each followed by a
    sleep but the last; when it returns, the last thing read is a report
    of the Idle state. *)
Lemma idle_loop_trace (t0 timeout_s poll_s : Q) :
  forall (fuel : nat) (w w1 : world) (r : outcome unit),
    idle_loop fuel t0 timeout_s poll_s w = (r, w1) ->
    faulty w1 = faulty w
    /\ exists tr : list event,
         trace w1 = (trace w ++ tr)%list
         /\ Forall (poll_event poll_s) tr
         /\ forallb motion_link_event tr = true
         /\ (r = Ok tt ->
             exists (before_it : list event) (line : string),
               tr = (before_it ++ [SerialLine line])%list
               /\ state (parse_status line) = Some "Idle").
Proof.
  assert (Hreads : forall evs, Forall read_event evs ->
                     Forall (poll_event poll_s) evs
                     /\ forallb motion_link_event evs = true).
  { induction 1 as [|e evs He _ [IH1 IH2]]; [split; [constructor|reflexivity]|].
    destruct He as [He|[line He]]; subst e; split; try (constructor; [exact I|exact IH1]);
      exact IH2. }
  induction fuel as [|fuel IH]; intros w w1 r Hrun.
  - inversion Hrun; subst. split; [reflexivity|]. exists []. rewrite app_nil_r.
    split; [reflexivity|]. split; [constructor|]. split; [reflexivity|discriminate].
  - apply idle_loop_turn in Hrun
      as [(st & w0 & Hget & Hcases)|[Hget Hr]].
    + apply get_status_inv in Hget as (Hf & _ & _ & evs & Htr & Hevs & Hok).
      destruct (Hok st eq_refl) as (_ & before_it & line & Hlast & Hst).
      destruct (Hreads evs Hevs) as [Hpolls Hlinks].
      assert (Hquery : Forall (poll_event poll_s) (SerialWrite status_query :: evs))
        by (constructor; [reflexivity|exact Hpolls]).
      assert (Hstop : w1 = w0 ->
                faulty w1 = faulty w
                /\ exists tr : list event,
                     trace w1 = (trace w ++ tr)%list
                     /\ Forall (poll_event poll_s) tr
                     /\ forallb motion_link_event tr = true
                     /\ (state_is st "Idle" = true ->
                         exists (before_it : list event) (line : string),
                           tr = (before_it ++ [SerialLine line])%list
                           /\ state (parse_status line) = Some "Idle")).
      { intros Hw. subst w1. split; [exact Hf|].
        exists (SerialWrite status_query :: evs).
        split; [exact Htr|]. split; [exact Hquery|]. split; [exact Hlinks|].
        intros Hidle. exists (SerialWrite status_query :: before_it), line.
        split; [rewrite Hlast; reflexivity|].
        apply state_is_Some in Hidle. congruence. }
      destruct Hcases as [H|[H|[H|[H|H]]]].
      * destruct H as (Hidle & Hr & Hw). subst r.
        destruct (Hstop Hw) as (Hf1 & tr & Htr1 & Hp1 & Hl1 & Hidle1).
        split; [exact Hf1|]. exists tr. auto.
      * destruct H as (_ & _ & Hr & Hw). subst r.
        destruct (Hstop Hw) as (Hf1 & tr & Htr1 & Hp1 & Hl1 & _).
        split; [exact Hf1|]. exists tr. repeat split; auto. discriminate.
      * destruct H as (_ & _ & _ & Hr & Hw). subst r.
        destruct (Hstop Hw) as (Hf1 & tr & Htr1 & Hp1 & Hl1 & _).
        split; [exact Hf1|]. exists tr. repeat split; auto. discriminate.
      * destruct H as (_ & _ & _ & _ & Hr & Hw). subst r.
        destruct (Hstop Hw) as (Hf1 & tr & Htr1 & Hp1 & Hl1 & _).
        split; [exact Hf1|]. exists tr. repeat split; auto. discriminate.
      * destruct H as (_ & _ & _ & _ & Hnext).
        apply IH in Hnext as (Hf1 & tr & Htr1 & Hp1 & Hl1 & Hidle1).
        cbn [faulty trace] in Hf1, Htr1.
        split; [congruence|].
        exists ((SerialWrite status_query :: evs) ++ [TimeSleep poll_s] ++ tr)%list.
        split; [rewrite Htr1, Htr; repeat rewrite <- app_assoc; reflexivity|].
        split; [apply Forall_app; split; [exact Hquery|];
                constructor; [reflexivity|exact Hp1]|].
        split; [rewrite forallb_app; cbn [forallb motion_link_event andb app];
                rewrite Hlinks, Hl1; reflexivity|].
        intros Hr. destruct (Hidle1 Hr) as (b1 & l1 & Htr2 & Hst1).
        exists ((SerialWrite status_query :: evs) ++ [TimeSleep poll_s] ++ b1)%list, l1.
        split; [rewrite Htr2; repeat rewrite <- app_assoc; reflexivity|exact Hst1].
    + subst r. apply get_status_inv in Hget as (Hf & _ & _ & evs & Htr & Hevs & _).
      destruct (Hreads evs Hevs) as [Hpolls Hlinks].
      split; [exact Hf|]. exists (SerialWrite status_query :: evs).
      split; [exact Htr|]. split; [constructor; [reflexivity|exact Hpolls]|].
      split; [exact Hlinks|discriminate].
Qed.

Lemma wait_until_idle_Ok_saw_idle (timeout_s poll_s : Q) (w w1 : world) :
  wait_until_idle timeout_s poll_s w = (Ok tt, w1) ->
  exists (tr : list event) (line : string),
    trace w1 = (trace w ++ tr ++ [SerialLine line])%list
    /\ state (parse_status line) = Some "Idle"
    /\ faulty w1 = faulty w.
Proof.
  unfold wait_until_idle, bind, time_time, with_fuel. intros Hrun.
  apply idle_loop_trace in Hrun as (Hf & tr & Htr & _ & _ & Hidle).
  destruct (Hidle eq_refl) as (before_it & line & Hlast & Hst).
  exists before_it, line. subst tr. auto.
Qed.

Lemma wait_until_idle_events (timeout_s poll_s : Q) (w w1 : world) (r : outcome unit) :
  wait_until_idle timeout_s poll_s w = (r, w1) ->
  exists tr : list event,
    trace w1 = (trace w ++ tr)%list
    /\ forallb motion_link_event tr = true
    /\ faulty w1 = faulty w.
Proof.
  unfold wait_until_idle, bind, time_time, with_fuel. intros Hrun.
  apply idle_loop_trace in Hrun as (Hf & tr & Htr & _ & Hlinks & _).
  exists tr. auto.
Qed.

(** C4. [wait_until_idle] polls the status; between two polls it sleeps
    the poll interval.  After any run of polls, each answered within the
    two seconds that a read waits, that report neither Idle nor Alarm and
    that do not find the deadline passed: a poll that reports Idle makes
    it return, with no sleep after it (at once when it is the first poll);
    a poll that reports Alarm makes it raise the alarm with the raw
    report, whatever the clock says; a poll that reports anything else and
    finds the deadline passed makes it raise the idle-wait timeout with
    the raw report. *)
Theorem wait_until_idle_outcomes
    (timeout_s poll_s : Q) (w : world) (polls : list (Q * string))
    (dt : Q) (text : string) (rest : list rx_item) :
  Qlt_bool poll_s 0 = false ->
  rx w = (map deliver polls ++ Delivered dt text :: rest)%list ->
  Forall (fun p => neutral (snd p) = true) polls ->
  Forall (fun p => prompt 2 p = true) polls ->
  prompt 2 (dt, text) = true ->
  in_time (now w) timeout_s poll_s (now w) polls = true ->
  let st := parse_status (strip text) in
  let t := (clock_after poll_s (now w) polls + dt)%Q in
  let w' := mkWorld t rest
              (trace w ++ polls_events poll_s polls ++ poll_events text)%list
              (faulty w) in
  (state st = Some "Idle" ->
   wait_until_idle timeout_s poll_s w = (Ok tt, w'))
  /\ (state st = Some "Alarm" ->
      wait_until_idle timeout_s poll_s w = (Raise (ControllerAlarm (raw st)), w'))
  /\ (neutral text = true -> Qlt_bool timeout_s (t - now w) = true ->
      wait_until_idle timeout_s poll_s w = (Raise (AwaitIdleTimeout (raw st)), w')).
Proof.
  intros Hpoll Hrx Hneutral Hprompt Hlast Htime st t w'.
  assert (Hrun : wait_until_idle timeout_s poll_s w
                 = idle_loop (S (S (List.length rest))) (now w) timeout_s poll_s
                     (mkWorld (clock_after poll_s (now w) polls)
                        (Delivered dt text :: rest)
                        (trace w ++ polls_events poll_s polls) (faulty w))).
  { unfold wait_until_idle, bind, time_time, with_fuel.
    destruct w as [t1 items tr f]. cbn [now rx trace faulty] in *. subst items.
    rewrite idle_loop_skip;
      [|assumption|rewrite length_app, length_map; cbn [List.length]; lia
       |assumption|assumption|assumption].
    f_equal. rewrite length_app, length_map. cbn [List.length]. lia. }
  rewrite Hrun. cbn [idle_loop].
  rewrite (bind_step _ _ _ _ _ (get_status_delivered _ _ _ _ _ _ Hlast)).
  fold st. unfold state_is.
  assert (Hw : mkWorld (clock_after poll_s (now w) polls + dt) rest
                 ((trace w ++ polls_events poll_s polls) ++ poll_events text)
                 (faulty w) = w')
    by (unfold w', t; rewrite <- app_assoc; reflexivity).
  rewrite Hw.
  split; [|split].
  - intros Hst. rewrite Hst. reflexivity.
  - intros Hst. rewrite Hst. reflexivity.
  - intros Hn Hlate. apply neutral_states in Hn as [Hidle Halarm].
    fold st in Hidle, Halarm. unfold state_is in Hidle, Halarm.
    rewrite Hidle, Halarm.
    unfold bind, time_time. unfold w' at 1. cbn [now]. fold t.
    rewrite Hlate. reflexivity.
Qed.

Lemma wait_until_idle_outcomes_witness :
  wait_until_idle 180 (1 # 10)
    (mkWorld 5 [Delivered (1 # 100) "<Run|MPos:1.000>"; Delivered (1 # 100) idle_report]
       [] reliable)
  = (Ok tt,
     mkWorld (5 + (1 # 100) + (1 # 10) + (1 # 100)) []
       [SerialWrite ("?" ++ NL); SerialLine "<Run|MPos:1.000>"; TimeSleep (1 # 10);
        SerialWrite ("?" ++ NL); SerialLine idle_report] reliable).
Proof.
  refine (proj1 (wait_until_idle_outcomes 180 (1 # 10)
                   (mkWorld 5 [Delivered (1 # 100) "<Run|MPos:1.000>";
                               Delivered (1 # 100) idle_report] [] reliable)
                   [((1 # 100), "<Run|MPos:1.000>")] (1 # 100) idle_report []
                   _ _ _ _ _ _) _).
  - reflexivity.
  - reflexivity.
  - repeat constructor.
  - repeat constructor.
  - reflexivity.
  - reflexivity.
  - reflexivity.
Defined.

(* ================================================================== *)
(** * GcodeExecutor: begin and end of exposure *)
(* ================================================================== *)

(** A run of calls goes as far as the first call that fails. *)
Lemma calls_spec (es : list event) :
  forall w : world,
    let made evs := mkWorld (now w) (rx w) (trace w ++ evs) (faulty w) in
    ((forall k, step_fails w (trace w) es k = false) -> calls es w = (Ok tt, made es))
    /\ (forall n e,
          nth_error es n = Some e ->
          (forall k, (k < n)%nat -> step_fails w (trace w) es k = false) ->
          step_fails w (trace w) es n = true ->
          calls es w = (Raise (DeviceError e), made (firstn (S n) es))).
Proof.
  induction es as [|e0 es IH]; intros w made.
  - split.
    + intros _. unfold made. rewrite app_nil_r. destruct w. reflexivity.
    + intros [|n] e H; discriminate H.
  - set (w0 := mkWorld (now w) (rx w) (trace w ++ [e0]) (faulty w)).
    assert (Hshift : forall k, step_fails w0 (trace w0) es k
                               = step_fails w (trace w) (e0 :: es) (S k)).
    { intros k. unfold step_fails. cbn [nth_error firstn trace faulty w0].
      rewrite <- app_assoc. reflexivity. }
    assert (Hhead : step_fails w (trace w) (e0 :: es) 0 = faulty w (trace w) e0).
    { unfold step_fails. cbn [nth_error firstn]. rewrite app_nil_r. reflexivity. }
    destruct (IH w0) as [IHok IHraise].
    cbn [calls]. unfold bind, call. fold w0. rewrite <- Hhead. split.
    + intros Hall. rewrite (Hall 0%nat).
      cbn [fst snd]. rewrite IHok.
      * unfold made, w0. cbn [now rx trace faulty]. rewrite <- app_assoc. reflexivity.
      * intros k. rewrite Hshift. apply Hall.
    + intros [|n] e Hnth Hbefore Hfail.
      * rewrite Hfail. cbn [nth_error] in Hnth. injection Hnth as <-. reflexivity.
      * rewrite (Hbefore 0%nat ltac:(lia)).
        cbn [fst snd]. rewrite (IHraise n e).
        -- unfold made, w0. cbn [now rx trace faulty firstn].
           rewrite <- app_assoc. reflexivity.
        -- exact Hnth.
        -- intros k Hk. rewrite Hshift. apply Hbefore. lia.
        -- rewrite Hshift. exact Hfail.
Qed.

(** Begin-exposure, up to the test of the mode. *)
Lemma handle_m106_begin (self : GcodeExecutor) (w : world)
    (line text : string) (s_val : Q) :
  _RE_M106 line = Some text -> py_float text = Some s_val -> ge_1 s_val = true ->
  _handle_m106 line (self, w)
  = match current_image self with
    | None => (Raise NoImageSelected, (set_stats (inc_on (stats self)) self, w))
    | Some img =>
        if dry_run self then (Ok true, (set_stats (inc_on (stats self)) self, w))
        else
          ((on_world (wait_until_idle (idle_timeout_s self) (idle_poll_s self)) ;;
            on_world (calls (begin_steps self img))) ;;
           ret true) (set_stats (inc_on (stats self)) self, w)
    end.
Proof.
  intros Hre Hfloat Hge. unfold _handle_m106. rewrite Hre.
  unfold float_of_group. rewrite Hfloat.
  unfold bind at 1. unfold ret at 1. cbv beta iota. rewrite Hge.
  unfold bind at 1. unfold count, update. cbv beta iota.
  unfold bind at 1. unfold get_self. cbv beta iota.
  cbn [fst snd current_image dry_run set_stats idle_timeout_s idle_poll_s
       pre_exposure_black_delay_s].
  destruct (current_image self) as [img|]; [|reflexivity].
  destruct (dry_run self); [reflexivity|].
  cbn [negb]. unfold begin_steps.
  destruct (Qlt_bool 0 (pre_exposure_black_delay_s self));
    cbn [calls app]; unfold bind, on_world, call, ret; cbn [fst snd];
    destruct (wait_until_idle (idle_timeout_s self) (idle_poll_s self) w)
      as [[[]|e|] w1];
    cbn [fst snd now rx trace faulty]; try reflexivity;
    repeat match goal with
      | |- context [if faulty ?a ?b ?c then _ else _] =>
          destruct (faulty a b c); cbn [fst snd now rx trace faulty]
      end;
    reflexivity.
Qed.



(** C1. A begin-exposure line run live with an image selected first
    waits for the controller to be idle, and the wait returns or raises.
    When it raises, the error goes up and no call is made on the
    projector or the display.  When it returns, the last line read
    reported Idle, and the executor then calls, in this order, projector
    off, display black, the dark hold when the pre-exposure delay is
    positive, display show of the selected image, projector on, each one
    only when the one before returned: when none of them fails all are
    made and the line succeeds; otherwise the calls stop with the first
    that fails, whose error goes up. *)
Theorem begin_exposure_live_sequence
    (self : GcodeExecutor) (w : world) (line text img : string) (s_val : Q) :
  dry_run self = false -> current_image self = Some img ->
  _RE_M106 line = Some text -> py_float text = Some s_val -> ge_1 s_val = true ->
  let steps := begin_steps self img in
  let counted := set_stats (inc_on (stats self)) self in
  let r1 := fst (wait_until_idle (idle_timeout_s self) (idle_poll_s self) w) in
  let w1 := snd (wait_until_idle (idle_timeout_s self) (idle_poll_s self) w) in
  let made evs := mkWorld (now w1) (rx w1) (trace w1 ++ evs) (faulty w) in
  r1 <> OutOfFuel
  /\ (exists polled : list event,
        trace w1 = (trace w ++ polled)%list
        /\ forallb motion_link_event polled = true
        /\ (r1 = Ok tt ->
            exists (tr : list event) (report : string),
              polled = (tr ++ [SerialLine report])%list
              /\ state (parse_status report) = Some "Idle"))
  /\ (forall e, r1 = Raise e -> _handle_m106 line (self, w) = (Raise e, (counted, w1)))
  /\ (r1 = Ok tt ->
      (forall k, step_fails w (trace w1) steps k = false) ->
      _handle_m106 line (self, w) = (Ok true, (counted, made steps)))
  /\ (r1 = Ok tt ->
      forall (n : nat) (e : event),
        nth_error steps n = Some e ->
        (forall k, (k < n)%nat -> step_fails w (trace w1) steps k = false) ->
        step_fails w (trace w1) steps n = true ->
        _handle_m106 line (self, w)
        = (Raise (DeviceError e), (counted, made (firstn (S n) steps)))).
Proof.
  intros Hlive Himg Hre Hfloat Hge steps counted r1 w1 made.
  rewrite (handle_m106_begin self w line text s_val Hre Hfloat Hge), Himg, Hlive.
  fold counted.
  pose proof (wait_until_idle_total (idle_timeout_s self) (idle_poll_s self) w) as Htotal.
  fold r1 in Htotal.
  assert (Hwait : wait_until_idle (idle_timeout_s self) (idle_poll_s self) w = (r1, w1))
    by apply surjective_pairing.
  destruct (wait_until_idle_events _ _ _ _ _ Hwait) as (polled & Htr & Hall & Hf).
  split; [exact Htotal|]. split.
  { exists polled. split; [exact Htr|]. split; [exact Hall|].
    intros Hok. rewrite Hok in Hwait.
    destruct (wait_until_idle_Ok_saw_idle _ _ _ _ Hwait) as (tr & report & Htr' & Hst & _).
    exists tr, report. split; [|exact Hst].
    rewrite Htr in Htr'. apply app_inv_head in Htr'. exact Htr'. }
  assert (Hfails : forall k, step_fails w1 (trace w1) steps k
                             = step_fails w (trace w1) steps k).
  { intros k. unfold step_fails. rewrite Hf. reflexivity. }
  destruct (calls_spec steps w1) as [Hgood Hbad].
  rewrite Hf in Hgood, Hbad.
  unfold bind, on_world. cbn [fst snd]. rewrite Hwait.
  split; [|split].
  - intros e He. rewrite He. reflexivity.
  - intros Hok Hnone. rewrite Hok. cbn [fst snd]. fold steps. rewrite Hgood.
    + reflexivity.
    + intros k. rewrite Hfails. apply Hnone.
  - intros Hok n e Hnth Hbefore Hfail. rewrite Hok. cbn [fst snd]. fold steps.
    rewrite (Hbad n e Hnth).
    + reflexivity.
    + intros k Hk. rewrite Hfails. apply Hbefore. exact Hk.
    + rewrite Hfails. exact Hfail.
Qed.

Lemma begin_exposure_live_sequence_witness :
  let self := set_current_image (Some "/d/1.png")
                (new_executor "/d" false 180 (1 # 10) 30 1 3) in
  let w := mkWorld 0 [Delivered 0 idle_report] [] reliable in
  let steps := begin_steps self "/d/1.png" in
  let counted := set_stats (inc_on (stats self)) self in
  let r1 := fst (wait_until_idle (idle_timeout_s self) (idle_poll_s self) w) in
  let w1 := snd (wait_until_idle (idle_timeout_s self) (idle_poll_s self) w) in
  let made evs := mkWorld (now w1) (rx w1) (trace w1 ++ evs) (faulty w) in
  r1 <> OutOfFuel
  /\ (exists polled : list event,
        trace w1 = (trace w ++ polled)%list
        /\ forallb motion_link_event polled = true
        /\ (r1 = Ok tt ->
            exists (tr : list event) (report : string),
              polled = (tr ++ [SerialLine report])%list
              /\ state (parse_status report) = Some "Idle"))
  /\ (forall e, r1 = Raise e -> _handle_m106 "M106 S255" (self, w) = (Raise e, (counted, w1)))
  /\ (r1 = Ok tt ->
      (forall k, step_fails w (trace w1) steps k = false) ->
      _handle_m106 "M106 S255" (self, w) = (Ok true, (counted, made steps)))
  /\ (r1 = Ok tt ->
      forall (n : nat) (e : event),
        nth_error steps n = Some e ->
        (forall k, (k < n)%nat -> step_fails w (trace w1) steps k = false) ->
        step_fails w (trace w1) steps n = true ->
        _handle_m106 "M106 S255" (self, w)
        = (Raise (DeviceError e), (counted, made (firstn (S n) steps)))).
Proof.
  exact (begin_exposure_live_sequence
           (set_current_image (Some "/d/1.png")
              (new_executor "/d" false 180 (1 # 10) 30 1 3))
           (mkWorld 0 [Delivered 0 idle_report] [] reliable)
           "M106 S255" "255" "/d/1.png" 255 eq_refl eq_refl eq_refl eq_refl eq_refl).
Defined.

(** The trace of a whole layer, on a controller that is moving at the
    first poll. *)
Example layer_trace :
  run_file ["M6054 1"; "G1 Z5 F100 ; lift"; "M106 S255"; "G4 P1500"; "M106 S0"]
    (new_executor "/d" false 180 (1 # 10) 30 0 3,
     mkWorld 0 [Delivered 0 "ok"; Delivered 0 "<Run|MPos:0>"; Delivered 0 idle_report]
       [] reliable)
  = (Ok (mkRunStats 5 1 1 1 1 1),
     (mkExecutor "/d" false 180 (1 # 10) 30 0 false 3 (Some "/d/1.png")
        (mkRunStats 5 1 1 1 1 1),
      mkWorld (0 + 0 + 0 + (1 # 10) + 0) []
        [SerialWrite ("G1 Z5 F100" ++ NL); SerialLine "ok";
         SerialWrite ("?" ++ NL); SerialLine "<Run|MPos:0>"; TimeSleep (1 # 10);
         SerialWrite ("?" ++ NL); SerialLine idle_report;
         ProjectorOff; DisplayBlack; DisplaySleepWithPump 3;
         DisplayShow "/d/1.png"; ProjectorOn;
         DisplaySleepWithPump (3 # 2);
         ProjectorOff; DisplayBlack] reliable)).
Proof. reflexivity. Qed.

(** C2, on the code: a layer run live with a post-exposure delay of one
    second.  Begin-exposure goes through all its steps and leaves the flag
    false; the end-exposure line that follows calls projector off and
    display black and holds no dark delay. *)
Theorem end_exposure_after_begin_holds_no_delay :
  let self := new_executor "/d" false 180 (1 # 10) 30 1 3 in
  let w := mkWorld 0 [Delivered 0 idle_report] [] reliable in
  let begun := run_lines ["M6054 1"; "M106 S255"] (self, w) in
  let ended := _handle_m106 "M106 S0" (snd begun) in
  fst begun = Ok tt
  /\ trace (snd (snd begun))
     = [SerialWrite ("?" ++ NL); SerialLine idle_report;
        ProjectorOff; DisplayBlack; DisplaySleepWithPump 3;
        DisplayShow "/d/1.png"; ProjectorOn]
  /\ _exposure_active (fst (snd begun)) = false
  /\ Qlt_bool 0 (post_exposure_black_delay_s (fst (snd begun))) = true
  /\ fst ended = Ok true
  /\ trace (snd (snd ended))
     = (trace (snd (snd begun)) ++ [ProjectorOff; DisplayBlack])%list.
Proof.
  vm_compute. repeat split; reflexivity.
Qed.

(* ================================================================== *)
(** * GcodeExecutor: the life of the session state *)
(* ================================================================== *)

(** C9, as stated, fails: the image selected by one run is still
    selected at the start of the next run on the same executor, which
    therefore exposes where a fresh session raises. *)
Lemma run_file_keeps_selected_image :
  let self := new_executor "/d" true 180 (1 # 10) 30 1 3 in
  let w := mkWorld 0 [] [] reliable in
  let self1 := fst (snd (run_file ["M6054 7"] (self, w))) in
  current_image (run_begin self1) = Some "/d/7.png"
  /\ ~ session_fresh (run_begin self1)
  /\ fst (run_file ["M106 S255"] (self1, w)) = Ok (mkRunStats 1 0 0 1 0 0)
  /\ fst (run_file ["M106 S255"] (self, w)) = Raise NoImageSelected.
Proof.
  vm_compute. split; [reflexivity|]. split; [|split; reflexivity].
  intros (_ & Himg & _). discriminate Himg.
Qed.

(** C9, amended.  [run_file] starts by replacing the statistics with
    zeroed ones, and by nothing else: the counters of a previous run have
    no effect on a run, while the selected image and the exposure flag
    are those the executor had; they are unset and false in an executor
    just built, whose first run therefore starts from a fresh session. *)
Theorem run_file_resets_statistics_only
    (self : GcodeExecutor) (lines : list string) (w : world) :
  run_file lines (self, w)
  = (run_lines lines ;; self' <- get_self ;; ret (stats self')) (run_begin self, w)
  /\ stats (run_begin self) = RunStats0
  /\ current_image (run_begin self) = current_image self
  /\ _exposure_active (run_begin self) = _exposure_active self
  /\ (forall st : RunStats,
        run_file lines (set_stats st self, w) = run_file lines (self, w))
  /\ (forall (dir : string) (dry : bool) (timeout_s poll_s : Q) (hz : Z)
             (post pre : Q),
        session_fresh (run_begin (new_executor dir dry timeout_s poll_s hz post pre))).
Proof.
  repeat split; reflexivity.
Qed.

(* ================================================================== *)
(** * GcodeExecutor: one line of the program *)
(* ================================================================== *)

Lemma keeps_self_on_world {A} (m : M world A) : keeps_self (on_world m).
Proof.
  intros s s' r. unfold on_world. destruct (m (snd s)) as [r1 w1].
  intros H. inversion H. reflexivity.
Qed.

Lemma keeps_self_ret {A} (a : A) : keeps_self (ret a).
Proof. intros s s' r H. inversion H. reflexivity. Qed.

Lemma keeps_self_bind {A B} (m : X A) (k : A -> X B) :
  keeps_self m -> (forall a, keeps_self (k a)) -> keeps_self (bind m k).
Proof.
  intros Hm Hk s s' r. unfold bind. destruct (m s) as [[a|e|] s1] eqn:Hms;
    intros H.
  - apply Hk in H. apply Hm in Hms. congruence.
  - inversion H; subst. eapply Hm; eassumption.
  - inversion H; subst. eapply Hm; eassumption.
Qed.

Lemma keeps_self_if {A} (b : bool) (m1 m2 : X A) :
  keeps_self m1 -> keeps_self m2 -> keeps_self (if b then m1 else m2).
Proof. destruct b; auto. Qed.

Ltac keeps :=
  repeat match goal with
    | |- keeps_self (bind _ _) => apply keeps_self_bind
    | |- keeps_self (if _ then _ else _) => apply keeps_self_if
    | |- keeps_self (on_world _) => apply keeps_self_on_world
    | |- keeps_self (ret _) => apply keeps_self_ret
    | |- forall _, _ => intro
    end.

(** An Ok result of a block that keeps the executor. *)
Lemma then_true_Ok (m : X unit) (s s' : GcodeExecutor * world) (b : bool) :
  keeps_self m ->
  (m ;; ret true) s = (Ok b, s') -> b = true /\ fst s' = fst s.
Proof.
  intros Hm H. apply bind_Ok in H as (a & s1 & Hms & Hret).
  inversion Hret; subst. split; [reflexivity|]. eapply Hm; eassumption.
Qed.

Lemma then_true_not_false (m : X unit) (s s' : GcodeExecutor * world) :
  (m ;; ret true) s <> (Ok false, s').
Proof.
  unfold bind, ret. destruct (m s) as [[a|e|] s1]; intros H; discriminate H.
Qed.

(** The SelectImage handler. *)
Lemma handle_m6054_result (line : string) (s : GcodeExecutor * world) :
  _handle_m6054 line s
  = match _RE_M6054 line with
    | Some name => (Ok true, (after_op (SelectImage name) (fst s), snd s))
    | None => (Ok false, s)
    end.
Proof.
  unfold _handle_m6054. destruct (_RE_M6054 line) as [name|]; reflexivity.
Qed.

(** The SetExposure handler: what an Ok result tells. *)
Lemma handle_m106_Ok (line level : string) (s s' : GcodeExecutor * world) (b : bool) :
  _RE_M106 line = Some level ->
  _handle_m106 line s = (Ok b, s') ->
  b = true
  /\ fst s' = after_op (SetExposure level) (fst s)
  /\ op_ok (SetExposure level) (fst s) = true.
Proof.
  intros Hre. destruct s as [self w].
  cbn [after_op op_ok fst].
  destruct (py_float level) as [s_val|] eqn:Hfloat.
  - destruct (ge_1 s_val) eqn:Hge.
    + rewrite (handle_m106_begin self w line level s_val Hre Hfloat Hge).
      destruct (current_image self) as [img|]; [|discriminate].
      destruct (dry_run self).
      * intros H. inversion H; subst. auto.
      * intros H. apply then_true_Ok in H as [Hb Hs]; [auto|keeps].
    + unfold _handle_m106. rewrite Hre. unfold float_of_group. rewrite Hfloat.
      unfold bind at 1. unfold ret at 1. cbv beta iota. rewrite Hge.
      unfold bind at 1. unfold count, update. cbv beta iota.
      unfold bind at 1. unfold get_self. cbv beta iota.
      unfold bind at 1. cbv beta iota. cbn [fst snd].
      intros H. apply then_true_Ok in H as [Hb Hs]; [auto|keeps].
  - unfold _handle_m106. rewrite Hre. unfold float_of_group. rewrite Hfloat.
    intros H. discriminate H.
Qed.

(** No begin-exposure that goes through raises the exposure flag; no
    line does, then, and the flag of an executor stays as [__init__] set
    it. *)
Lemma begin_exposure_keeps_flag (line level : string) (s_val : Q)
    (s s' : GcodeExecutor * world) (b : bool) :
  _RE_M106 line = Some level -> py_float level = Some s_val -> ge_1 s_val = true ->
  _handle_m106 line s = (Ok b, s') ->
  _exposure_active (fst s') = _exposure_active (fst s).
Proof.
  intros Hre Hfloat Hge Hrun.
  apply (handle_m106_Ok _ _ _ _ _ Hre) in Hrun as (_ & Hs & _).
  rewrite Hs. cbn [after_op]. rewrite Hfloat, Hge. reflexivity.
Qed.

Lemma after_line_flag (raw : string) (self : GcodeExecutor) :
  _exposure_active self = false -> _exposure_active (after_line raw self) = false.
Proof.
  intros Hflag. unfold after_line.
  destruct (is_empty (_strip_comment raw)); [exact Hflag|].
  destruct (classify (_strip_comment raw)) as [name|level|ms|text]; cbn [after_op].
  - exact Hflag.
  - destruct (py_float level) as [v|]; [destruct (ge_1 v)|]; try exact Hflag.
    reflexivity.
  - exact Hflag.
  - cbn [dry_run set_stats]. destruct (dry_run self); exact Hflag.
Qed.

Lemma handle_m106_dry (line level : string) (self : GcodeExecutor) (w : world) :
  dry_run self = true ->
  _RE_M106 line = Some level ->
  op_ok (SetExposure level) self = true ->
  _handle_m106 line (self, w) = (Ok true, (after_op (SetExposure level) self, w)).
Proof.
  intros Hdry Hre. cbn [after_op op_ok].
  destruct (py_float level) as [s_val|] eqn:Hfloat; [|discriminate].
  destruct (ge_1 s_val) eqn:Hge.
  - rewrite (handle_m106_begin self w line level s_val Hre Hfloat Hge), Hdry.
    destruct (current_image self); [reflexivity|discriminate].
  - intros _. unfold _handle_m106. rewrite Hre. unfold float_of_group. rewrite Hfloat.
    unfold bind at 1. unfold ret at 1. cbv beta iota. rewrite Hge.
    unfold bind, count, update, get_self, ret. cbn [fst snd dry_run set_stats
      set_exposure_active]. rewrite Hdry. reflexivity.
Qed.

Lemma handle_m106_no_match (line : string) (s : GcodeExecutor * world) :
  _RE_M106 line = None -> _handle_m106 line s = (Ok false, s).
Proof. intros Hre. unfold _handle_m106. rewrite Hre. reflexivity. Qed.

(** The Dwell handler. *)
Lemma handle_g4_Ok (line ms : string) (s s' : GcodeExecutor * world) (b : bool) :
  _RE_G4P line = Some ms ->
  _handle_g4 line s = (Ok b, s') ->
  b = true
  /\ fst s' = after_op (Dwell ms) (fst s)
  /\ op_ok (Dwell ms) (fst s) = true.
Proof.
  intros Hre. unfold _handle_g4. rewrite Hre. unfold float_of_group.
  cbn [after_op op_ok]. destruct (py_float ms) as [v|]; [|discriminate].
  unfold bind at 1. unfold ret at 1. cbv beta iota.
  unfold bind at 1. unfold count, update. cbv beta iota.
  unfold bind at 1. unfold get_self. cbv beta iota. cbn [fst snd].
  intros H. apply then_true_Ok in H as [Hb Hs]; [auto|keeps].
Qed.

Lemma handle_g4_dry (line ms : string) (self : GcodeExecutor) (w : world) :
  dry_run self = true ->
  _RE_G4P line = Some ms ->
  op_ok (Dwell ms) self = true ->
  _handle_g4 line (self, w) = (Ok true, (after_op (Dwell ms) self, w)).
Proof.
  intros Hdry Hre. unfold _handle_g4. rewrite Hre. unfold float_of_group.
  cbn [after_op op_ok]. destruct (py_float ms) as [v|]; [|discriminate].
  intros _. unfold bind, count, update, get_self, ret.
  cbn [fst snd dry_run set_stats]. rewrite Hdry. reflexivity.
Qed.

Lemma handle_g4_no_match (line : string) (s : GcodeExecutor * world) :
  _RE_G4P line = None -> _handle_g4 line s = (Ok false, s).
Proof. intros Hre. unfold _handle_g4. rewrite Hre. reflexivity. Qed.

(** The fallback. *)
Lemma send_to_grbl_Ok (line : string) (s s' : GcodeExecutor * world) :
  _send_to_grbl line s = (Ok tt, s') ->
  fst s' = after_op (MotionCommand line) (fst s).
Proof.
  unfold _send_to_grbl. unfold bind at 1. unfold get_self. cbv beta iota.
  cbn [after_op]. destruct (dry_run (fst s)).
  - intros H. inversion H. reflexivity.
  - intros H. apply bind_Ok in H as (resp & s1 & Hsend & Hcount).
    apply keeps_self_on_world in Hsend. inversion Hcount; subst.
    cbn [fst]. rewrite Hsend. reflexivity.
Qed.

Lemma send_to_grbl_dry (line : string) (self : GcodeExecutor) (w : world) :
  dry_run self = true ->
  _send_to_grbl line (self, w) = (Ok tt, (after_op (MotionCommand line) self, w)).
Proof.
  intros Hdry. unfold _send_to_grbl, bind, get_self. cbn [fst after_op].
  rewrite Hdry. reflexivity.
Qed.

(** A line that goes through leaves the executor as [after_line] says,
    and is one the executor lets through. *)
Lemma run_line_Ok (raw : string) (s s' : GcodeExecutor * world) :
  run_line raw s = (Ok tt, s') ->
  fst s' = after_line raw (fst s) /\ line_ok raw (fst s) = true.
Proof.
  unfold run_line, after_line, line_ok.
  unfold bind at 1. unfold count, update. cbv beta iota.
  set (self1 := set_stats (inc_total (stats (fst s))) (fst s)).
  assert (Hok : forall op, op_ok op self1 = op_ok op (fst s)) by (intros []; reflexivity).
  destruct (is_empty (_strip_comment raw)).
  - intros H. inversion H. auto.
  - unfold classify. unfold bind at 1. rewrite handle_m6054_result.
    destruct (_RE_M6054 (_strip_comment raw)) as [name|]; cbv beta iota.
    + intros H. inversion H. auto.
    + destruct (_RE_M106 (_strip_comment raw)) as [level|] eqn:Hm106.
      * unfold bind. destruct (_handle_m106 _ _) as [[b| |] s1] eqn:Hh; try discriminate.
        apply (handle_m106_Ok _ _ _ _ _ Hm106) in Hh as (Hb & Hs & Hop). subst b.
        intros H. inversion H; subst. cbn [fst] in *. rewrite <- Hok. auto.
      * rewrite bind_step with (1 := handle_m106_no_match _ _ Hm106).
        destruct (_RE_G4P (_strip_comment raw)) as [ms|] eqn:Hg4.
        -- unfold bind. destruct (_handle_g4 _ _) as [[b| |] s1] eqn:Hh; try discriminate.
           apply (handle_g4_Ok _ _ _ _ _ Hg4) in Hh as (Hb & Hs & Hop). subst b.
           intros H. inversion H; subst. cbn [fst] in *. rewrite <- Hok. auto.
        -- rewrite bind_step with (1 := handle_g4_no_match _ _ Hg4).
           intros H. apply send_to_grbl_Ok in H. auto.
Qed.

(** In a dry run a line the executor lets through goes through, and
    touches nothing outside. *)
Lemma run_line_dry (raw : string) (self : GcodeExecutor) (w : world) :
  dry_run self = true -> line_ok raw self = true ->
  run_line raw (self, w) = (Ok tt, (after_line raw self, w)).
Proof.
  intros Hdry. unfold run_line, after_line, line_ok.
  unfold bind at 1. unfold count, update. cbv beta iota. cbn [fst snd].
  set (self1 := set_stats (inc_total (stats self)) self).
  assert (Hok : forall op, op_ok op self1 = op_ok op self) by (intros []; reflexivity).
  assert (Hdry1 : dry_run self1 = true) by exact Hdry.
  destruct (is_empty (_strip_comment raw)); [reflexivity|].
  unfold classify. unfold bind at 1. rewrite handle_m6054_result.
  destruct (_RE_M6054 (_strip_comment raw)) as [name|]; cbv beta iota; [reflexivity|].
  destruct (_RE_M106 (_strip_comment raw)) as [level|] eqn:Hm106.
  - intros Hop. rewrite <- Hok in Hop.
    rewrite bind_step with (1 := handle_m106_dry _ _ _ _ Hdry1 Hm106 Hop). reflexivity.
  - rewrite bind_step with (1 := handle_m106_no_match _ _ Hm106).
    destruct (_RE_G4P (_strip_comment raw)) as [ms|] eqn:Hg4.
    + intros Hop. rewrite <- Hok in Hop.
      rewrite bind_step with (1 := handle_g4_dry _ _ _ _ Hdry1 Hg4 Hop). reflexivity.
    + rewrite bind_step with (1 := handle_g4_no_match _ _ Hg4).
      intros _. apply send_to_grbl_dry. assumption.
Qed.

(* ================================================================== *)
(** * GcodeExecutor: the counters of a run *)
(* ================================================================== *)

Local Open Scope Z_scope.

Lemma how_many_cons (kind : Operation -> bool) (raw : string) (lines : list string) :
  how_many kind (raw :: lines) = one kind raw + how_many kind lines.
Proof.
  unfold how_many, non_blank, one. cbn [map filter].
  destruct (is_empty (_strip_comment raw)); cbn [negb map filter]; [lia|].
  destruct (kind (classify (_strip_comment raw))); cbn [List.length]; lia.
Qed.

Lemma non_blank_cons (raw : string) (lines : list string) :
  Z.of_nat (List.length (non_blank (raw :: lines)))
  = (if is_empty (_strip_comment raw) then 0 else 1)
    + Z.of_nat (List.length (non_blank lines)).
Proof.
  unfold non_blank. cbn [map filter].
  destruct (is_empty (_strip_comment raw)); cbn [negb List.length]; lia.
Qed.

(** Each non-blank line is of one kind, and of one only. *)
Lemma kinds_partition (lines : list string) :
  how_many is_select lines + how_many is_exposure lines
  + how_many is_dwell lines + how_many is_motion lines
  = Z.of_nat (List.length (non_blank lines)).
Proof.
  induction lines as [|raw lines IH]; [reflexivity|].
  rewrite !how_many_cons, non_blank_cons. unfold one.
  destruct (is_empty (_strip_comment raw)); [lia|].
  destruct (classify (_strip_comment raw)); cbn [is_select is_exposure is_dwell is_motion];
    lia.
Qed.

Lemma after_line_stats (raw : string) (self : GcodeExecutor) :
  line_ok raw self = true ->
  let s := stats self in
  let s' := stats (after_line raw self) in
  gcode_lines_total s' = gcode_lines_total s + 1
  /\ image_select_count s' = image_select_count s + one is_select raw
  /\ exposure_on_count s' + exposure_off_count s'
     = exposure_on_count s + exposure_off_count s + one is_exposure raw
  /\ dwell_count s' = dwell_count s + one is_dwell raw
  /\ gcode_lines_sent_grbl s'
     = gcode_lines_sent_grbl s + (if dry_run self then 0 else one is_motion raw)
  /\ dry_run (after_line raw self) = dry_run self.
Proof.
  unfold line_ok, after_line, one.
  destruct (is_empty (_strip_comment raw)).
  - intros _. cbn. destruct (dry_run self); repeat split; lia.
  - destruct (classify (_strip_comment raw)) as [name|level|ms|text];
      cbn [op_ok after_op is_select is_exposure is_dwell is_motion].
    + intros _. cbn. destruct (dry_run self); repeat split; lia.
    + destruct (py_float level) as [v|]; [|discriminate].
      intros _. destruct (ge_1 v); cbn; destruct (dry_run self); repeat split; lia.
    + intros _. cbn. destruct (dry_run self); repeat split; lia.
    + intros _. cbn [dry_run set_stats]. destruct (dry_run self) eqn:Hdry;
        cbn; rewrite ?Hdry; repeat split; lia.
Qed.

Lemma run_lines_Ok_counts :
  forall (lines : list string) (s s' : GcodeExecutor * world),
    run_lines lines s = (Ok tt, s') ->
    let a := stats (fst s) in
    let b := stats (fst s') in
    gcode_lines_total b = gcode_lines_total a + Z.of_nat (List.length lines)
    /\ image_select_count b = image_select_count a + how_many is_select lines
    /\ exposure_on_count b + exposure_off_count b
       = exposure_on_count a + exposure_off_count a + how_many is_exposure lines
    /\ dwell_count b = dwell_count a + how_many is_dwell lines
    /\ gcode_lines_sent_grbl b
       = gcode_lines_sent_grbl a
         + (if dry_run (fst s) then 0 else how_many is_motion lines)
    /\ dry_run (fst s') = dry_run (fst s).
Proof.
  induction lines as [|raw lines IH]; intros s s' Hrun.
  - inversion Hrun; subst. cbn. destruct (dry_run (fst s')); repeat split; lia.
  - cbn [run_lines] in Hrun. apply bind_Ok in Hrun as ([] & s1 & Hline & Hrest).
    apply run_line_Ok in Hline as [Hs1 Hok].
    apply IH in Hrest. cbv zeta in Hrest.
    destruct Hrest as (Ht & Hi & He & Hd & Hs & Hdry).
    pose proof (after_line_stats raw (fst s) Hok) as Hstep. cbv zeta in Hstep.
    rewrite <- Hs1 in Hstep.
    destruct Hstep as (Ht1 & Hi1 & He1 & Hd1 & Hsent1 & Hdry1).
    cbv zeta. rewrite !how_many_cons. rewrite Hdry1 in Hs.
    cbn [List.length]. destruct (dry_run (fst s)); repeat split; try lia; congruence.
Qed.

Lemma lit_ci_m6054_m106 (line : string) :
  lit_ci "m6054" line <> None -> lit_ci "m106" line = None.
Proof.
  destruct line as [|c1 [|c2 r]]; cbn [lit_ci]; try reflexivity.
  - destruct (Ascii.eqb "m" (lower_char c1)); reflexivity.
  - destruct (Ascii.eqb "m" (lower_char c1)); [|reflexivity].
    destruct (Ascii.eqb "6" (lower_char c2)) eqn:H6; [|intros H; congruence].
    destruct (Ascii.eqb "1" (lower_char c2)) eqn:H1; [|reflexivity].
    apply Ascii.eqb_eq in H6, H1. congruence.
Qed.

Lemma lit_ci_m_g (p q line : string) :
  lit_ci (String "m" p) line <> None -> lit_ci (String "g" q) line = None.
Proof.
  destruct line as [|c1 r]; cbn [lit_ci]; [reflexivity|].
  destruct (Ascii.eqb "m" (lower_char c1)) eqn:Hm; [|intros H; congruence].
  destruct (Ascii.eqb "g" (lower_char c1)) eqn:Hg; [|reflexivity].
  apply Ascii.eqb_eq in Hm, Hg. congruence.
Qed.

Lemma run_lines_flag :
  forall (lines : list string) (s s' : GcodeExecutor * world),
    run_lines lines s = (Ok tt, s') ->
    _exposure_active (fst s) = false -> _exposure_active (fst s') = false.
Proof.
  induction lines as [|raw lines IH]; intros s s' Hrun Hflag.
  - inversion Hrun; subst. exact Hflag.
  - cbn [run_lines] in Hrun. apply bind_Ok in Hrun as ([] & s1 & Hline & Hrest).
    apply run_line_Ok in Hline as [Hs1 _].
    apply (IH _ _ Hrest). rewrite Hs1. apply after_line_flag. exact Hflag.
Qed.

(** No line matches two of the three patterns. *)
Lemma patterns_exclusive (line : string) :
  (_RE_M6054 line <> None -> _RE_M106 line = None /\ _RE_G4P line = None)
  /\ (_RE_M106 line <> None -> _RE_G4P line = None).
Proof.
  unfold _RE_M6054, _RE_M106, _RE_G4P, re_op_number. split.
  - intros H.
    assert (Hlit : lit_ci "m6054" line <> None)
      by (destruct (lit_ci "m6054" line); congruence).
    rewrite (lit_ci_m6054_m106 line Hlit), (lit_ci_m_g _ "4" line Hlit). auto.
  - intros H.
    assert (Hlit : lit_ci "m106" line <> None)
      by (destruct (lit_ci "m106" line); congruence).
    rewrite (lit_ci_m_g _ "4" line Hlit). reflexivity.
Qed.

Lemma run_file_Ok (lines : list string) (s s' : GcodeExecutor * world) (st : RunStats) :
  run_file lines s = (Ok st, s') ->
  run_lines lines (run_begin (fst s), snd s) = (Ok tt, s') /\ st = stats (fst s').
Proof.
  unfold run_file. unfold bind at 1. unfold update. cbv beta iota.
  intros H. apply bind_Ok in H as ([] & s1 & Hlines & Hret).
  inversion Hret; subst. auto.
Qed.

Lemma run_file_counts
    (lines : list string) (self : GcodeExecutor) (w : world)
    (st : RunStats) (s' : GcodeExecutor * world) :
  run_file lines (self, w) = (Ok st, s') ->
  gcode_lines_total st = Z.of_nat (List.length lines)
  /\ image_select_count st = how_many is_select lines
  /\ exposure_on_count st + exposure_off_count st = how_many is_exposure lines
  /\ dwell_count st = how_many is_dwell lines
  /\ gcode_lines_sent_grbl st
     = (if dry_run self then 0 else how_many is_motion lines).
Proof.
  intros Hrun. apply run_file_Ok in Hrun as [Hlines Hst]. cbn [fst snd] in Hlines.
  apply run_lines_Ok_counts in Hlines. cbv zeta in Hlines.
  cbn [fst run_begin set_stats stats dry_run RunStats0 gcode_lines_total
       gcode_lines_sent_grbl dwell_count exposure_on_count exposure_off_count
       image_select_count] in Hlines.
  destruct Hlines as (Ht & Hi & He & Hd & Hs & _). subst st.
  repeat split; lia.
Qed.

(** C7, as stated, fails: a dry run goes through a program of motion
    commands without error and counts none of them as forwarded. *)
Lemma dry_run_counts_no_forwarded_line :
  let self := new_executor "/d" true 180 (1 # 10) 30 1 3 in
  let w := mkWorld 0 [] [] reliable in
  let lines := ["G21"; "G1 Z5 F100 ; lift"] in
  exists st : RunStats,
    fst (run_file lines (self, w)) = Ok st
    /\ dispatched st = 0
    /\ Z.of_nat (List.length (non_blank lines)) = 2
    /\ dispatched st <> Z.of_nat (List.length (non_blank lines)).
Proof.
  cbv zeta. exists (mkRunStats 2 0 0 0 0 0). vm_compute.
  repeat split; try reflexivity. discriminate.
Qed.

(** C7, amended.  After a run that went through, each non-blank line
    has been counted once, under the first pattern it matches in the
    order select, exposure, dwell, with the motion command as fallback;
    no line matches two patterns.  The counters of select, exposure (on
    and off together) and dwell are the numbers of lines of these kinds in
    either mode.  The forwarded-line counter is the number of motion
    commands in a live run, so that the five counters add up to the number
    of non-blank lines; in a dry run it stays at zero, and the other four
    add up to the number of non-blank lines that are not motion
    commands. *)
Theorem counters_account_for_lines
    (lines : list string) (self : GcodeExecutor) (w : world)
    (st : RunStats) (s' : GcodeExecutor * world) :
  run_file lines (self, w) = (Ok st, s') ->
  gcode_lines_total st = Z.of_nat (List.length lines)
  /\ image_select_count st = how_many is_select lines
  /\ exposure_on_count st + exposure_off_count st = how_many is_exposure lines
  /\ dwell_count st = how_many is_dwell lines
  /\ gcode_lines_sent_grbl st
     = (if dry_run self then 0 else how_many is_motion lines)
  /\ dispatched st + (if dry_run self then how_many is_motion lines else 0)
     = Z.of_nat (List.length (non_blank lines))
  /\ (forall line : string,
        (_RE_M6054 line <> None -> _RE_M106 line = None /\ _RE_G4P line = None)
        /\ (_RE_M106 line <> None -> _RE_G4P line = None)).
Proof.
  intros Hrun. apply run_file_counts in Hrun as (Ht & Hi & He & Hd & Hs).
  pose proof (kinds_partition lines) as Hsum. unfold dispatched.
  do 6 (split; [destruct (dry_run self); lia|]).
  exact patterns_exclusive.
Qed.

Lemma counters_account_for_lines_witness :
  let lines := ["M6054 1"; "G1 Z5 F100 ; lift"; ""; "M106 S255"; "G4 P1500"; "M106 S0"] in
  let s := (new_executor "/d" false 180 (1 # 10) 30 1 3,
            mkWorld 0 [Delivered 0 "ok"; Delivered 0 idle_report] [] reliable) in
  let st := mkRunStats 6 1 1 1 1 1 in
  fst (run_file lines s) = Ok st
  /\ dispatched st + 0 = Z.of_nat (List.length (non_blank lines)).
Proof.
  cbv zeta. split; [vm_compute; reflexivity|].
  refine (proj1 (proj2 (proj2 (proj2 (proj2 (proj2
    (counters_account_for_lines
       ["M6054 1"; "G1 Z5 F100 ; lift"; ""; "M106 S255"; "G4 P1500"; "M106 S0"]
       (new_executor "/d" false 180 (1 # 10) 30 1 3)
       (mkWorld 0 [Delivered 0 "ok"; Delivered 0 idle_report] [] reliable)
       (mkRunStats 6 1 1 1 1 1) _ _))))))).
  vm_compute. reflexivity.
Defined.

(* ================================================================== *)
(** * GcodeExecutor: dry run against live run *)
(* ================================================================== *)

Lemma line_ok_twin (k : Z) (raw : string) (self : GcodeExecutor) :
  line_ok raw (dry_twin k self) = line_ok raw self.
Proof.
  unfold line_ok. destruct (is_empty (_strip_comment raw)); [reflexivity|].
  destruct (classify (_strip_comment raw)); reflexivity.
Qed.

Lemma after_line_twin (k : Z) (raw : string) (self : GcodeExecutor) :
  after_line raw (dry_twin k self) = dry_twin k (after_line raw self).
Proof.
  unfold after_line. destruct (is_empty (_strip_comment raw)); [reflexivity|].
  destruct (classify (_strip_comment raw)) as [name|level|ms|text]; cbn [after_op].
  - reflexivity.
  - destruct (py_float level) as [v|]; [destruct (ge_1 v)|]; reflexivity.
  - reflexivity.
  - cbn [dry_run dry_twin set_dry_run set_stats]. destruct (dry_run self); reflexivity.
Qed.

(** A program that goes through live goes through dry, on any world and
    without touching it; the two executors stay twins. *)
Lemma run_lines_twin (k : Z) (wd : world) :
  forall (lines : list string) (s s' : GcodeExecutor * world),
    run_lines lines s = (Ok tt, s') ->
    run_lines lines (dry_twin k (fst s), wd) = (Ok tt, (dry_twin k (fst s'), wd)).
Proof.
  induction lines as [|raw lines IH]; intros s s' Hrun.
  - inversion Hrun; subst. reflexivity.
  - cbn [run_lines] in *. apply bind_Ok in Hrun as ([] & s1 & Hline & Hrest).
    apply run_line_Ok in Hline as [Hs1 Hok].
    rewrite bind_step with (a := tt) (s1 := (dry_twin k (fst s1), wd)).
    + apply IH with (s := s1). assumption.
    + rewrite Hs1, <- after_line_twin. apply run_line_dry; [reflexivity|].
      rewrite line_ok_twin. assumption.
Qed.

(** C3, as stated, fails: one motion command, acknowledged by the
    controller, is counted as forwarded by the live run and not by the
    dry run. *)
Lemma dry_run_differs_on_forwarded_counter :
  let live := new_executor "/d" false 180 (1 # 10) 30 1 3 in
  let dry := new_executor "/d" true 180 (1 # 10) 30 1 3 in
  let w := mkWorld 0 [Delivered 0 "ok"] [] reliable in
  fst (run_file ["G21"] (live, w)) = Ok (mkRunStats 1 1 0 0 0 0)
  /\ fst (run_file ["G21"] (dry, w)) = Ok (mkRunStats 1 0 0 0 0 0)
  /\ fst (run_file ["G21"] (live, w)) <> fst (run_file ["G21"] (dry, w)).
Proof.
  vm_compute. repeat split; try reflexivity. discriminate.
Qed.

(** C3, amended.  When the live run of a program goes through, the dry
    run of the same program on the same executor goes through too, makes
    no call on the controller, the projector or the display, and returns
    the same statistics in every counter but the forwarded-line counter:
    the live run counts the motion commands there, the dry run leaves it
    at zero. *)
Theorem dry_run_matches_live_but_for_forwarded
    (lines : list string) (self : GcodeExecutor) (w wd : world)
    (st : RunStats) (s' : GcodeExecutor * world) :
  run_file lines (set_dry_run false self, w) = (Ok st, s') ->
  let st_dry := set_sent 0 st in
  run_file lines (set_dry_run true self, wd) = (Ok st_dry, (dry_twin 0 (fst s'), wd))
  /\ gcode_lines_total st_dry = gcode_lines_total st
  /\ dwell_count st_dry = dwell_count st
  /\ exposure_on_count st_dry = exposure_on_count st
  /\ exposure_off_count st_dry = exposure_off_count st
  /\ image_select_count st_dry = image_select_count st
  /\ gcode_lines_sent_grbl st_dry = 0
  /\ gcode_lines_sent_grbl st = how_many is_motion lines.
Proof.
  intros Hrun st_dry.
  pose proof (run_file_counts _ _ _ _ _ Hrun) as (_ & _ & _ & _ & Hsent).
  cbn [dry_run set_dry_run] in Hsent.
  apply run_file_Ok in Hrun as [Hlines Hst]. cbn [fst snd] in Hlines.
  apply (run_lines_twin 0 wd) in Hlines. cbn [fst] in Hlines.
  split; [|repeat split; assumption].
  unfold run_file. unfold bind at 1. unfold update. cbv beta iota. cbn [fst snd].
  change (run_begin (set_dry_run true self))
    with (dry_twin 0 (run_begin (set_dry_run false self))).
  rewrite bind_step with (1 := Hlines).
  unfold bind, get_self, ret. cbn [fst]. subst st_dry st. reflexivity.
Qed.

Lemma dry_run_matches_live_but_for_forwarded_witness :
  let lines := ["M6054 1"; "G1 Z5 F100 ; lift"; "M106 S255"; "G4 P1500"; "M106 S0"] in
  let self := new_executor "/d" false 180 (1 # 10) 30 1 3 in
  let w := mkWorld 0 [Delivered 0 "ok"; Delivered 0 idle_report] [] reliable in
  let wd := mkWorld 0 [] [] reliable in
  fst (run_file lines (set_dry_run false self, w)) = Ok (mkRunStats 5 1 1 1 1 1)
  /\ fst (run_file lines (set_dry_run true self, wd)) = Ok (mkRunStats 5 0 1 1 1 1)
  /\ snd (snd (run_file lines (set_dry_run true self, wd))) = wd.
Proof.
  cbv zeta. split; [vm_compute; reflexivity|].
  pose proof (dry_run_matches_live_but_for_forwarded
    ["M6054 1"; "G1 Z5 F100 ; lift"; "M106 S255"; "G4 P1500"; "M106 S0"]
    (new_executor "/d" false 180 (1 # 10) 30 1 3)
    (mkWorld 0 [Delivered 0 "ok"; Delivered 0 idle_report] [] reliable)
    (mkWorld 0 [] [] reliable)
    (mkRunStats 5 1 1 1 1 1)
    (snd (run_file
            ["M6054 1"; "G1 Z5 F100 ; lift"; "M106 S255"; "G4 P1500"; "M106 S0"]
            (set_dry_run false (new_executor "/d" false 180 (1 # 10) 30 1 3),
             mkWorld 0 [Delivered 0 "ok"; Delivered 0 idle_report] [] reliable)))
    ltac:(vm_compute; reflexivity)) as [Hdry _].
  rewrite Hdry. split; reflexivity.
Defined.

(* ================================================================== *)
(** * Every method returns or raises *)
(* ================================================================== *)

Lemma terminates_ret {S A} (a : A) : terminates (@ret S A a).
Proof. intros s. discriminate. Qed.

Lemma terminates_raise {S A} (e : exn) : terminates (@raise S A e).
Proof. intros s. discriminate. Qed.

Lemma terminates_bind {S A B} (m : M S A) (k : A -> M S B) :
  terminates m -> (forall a, terminates (k a)) -> terminates (bind m k).
Proof.
  intros Hm Hk s. unfold bind. specialize (Hm s).
  destruct (m s) as [[a|e|] s1]; cbn [fst] in *.
  - apply Hk.
  - discriminate.
  - congruence.
Qed.

Lemma terminates_if {S A} (b : bool) (m1 m2 : M S A) :
  terminates m1 -> terminates m2 -> terminates (if b then m1 else m2).
Proof. destruct b; auto. Qed.

Lemma terminates_on_world {A} (m : M world A) :
  terminates m -> terminates (on_world m).
Proof.
  intros Hm s. unfold on_world. specialize (Hm (snd s)).
  destruct (m (snd s)) as [r w1]. exact Hm.
Qed.

Lemma terminates_call (e : event) : terminates (call e).
Proof. intros w. unfold call. destruct (faulty w (trace w) e); discriminate. Qed.

Lemma terminates_count (inc : RunStats -> RunStats) : terminates (count inc).
Proof. intros s. discriminate. Qed.

Lemma terminates_update (f : GcodeExecutor -> GcodeExecutor) : terminates (update f).
Proof. intros s. discriminate. Qed.

Lemma terminates_get_self : terminates get_self.
Proof. intros s. discriminate. Qed.

Lemma terminates_float (text : string) : terminates (float_of_group text).
Proof. intros s. unfold float_of_group. destruct (py_float text); discriminate. Qed.

Lemma terminates_wait (timeout_s poll_s : Q) : terminates (wait_until_idle timeout_s poll_s).
Proof. intros w. apply wait_until_idle_total. Qed.

Lemma terminates_send (line : string) : terminates (send_line_wait_ok line).
Proof. intros w. apply send_line_wait_ok_total. Qed.

(* ================================================================== *)
(** * GrblClient: what an outcome tells *)
(* ================================================================== *)

Local Close Scope Z_scope.

Lemma informational_empty (p : Q * string) :
  snd p = EmptyString -> informational (snd p) = true.
Proof. intros H. rewrite H. reflexivity. Qed.

Lemma ack_loop_Ok (clean : string) :
  forall (fuel : nat) (w w' : world) (resp : string),
    ack_loop fuel clean w = (Ok resp, w') ->
    exists (infos : list (Q * string)) (dt : Q) (text : string),
      rx w = (map deliver infos ++ Delivered dt text :: rx w')%list
      /\ Forall (fun p => informational (snd p) = true) infos
      /\ resp = strip text
      /\ lower resp = "ok"
      /\ trace w' = (trace w ++ read_events infos ++ [SerialLine resp])%list
      /\ faulty w' = faulty w.
Proof.
  induction fuel as [|fuel IH]; intros w w' resp Hrun; [discriminate|].
  cbn [ack_loop] in Hrun. unfold bind at 1 in Hrun.
  destruct (_readline 10 w) as [[line|e|] w1] eqn:Hread; try discriminate.
  apply readline_inv in Hread as (Hf & _ & _ & evs & Htr & _ & Hline).
  destruct (Hline line eq_refl) as (skipped & dt & text & Hrx & Hskip & _ & Hl & Hevs).
  assert (Hskipped : Forall (fun p => informational (snd p) = true) skipped).
  { eapply Forall_impl; [|exact Hskip]. intros p Hp. apply informational_empty, Hp. }
  destruct (lower line =? "ok") eqn:Hok.
  - inversion Hrun; subst. apply String.eqb_eq in Hok.
    exists skipped, dt, text. repeat split; auto.
  - destruct (startswith "error" (lower line) || startswith "alarm" (lower line)) eqn:Hrej;
      [discriminate|].
    apply IH in Hrun as (infos & dt' & text' & Hrx' & Hinfo & Hresp & Hack & Htr' & Hf').
    exists (skipped ++ (dt, text) :: infos)%list, dt', text'.
    split; [rewrite Hrx, Hrx', map_app, <- app_assoc; reflexivity|].
    split.
    { apply Forall_app. split; [exact Hskipped|]. constructor; [|exact Hinfo].
      cbn [snd]. unfold informational, rejection. rewrite <- Hl, Hok, Hrej. reflexivity. }
    split; [exact Hresp|]. split; [exact Hack|]. split; [|congruence].
    rewrite Htr', Htr, Hevs. unfold read_events. rewrite map_app. cbn [map snd].
    rewrite <- Hl. repeat rewrite <- app_assoc. reflexivity.
Qed.

(** X1. [send_line_wait_ok] reports success on an acknowledgement only:
    when it returns for a command that is not blank, the text returned
    reads ok in lower case, it is the last line taken from the port, the
    lines taken before it were informational, and the command was written
    once, before any of them was read. *)
Theorem send_line_wait_ok_returns_on_ack_only
    (line : string) (w w' : world) (resp : string) :
  strip line <> EmptyString ->
  send_line_wait_ok line w = (Ok resp, w') ->
  lower resp = "ok"
  /\ exists (infos : list (Q * string)) (dt : Q) (text : string),
       rx w = (map deliver infos ++ Delivered dt text :: rx w')%list
       /\ Forall (fun p => informational (snd p) = true) infos
       /\ resp = strip text
       /\ trace w' = (trace w ++ [SerialWrite (strip line ++ NL)]
                        ++ read_events infos ++ [SerialLine resp])%list.
Proof.
  intros Hclean Hrun. unfold send_line_wait_ok in Hrun.
  apply is_empty_false in Hclean. rewrite Hclean in Hrun.
  unfold bind at 1 in Hrun. unfold write_line, emit in Hrun. cbv beta iota in Hrun.
  unfold with_fuel in Hrun. rewrite strip_idempotent in Hrun.
  apply ack_loop_Ok in Hrun as (infos & dt & text & Hrx & Hinfo & Hresp & Hack & Htr & _).
  cbn [rx trace] in *. split; [assumption|].
  exists infos, dt, text. repeat split; auto.
  rewrite Htr. rewrite <- app_assoc. reflexivity.
Qed.

Lemma send_line_wait_ok_returns_on_ack_only_witness :
  lower "Ok" = "ok"
  /\ exists (infos : list (Q * string)) (dt : Q) (text : string),
       [Delivered 0 "[MSG:Pgm End]"; Delivered (1 # 2) " Ok "; Delivered 0 "later"]
       = (map deliver infos ++ Delivered dt text :: [Delivered 0 "later"])%list
       /\ Forall (fun p => informational (snd p) = true) infos
       /\ "Ok" = strip text
       /\ [SerialWrite ("M2" ++ NL); SerialLine "[MSG:Pgm End]"; SerialLine "Ok"]
          = ([] ++ [SerialWrite (strip " M2 " ++ NL)]
               ++ read_events infos ++ [SerialLine "Ok"])%list.
Proof.
  refine (send_line_wait_ok_returns_on_ack_only " M2 "
            (mkWorld 0 [Delivered 0 "[MSG:Pgm End]"; Delivered (1 # 2) " Ok ";
                        Delivered 0 "later"] [] reliable)
            (mkWorld (0 + 0 + (1 # 2)) [Delivered 0 "later"]
               [SerialWrite ("M2" ++ NL); SerialLine "[MSG:Pgm End]"; SerialLine "Ok"]
               reliable)
            "Ok" _ _).
  - vm_compute. discriminate.
  - reflexivity.
Defined.



(** X3. Whatever its outcome, [wait_until_idle] puts nothing on the wire
    but status queries, and sleeps nothing but the poll interval; it
    returns or raises (the loop does not go on for ever on a controller
    that has stopped talking); and when it returns, the last thing it did
    was to read a report whose state is Idle. *)
Theorem wait_until_idle_only_polls
    (timeout_s poll_s : Q) (w w' : world) (r : outcome unit) :
  wait_until_idle timeout_s poll_s w = (r, w') ->
  r <> OutOfFuel
  /\ exists tr : list event,
       trace w' = (trace w ++ tr)%list
       /\ Forall (poll_event poll_s) tr
       /\ (r = Ok tt ->
           exists (before_it : list event) (report : string),
             tr = (before_it ++ [SerialLine report])%list
             /\ state (parse_status report) = Some "Idle").
Proof.
  intros Hrun. split.
  - pose proof (wait_until_idle_total timeout_s poll_s w) as Htotal.
    rewrite Hrun in Htotal. exact Htotal.
  - unfold wait_until_idle, bind, time_time, with_fuel in Hrun.
    apply idle_loop_trace in Hrun as (_ & tr & Htr & Hall & _ & Hidle).
    exists tr. auto.
Qed.

Lemma wait_until_idle_only_polls_witness :
  Ok tt <> @OutOfFuel unit
  /\ exists tr : list event,
       [SerialWrite status_query; SerialLine "<Hold:0|MPos:0>"; TimeSleep (1 # 4);
        SerialWrite status_query; SerialLine "<Idle|MPos:0>"]
       = ([] ++ tr)%list
       /\ Forall (poll_event (1 # 4)) tr
       /\ (Ok tt = Ok tt ->
           exists (before_it : list event) (report : string),
             tr = (before_it ++ [SerialLine report])%list
             /\ state (parse_status report) = Some "Idle").
Proof.
  refine (wait_until_idle_only_polls 60 (1 # 4)
            (mkWorld 0 [Delivered 0 "<Hold:0|MPos:0>"; Delivered 0 "<Idle|MPos:0>"]
               [] reliable)
            (mkWorld (0 + 0 + (1 # 4) + 0) []
               [SerialWrite status_query; SerialLine "<Hold:0|MPos:0>"; TimeSleep (1 # 4);
                SerialWrite status_query; SerialLine "<Idle|MPos:0>"] reliable)
            (Ok tt) _).
  reflexivity.
Defined.




(* ================================================================== *)
(** * GcodeExecutor: comments and image names *)
(* ================================================================== *)

Lemma contains_before (c : ascii) (s : string) : contains c (before c s) = false.
Proof.
  induction s as [|d r IH]; [reflexivity|]. cbn [before].
  destruct (Ascii.eqb c d) eqn:Hcd; [reflexivity|]. cbn [contains].
  rewrite Hcd, IH. reflexivity.
Qed.

Lemma contains_lstrip (c : ascii) (s : string) :
  contains c s = false -> contains c (lstrip s) = false.
Proof.
  induction s as [|d r IH]; [reflexivity|]. cbn [lstrip contains]. intros H.
  apply orb_false_iff in H as [Hd Hr].
  destruct (isspace d); [auto|]. cbn [contains]. rewrite Hd, Hr. reflexivity.
Qed.

Lemma contains_rstrip (c : ascii) (s : string) :
  contains c s = false -> contains c (rstrip s) = false.
Proof.
  induction s as [|d r IH]; [reflexivity|]. cbn [rstrip contains]. intros H.
  apply orb_false_iff in H as [Hd Hr]. specialize (IH Hr).
  destruct (rstrip r) as [|e r'].
  - destruct (isspace d); [reflexivity|]. cbn [contains]. rewrite Hd. reflexivity.
  - cbn [contains] in *. rewrite Hd, IH. reflexivity.
Qed.

Lemma contains_strip (c : ascii) (s : string) :
  contains c s = false -> contains c (strip s) = false.
Proof. intros H. unfold strip. apply contains_rstrip, contains_lstrip, H. Qed.

Lemma before_none (c : ascii) (s : string) : contains c s = false -> before c s = s.
Proof.
  induction s as [|d r IH]; [reflexivity|]. cbn [before contains]. intros H.
  apply orb_false_iff in H as [Hd Hr]. rewrite Hd, IH by assumption. reflexivity.
Qed.

Lemma strip_comment_no_marker (text : string) :
  contains ";" text = false -> _strip_comment text = strip text.
Proof. intros H. unfold _strip_comment. rewrite H. reflexivity. Qed.

Lemma lstrip_strip (s : string) : lstrip (strip s) = strip s.
Proof.
  unfold strip. destruct (lstrip_head s) as [He|(c & r & He & Hc)]; rewrite He.
  - reflexivity.
  - apply lstrip_rstrip. exact Hc.
Qed.

(** X5. What [_strip_comment] hands to the handlers holds no comment
    marker and neither starts nor ends with white space; stripping it
    again changes nothing; and what follows the first marker of a line
    has no effect on it: the line is read as if it ended before the
    marker. *)
Theorem strip_comment_is_clean (raw : string) :
  let line := _strip_comment raw in
  contains ";" line = false
  /\ lstrip line = line
  /\ rstrip line = line
  /\ _strip_comment line = line
  /\ (forall text comment : string,
        contains ";" text = false ->
        _strip_comment (text ++ String ";" comment) = _strip_comment text).
Proof.
  cbv zeta.
  assert (Hclean : contains ";" (_strip_comment raw) = false).
  { unfold _strip_comment. apply contains_strip.
    destruct (contains ";" raw) eqn:Hc; [apply contains_before|exact Hc]. }
  split; [exact Hclean|].
  split; [apply lstrip_strip|].
  split; [apply rstrip_idempotent|].
  split.
  - rewrite (strip_comment_no_marker _ Hclean). apply strip_idempotent.
  - intros text comment Htext. rewrite (strip_comment_no_marker _ Htext).
    unfold _strip_comment. rewrite contains_append, before_append by assumption.
    reflexivity.
Qed.

Lemma lower_append (a b : string) : lower (a ++ b) = lower a ++ lower b.
Proof. induction a as [|c r IH]; cbn; [reflexivity|]. rewrite IH. reflexivity. Qed.

Lemma endswith_refl (p : string) : endswith p p = true.
Proof. destruct p; cbn [endswith]; rewrite String.eqb_refl; reflexivity. Qed.

Lemma endswith_app (p a b : string) : endswith p b = true -> endswith p (a ++ b) = true.
Proof.
  intros H. induction a as [|c r IH]; [exact H|].
  cbn [String.append endswith]. rewrite IH. apply orb_true_r.
Qed.

Lemma has_image_suffix_app (a b : string) :
  has_image_suffix b = true -> has_image_suffix (a ++ b) = true.
Proof.
  unfold has_image_suffix. rewrite lower_append. intros H.
  repeat match type of H with
    | (_ || _) = true => apply orb_true_iff in H as [H|H]
    end;
    rewrite (endswith_app _ (lower a) _ H); rewrite ?orb_true_r; reflexivity.
Qed.

Lemma has_image_suffix_join (dir name : string) :
  has_image_suffix name = true -> has_image_suffix (path_join dir name) = true.
Proof.
  intros H. unfold path_join.
  destruct (startswith "/" name); [exact H|].
  destruct (is_empty dir || endswith "/" dir).
  - apply has_image_suffix_app, H.
  - apply has_image_suffix_app, (has_image_suffix_app "/"), H.
Qed.

(** X6. SelectImage never fails and touches neither the controller nor
    the devices, in either mode.  A line that matches the pattern, and
    no other, is taken: the current image becomes the name of the line,
    with .png added when it ends with none of .png .bmp .jpg .jpeg in any
    case of letters, joined to the image directory; one selection is
    counted and nothing else changes.  Any other line is left to the next
    handler with nothing changed.  The path stored always ends with one
    of the four extensions. *)
Theorem select_image_stores_an_image_path
    (line : string) (s : GcodeExecutor * world) :
  exists (b : bool) (self' : GcodeExecutor),
    _handle_m6054 line s = (Ok b, (self', snd s))
    /\ (_RE_M6054 line = None -> b = false)
    /\ (b = false -> self' = fst s /\ _RE_M6054 line = None)
    /\ (forall name : string,
          _RE_M6054 line = Some name ->
          b = true
          /\ self' = set_stats (inc_select (stats (fst s)))
                       (set_current_image
                          (Some (path_join (image_dir (fst s))
                                   (if has_image_suffix name then name
                                    else name ++ ".png")))
                          (fst s)))
    /\ (b = true ->
        exists path : string,
          current_image self' = Some path
          /\ has_image_suffix path = true
          /\ image_select_count (stats self') = (image_select_count (stats (fst s)) + 1)%Z
          /\ _exposure_active self' = _exposure_active (fst s)).
Proof.
  rewrite handle_m6054_result. destruct (_RE_M6054 line) as [name|].
  - exists true, (after_op (SelectImage name) (fst s)).
    split; [reflexivity|]. split; [discriminate|]. split; [discriminate|]. split.
    + intros name' Hname. injection Hname as <-. split; reflexivity.
    + intros _.
      cbn [after_op set_stats set_current_image current_image stats inc_select
           image_select_count _exposure_active image_dir].
      eexists. split; [reflexivity|]. split; [|split; reflexivity].
      apply has_image_suffix_join.
      destruct (has_image_suffix name) eqn:Hs; [exact Hs|].
      apply has_image_suffix_app. reflexivity.
  - exists false, (fst s). destruct s. split; [reflexivity|].
    split; [reflexivity|]. split; [auto|]. split; discriminate.
Qed.

Lemma span_app (f : ascii -> bool) (a b : string) :
  all f a = true -> span f b = (EmptyString, b) -> span f (a ++ b) = (a, b).
Proof.
  intros Ha Hb. induction a as [|c r IH]; [exact Hb|].
  cbn [all] in Ha. apply andb_true_iff in Ha as [Hc Hr].
  cbn [String.append span]. rewrite Hc, (IH Hr). reflexivity.
Qed.

Lemma span_stop (f : ascii -> bool) (c : ascii) (r : string) :
  f c = false -> span f (String c r) = (EmptyString, String c r).
Proof. intros H. cbn [span]. rewrite H. reflexivity. Qed.

Lemma all_app (f : ascii -> bool) (a b : string) :
  all f (a ++ b) = all f a && all f b.
Proof.
  induction a as [|c r IH]; [reflexivity|]. cbn [String.append all].
  rewrite IH. apply andb_assoc.
Qed.

Lemma lit_ci_app (p a b : string) :
  lit_ci p a = Some EmptyString -> lit_ci p (a ++ b) = Some b.
Proof.
  revert a. induction p as [|x p IH]; intros a H.
  - destruct a; [reflexivity|]. cbn in H. discriminate.
  - destruct a as [|c a]; [discriminate|]. cbn [lit_ci String.append] in *.
    destruct (Ascii.eqb x (lower_char c)); [auto|discriminate].
Qed.

Lemma append_nil_r (s : string) : s ++ EmptyString = s.
Proof. induction s as [|c r IH]; cbn; [reflexivity|]. rewrite IH. reflexivity. Qed.

Lemma append_empty (a b : string) : a <> EmptyString -> is_empty (a ++ b) = false.
Proof. destruct a; [congruence|reflexivity]. Qed.

(** The select pattern on a bare name and on a quoted name. *)
Lemma RE_M6054_spellings (op ws name : string) :
  lit_ci "m6054" op = Some EmptyString ->
  ws <> EmptyString -> all isspace ws = true ->
  name <> EmptyString -> all name_char name = true ->
  _RE_M6054 (op ++ ws ++ name) = Some name
  /\ _RE_M6054 (op ++ ws ++ String quote (name ++ String quote EmptyString)) = Some name.
Proof.
  intros Hop Hws Hspace Hname Hchars.
  destruct name as [|c r]; [congruence|].
  assert (Hc : name_char c = true)
    by (cbn [all] in Hchars; apply andb_true_iff in Hchars; tauto).
  unfold name_char in Hc. apply andb_true_iff in Hc as [Hq Hs].
  apply negb_true_iff in Hq, Hs.
  assert (Hend : forall s, span name_char (String c r ++ String quote s)
                           = (String c r, String quote s)).
  { intros s. apply span_app; [exact Hchars|]. apply span_stop. reflexivity. }
  unfold _RE_M6054. split.
  - rewrite (lit_ci_app _ _ _ Hop). unfold spaces1.
    rewrite (span_app isspace ws (String c r) Hspace (span_stop _ _ _ Hs)).
    destruct ws; [congruence|]. cbn [is_empty opt_quote]. rewrite Hq.
    unfold group1.
    rewrite <- (append_nil_r (String c r)) at 1.
    rewrite (span_app name_char (String c r) EmptyString Hchars eq_refl).
    reflexivity.
  - rewrite (lit_ci_app _ _ _ Hop). unfold spaces1.
    rewrite (span_app isspace ws _ Hspace
               (span_stop isspace quote (String c r ++ String quote EmptyString) eq_refl)).
    destruct ws; [congruence|]. cbn [is_empty opt_quote].
    rewrite Ascii.eqb_refl. unfold group1. rewrite Hend.
    cbn [is_empty opt_quote]. rewrite Ascii.eqb_refl. reflexivity.
Qed.

(** X7. The spellings of a SelectImage line.  The op-code may be in any
    case of letters and followed by any run of white space; a name that
    carries none of the image extensions selects the same file whether it
    is written bare, between double quotes, or with .png added: the file
    of that name with .png, under the image directory. *)
Theorem select_image_spellings
    (self : GcodeExecutor) (w : world) (op ws name : string) :
  lit_ci "m6054" op = Some EmptyString ->
  ws <> EmptyString -> all isspace ws = true ->
  name <> EmptyString -> all name_char name = true ->
  has_image_suffix name = false ->
  let selected :=
    (Ok true,
     (set_stats (inc_select (stats self))
        (set_current_image (Some (path_join (image_dir self) (name ++ ".png"))) self),
      w)) in
  _handle_m6054 (op ++ ws ++ name) (self, w) = selected
  /\ _handle_m6054 (op ++ ws ++ name ++ ".png") (self, w) = selected
  /\ _handle_m6054 (op ++ ws ++ String quote (name ++ String quote EmptyString)) (self, w)
     = selected.
Proof.
  intros Hop Hws Hspace Hname Hchars Hsuffix selected.
  destruct (RE_M6054_spellings op ws name Hop Hws Hspace Hname Hchars) as [Hbare Hquoted].
  assert (Hpng : _RE_M6054 (op ++ ws ++ name ++ ".png") = Some (name ++ ".png")).
  { apply RE_M6054_spellings; auto.
    - destruct name; [congruence|discriminate].
    - rewrite all_app, Hchars. reflexivity. }
  assert (Hsuffix' : has_image_suffix (name ++ ".png") = true)
    by (apply has_image_suffix_app; reflexivity).
  rewrite !handle_m6054_result, Hbare, Hpng, Hquoted.
  cbn [after_op fst snd]. rewrite Hsuffix, Hsuffix'. auto.
Qed.

Lemma select_image_spellings_witness :
  let self := new_executor "/d" false 180 (1 # 10) 30 1 3 in
  let w := mkWorld 0 [] [] reliable in
  let selected :=
    (Ok true,
     (set_stats (inc_select (stats self))
        (set_current_image (Some "/d/12.png") self), w)) in
  _handle_m6054 "m6054  12" (self, w) = selected
  /\ _handle_m6054 "m6054  12.png" (self, w) = selected
  /\ _handle_m6054 ("m6054  " ++ String quote ("12" ++ String quote EmptyString)) (self, w)
     = selected.
Proof.
  exact (select_image_spellings (new_executor "/d" false 180 (1 # 10) 30 1 3)
           (mkWorld 0 [] [] reliable) "m6054" "  " "12"
           eq_refl ltac:(discriminate) eq_refl ltac:(discriminate) eq_refl eq_refl).
Defined.

(* ================================================================== *)
(** * GcodeExecutor: end of exposure, dwell, bad numbers, rejections *)
(* ================================================================== *)

(** End-exposure, up to the test of the mode. *)
Lemma handle_m106_end (self : GcodeExecutor) (w : world)
    (line text : string) (s_val : Q) :
  _RE_M106 line = Some text -> py_float text = Some s_val -> ge_1 s_val = false ->
  _handle_m106 line (self, w)
  = if dry_run self
    then (Ok true, (set_exposure_active false (set_stats (inc_off (stats self)) self), w))
    else (on_world (calls (end_steps self)) ;; ret true)
           (set_exposure_active false (set_stats (inc_off (stats self)) self), w).
Proof.
  intros Hre Hfloat Hge. unfold _handle_m106. rewrite Hre.
  unfold float_of_group. rewrite Hfloat.
  unfold bind at 1. unfold ret at 1. cbv beta iota. rewrite Hge.
  unfold bind at 1. unfold count, update. cbv beta iota.
  unfold bind at 1. unfold get_self. cbv beta iota.
  unfold bind at 1. cbv beta iota.
  cbn [fst snd dry_run set_stats set_exposure_active _exposure_active
       post_exposure_black_delay_s].
  destruct (dry_run self); [reflexivity|].
  cbn [negb]. unfold end_steps.
  destruct (_exposure_active self && Qlt_bool 0 (post_exposure_black_delay_s self));
    cbn [calls app]; unfold bind, on_world, call, ret;
    cbn [fst snd now rx trace faulty];
    repeat match goal with
      | |- context [if faulty ?a ?b ?c then _ else _] =>
          destruct (faulty a b c); cbn [fst snd now rx trace faulty]
      end;
    reflexivity.
Qed.

(** X8. An end-exposure line (level below 1) run live needs no selected
    image and does not wait for the controller: it counts one
    exposure-off, clears the exposure flag, and calls projector off, then
    display black, then the dark hold when the flag was set and the
    post-exposure delay is positive.  When none of the calls fails all
    are made and the line succeeds; otherwise the calls stop with the
    first that fails, whose error goes up.  The serial port and the clock
    are left alone. *)
Theorem end_exposure_live_sequence
    (self : GcodeExecutor) (w : world) (line level : string) (s_val : Q) :
  dry_run self = false ->
  _RE_M106 line = Some level -> py_float level = Some s_val -> ge_1 s_val = false ->
  let steps := end_steps self in
  let ended := set_exposure_active false (set_stats (inc_off (stats self)) self) in
  let made evs := mkWorld (now w) (rx w) (trace w ++ evs) (faulty w) in
  ((forall k, step_fails w (trace w) steps k = false) ->
   _handle_m106 line (self, w) = (Ok true, (ended, made steps)))
  /\ (forall (n : nat) (e : event),
        nth_error steps n = Some e ->
        (forall k, (k < n)%nat -> step_fails w (trace w) steps k = false) ->
        step_fails w (trace w) steps n = true ->
        _handle_m106 line (self, w)
        = (Raise (DeviceError e), (ended, made (firstn (S n) steps)))).
Proof.
  intros Hlive Hre Hfloat Hge steps ended made.
  rewrite (handle_m106_end self w line level s_val Hre Hfloat Hge), Hlive.
  destruct (calls_spec steps w) as [Hgood Hbad].
  unfold bind, on_world. cbn [fst snd]. fold steps. split.
  - intros Hnone. rewrite (Hgood Hnone). reflexivity.
  - intros n e Hnth Hbefore Hfail. rewrite (Hbad n e Hnth Hbefore Hfail). reflexivity.
Qed.

Lemma end_exposure_live_sequence_witness :
  let self := set_exposure_active true (new_executor "/d" false 180 (1 # 10) 30 1 3) in
  let w := mkWorld 0 [Delivered 0 "ok"] [] reliable in
  let steps := end_steps self in
  let ended := set_exposure_active false (set_stats (inc_off (stats self)) self) in
  let made evs := mkWorld (now w) (rx w) (trace w ++ evs) (faulty w) in
  ((forall k, step_fails w (trace w) steps k = false) ->
   _handle_m106 "M106 S0" (self, w) = (Ok true, (ended, made steps)))
  /\ (forall (n : nat) (e : event),
        nth_error steps n = Some e ->
        (forall k, (k < n)%nat -> step_fails w (trace w) steps k = false) ->
        step_fails w (trace w) steps n = true ->
        _handle_m106 "M106 S0" (self, w)
        = (Raise (DeviceError e), (ended, made (firstn (S n) steps)))).
Proof.
  exact (end_exposure_live_sequence
           (set_exposure_active true (new_executor "/d" false 180 (1 # 10) 30 1 3))
           (mkWorld 0 [Delivered 0 "ok"] [] reliable)
           "M106 S0" "0" 0 eq_refl eq_refl eq_refl eq_refl).
Defined.

(** X9. A number that [float] does not read (two dots, or no digit)
    after the exposure or the dwell op-code makes the line raise
    [ValueError]: the line has been counted in the total and in no other
    counter, the image and the exposure flag are as they were, and no
    call has been made on the controller or the devices. *)
Theorem bad_number_raises_before_any_effect
    (raw text : string) (self : GcodeExecutor) (w : world) :
  _strip_comment raw <> EmptyString ->
  classify (_strip_comment raw) = SetExposure text
  \/ classify (_strip_comment raw) = Dwell text ->
  py_float text = None ->
  run_line raw (self, w)
  = (Raise (ValueError text), (set_stats (inc_total (stats self)) self, w)).
Proof.
  intros Hblank Hop Hfloat. unfold run_line.
  unfold bind at 1. unfold count, update. cbv beta iota. cbn [fst snd].
  apply is_empty_false in Hblank. rewrite Hblank.
  unfold bind at 1. rewrite handle_m6054_result.
  unfold classify in Hop.
  destruct (_RE_M6054 (_strip_comment raw)) as [name|];
    [destruct Hop; discriminate|]. cbv beta iota.
  destruct (_RE_M106 (_strip_comment raw)) as [level|] eqn:Hm106.
  - destruct Hop as [Hop|Hop]; [|discriminate]. inversion Hop; subst level.
    unfold bind at 1. unfold _handle_m106. rewrite Hm106.
    unfold float_of_group. rewrite Hfloat. reflexivity.
  - rewrite bind_step with (1 := handle_m106_no_match _ _ Hm106).
    destruct (_RE_G4P (_strip_comment raw)) as [ms|] eqn:Hg4;
      [|destruct Hop; discriminate].
    destruct Hop as [Hop|Hop]; [discriminate|]. inversion Hop; subst ms.
    unfold bind at 1. unfold _handle_g4. rewrite Hg4.
    unfold float_of_group. rewrite Hfloat. reflexivity.
Qed.

Lemma bad_number_raises_before_any_effect_witness :
  let self := new_executor "/d" false 180 (1 # 10) 30 1 3 in
  let w := mkWorld 0 [Delivered 0 idle_report] [] reliable in
  run_line "G4 P1.5.0 ; wait" (self, w)
  = (Raise (ValueError "1.5.0"), (set_stats (inc_total (stats self)) self, w)).
Proof.
  refine (bad_number_raises_before_any_effect "G4 P1.5.0 ; wait" "1.5.0"
            (new_executor "/d" false 180 (1 # 10) 30 1 3)
            (mkWorld 0 [Delivered 0 idle_report] [] reliable) _ _ _).
  - vm_compute. discriminate.
  - right. reflexivity.
  - reflexivity.
Defined.

(** X10. A motion command that the controller does not acknowledge is
    not counted as forwarded: when [send_line_wait_ok] raises (a
    rejection, or the read timeout), the line raises the same error with
    the line counted in the total only, while the exposure-on counter
    counts attempts. *)
Theorem rejected_command_is_not_counted
    (raw : string) (self : GcodeExecutor) (w w' : world) (e : exn) :
  dry_run self = false ->
  _strip_comment raw <> EmptyString ->
  is_motion (classify (_strip_comment raw)) = true ->
  send_line_wait_ok (_strip_comment raw) w = (Raise e, w') ->
  run_line raw (self, w)
  = (Raise e, (set_stats (inc_total (stats self)) self, w'))
  /\ gcode_lines_sent_grbl (stats (set_stats (inc_total (stats self)) self))
     = gcode_lines_sent_grbl (stats self).
Proof.
  intros Hlive Hblank Hmotion Hsend. split; [|reflexivity]. unfold run_line.
  unfold bind at 1. unfold count, update. cbv beta iota. cbn [fst snd].
  apply is_empty_false in Hblank. rewrite Hblank.
  unfold bind at 1. rewrite handle_m6054_result.
  unfold classify in Hmotion.
  destruct (_RE_M6054 (_strip_comment raw)) as [name|]; [discriminate|]. cbv beta iota.
  destruct (_RE_M106 (_strip_comment raw)) as [level|] eqn:Hm106; [discriminate|].
  rewrite bind_step with (1 := handle_m106_no_match _ _ Hm106).
  destruct (_RE_G4P (_strip_comment raw)) as [ms|] eqn:Hg4; [discriminate|].
  rewrite bind_step with (1 := handle_g4_no_match _ _ Hg4).
  unfold _send_to_grbl. unfold bind at 1. unfold get_self. cbv beta iota.
  cbn [fst dry_run set_stats]. rewrite Hlive.
  unfold bind, on_world. cbn [fst snd]. rewrite Hsend. reflexivity.
Qed.

Lemma rejected_command_is_not_counted_witness :
  let self := new_executor "/d" false 180 (1 # 10) 30 1 3 in
  let w := mkWorld 0 [Delivered 0 "error:20"] [] reliable in
  run_line "G99 ; unsupported" (self, w)
  = (Raise (ControllerRejected "error:20" "G99"),
     (set_stats (inc_total (stats self)) self,
      mkWorld (0 + 0) [] [SerialWrite ("G99" ++ NL); SerialLine "error:20"] reliable))
  /\ gcode_lines_sent_grbl (stats (set_stats (inc_total (stats self)) self))
     = gcode_lines_sent_grbl (stats self).
Proof.
  refine (rejected_command_is_not_counted "G99 ; unsupported"
            (new_executor "/d" false 180 (1 # 10) 30 1 3)
            (mkWorld 0 [Delivered 0 "error:20"] [] reliable)
            (mkWorld (0 + 0) [] [SerialWrite ("G99" ++ NL); SerialLine "error:20"] reliable)
            (ControllerRejected "error:20" "G99") _ _ _ _).
  - reflexivity.
  - vm_compute. discriminate.
  - reflexivity.
  - reflexivity.
Defined.

(** X11. A dwell line counts one dwell and, in a live run, makes one
    call on the display, with the double [float(ms) / 1000.0] for the
    seconds: the call returns, or fails and the failure goes up, or, the
    double being infinite, is never over and the run with it.  In a dry
    run the line counts and calls nothing.  The controller is not
    involved: the dwell is not forwarded and the serial port is left
    alone. *)
Theorem dwell_waits_on_the_display
    (line ms : string) (v : Q) (self : GcodeExecutor) (w : world) :
  _RE_G4P line = Some ms -> py_float ms = Some v ->
  let sec := dwell_seconds (double_of_Q v) in
  let counted := set_stats (inc_dwell (stats self)) self in
  let called e := mkWorld (now w) (rx w) (trace w ++ [e]) (faulty w) in
  _handle_g4 line (self, w)
  = if dry_run self then (Ok true, (counted, w))
    else match Q_of_double sec with
         | Some q =>
             if faulty w (trace w) (DisplaySleepWithPump q)
             then (Raise (DeviceError (DisplaySleepWithPump q)),
                   (counted, called (DisplaySleepWithPump q)))
             else (Ok true, (counted, called (DisplaySleepWithPump q)))
         | None => (OutOfFuel, (counted, called DisplaySleepForever))
         end.
Proof.
  intros Hre Hfloat sec counted called.
  unfold _handle_g4. rewrite Hre. unfold float_of_group. rewrite Hfloat.
  unfold bind, ret, count, update, get_self, on_world.
  cbn [fst snd dry_run set_stats now rx trace faulty].
  destruct (dry_run self); [reflexivity|]. cbn [negb fst snd].
  fold sec. destruct (Q_of_double sec) as [q|]; cbn [display_sleep_with_pump].
  - unfold call. destruct (faulty w (trace w) (DisplaySleepWithPump q)); reflexivity.
  - reflexivity.
Qed.

Lemma dwell_waits_on_the_display_witness :
  let self := new_executor "/d" false 180 (1 # 10) 30 1 3 in
  let w := mkWorld 0 [Delivered 0 "ok"] [] reliable in
  _handle_g4 "g4 p1500" (self, w)
  = (Ok true,
     (set_stats (inc_dwell (stats self)) self,
      mkWorld 0 [Delivered 0 "ok"] [DisplaySleepWithPump (3 # 2)] reliable)).
Proof.
  exact (dwell_waits_on_the_display "g4 p1500" "1500" 1500
           (new_executor "/d" false 180 (1 # 10) 30 1 3)
           (mkWorld 0 [Delivered 0 "ok"] [] reliable) eq_refl eq_refl).
Defined.

(** The seconds of a dwell are a double: those of [G4 P1001] are the
    double next to 1.001, which is not 1001 thousandths. *)
Example dwell_of_1001_ms :
  Q_of_double (dwell_seconds (double_of_Q 1001))
  = Some (2254051613498933 # 2251799813685248)
  /\ ~ (2254051613498933 # 2251799813685248) * 1000 == 1001.
Proof. split; [vm_compute; reflexivity|]. intros H. vm_compute in H. discriminate. Qed.

(** A dwell of more milliseconds than the doubles hold is infinite: the
    live run never gets past it. *)
Example dwell_without_end :
  let ms := ("1" ++ str_mul "0" 309)%string in
  let self := new_executor "/d" false 180 (1 # 10) 30 1 3 in
  let w := mkWorld 0 [] [] reliable in
  fst (run_line ("G4 P" ++ ms) (self, w)) = OutOfFuel
  /\ fst (run_file ["G4 P" ++ ms; "M106 S0"]%string (self, w)) = OutOfFuel
  /\ trace (snd (snd (run_file ["G4 P" ++ ms; "M106 S0"]%string (self, w))))
     = [DisplaySleepForever].
Proof. vm_compute. repeat split; reflexivity. Qed.

(* ================================================================== *)
(** * GcodeExecutor: what every outcome leaves alone *)
(* ================================================================== *)

Section Respects.

Variable R : GcodeExecutor -> GcodeExecutor -> Prop.
Hypothesis R_refl : forall a, R a a.
Hypothesis R_trans : forall a b c, R a b -> R b c -> R a c.

Lemma respects_ret {A} (a : A) : respects R (ret a).
Proof. intros s s' r H. inversion H. apply R_refl. Qed.

Lemma respects_raise {A} (e : exn) : respects R (@raise _ A e).
Proof. intros s s' r H. inversion H. apply R_refl. Qed.

Lemma respects_get_self : respects R get_self.
Proof. intros s s' r H. inversion H. apply R_refl. Qed.

Lemma respects_on_world {A} (m : M world A) : respects R (on_world m).
Proof.
  intros s s' r. unfold on_world. destruct (m (snd s)) as [r1 w1].
  intros H. inversion H. apply R_refl.
Qed.

Lemma respects_update (f : GcodeExecutor -> GcodeExecutor) :
  (forall a, R a (f a)) -> respects R (update f).
Proof. intros Hf s s' r H. inversion H. apply Hf. Qed.

Lemma respects_bind {A B} (m : X A) (k : A -> X B) :
  respects R m -> (forall a, respects R (k a)) -> respects R (bind m k).
Proof.
  intros Hm Hk s s' r. unfold bind. destruct (m s) as [[a|e|] s1] eqn:Hms; intros H.
  - eapply R_trans; [eapply Hm; eassumption|eapply Hk; eassumption].
  - inversion H; subst. eapply Hm; eassumption.
  - inversion H; subst. eapply Hm; eassumption.
Qed.

Lemma respects_if {A} (b : bool) (m1 m2 : X A) :
  respects R m1 -> respects R m2 -> respects R (if b then m1 else m2).
Proof. destruct b; auto. Qed.

End Respects.

Lemma same_setup_and_total_refl (a : GcodeExecutor) : same_setup_and_total a a.
Proof. repeat split; reflexivity. Qed.

Lemma same_setup_and_total_trans (a b c : GcodeExecutor) :
  same_setup_and_total a b -> same_setup_and_total b c -> same_setup_and_total a c.
Proof.
  unfold same_setup_and_total, same_setup.
  intros (H1 & H2) (H3 & H4). repeat split; intuition congruence.
Qed.

Ltac respects_setup :=
  repeat match goal with
    | |- respects _ (bind _ _) =>
        apply (respects_bind _ same_setup_and_total_trans)
    | |- respects _ (if _ then _ else _) => apply respects_if
    | |- respects _ (match ?o with Some _ => _ | None => _ end) => destruct o
    | |- respects _ (on_world _) =>
        apply (respects_on_world _ same_setup_and_total_refl)
    | |- respects _ (ret _) => apply (respects_ret _ same_setup_and_total_refl)
    | |- respects _ (raise _) => apply (respects_raise _ same_setup_and_total_refl)
    | |- respects _ get_self => apply (respects_get_self _ same_setup_and_total_refl)
    | |- respects _ (float_of_group ?t) => unfold float_of_group
    | |- respects _ (count _) => unfold count
    | |- respects _ (update _) =>
        apply respects_update; intros ?; repeat split; reflexivity
    | |- forall _, _ => intro
    end.

Lemma handlers_respect_setup (line : string) :
  respects same_setup_and_total
    (b <- _handle_m6054 line ;;
     if b then ret tt
     else b <- _handle_m106 line ;;
          if b then ret tt
          else b <- _handle_g4 line ;;
               if b then ret tt else _send_to_grbl line).
Proof.
  unfold _handle_m6054, _handle_m106, _handle_g4, _send_to_grbl.
  respects_setup.
Qed.

(** Whatever its outcome, a line leaves the configuration alone and adds
    one to the count of lines read. *)
Lemma run_line_setup (raw : string) (s s' : GcodeExecutor * world) (r : outcome unit) :
  run_line raw s = (r, s') ->
  same_setup (fst s) (fst s')
  /\ gcode_lines_total (stats (fst s')) = (gcode_lines_total (stats (fst s)) + 1)%Z.
Proof.
  unfold run_line. unfold bind at 1. unfold count, update. cbv beta iota.
  destruct (is_empty (_strip_comment raw)).
  - intros H. inversion H; subst. cbn. repeat split; reflexivity.
  - intros H. apply handlers_respect_setup in H. cbn [fst] in H.
    destruct H as [Hsetup Htotal]. split; [exact Hsetup|].
    rewrite Htotal. reflexivity.
Qed.

Lemma same_setup_trans (a b c : GcodeExecutor) :
  same_setup a b -> same_setup b c -> same_setup a c.
Proof. unfold same_setup. intros H1 H2. repeat split; intuition congruence. Qed.

Lemma run_lines_setup :
  forall (lines : list string) (s s' : GcodeExecutor * world) (r : outcome unit),
    run_lines lines s = (r, s') ->
    same_setup (fst s) (fst s')
    /\ (gcode_lines_total (stats (fst s))
        <= gcode_lines_total (stats (fst s'))
        <= gcode_lines_total (stats (fst s)) + Z.of_nat (List.length lines))%Z.
Proof.
  induction lines as [|raw lines IH]; intros s s' r Hrun.
  - inversion Hrun; subst. cbn [List.length]. split; [repeat split; reflexivity|lia].
  - cbn [run_lines] in Hrun. unfold bind in Hrun.
    destruct (run_line raw s) as [[[]|e|] s1] eqn:Hline;
      apply run_line_setup in Hline as [Hsetup Htotal].
    + apply IH in Hrun as [Hsetup' Htotal'].
      split; [eapply same_setup_trans; eassumption|].
      cbn [List.length]. lia.
    + inversion Hrun; subst. split; [assumption|]. cbn [List.length]. lia.
    + inversion Hrun; subst. split; [assumption|]. cbn [List.length]. lia.
Qed.

(** X12. No program changes the configuration of the executor: after
    [run_file], whether it returned or raised, the image directory, the
    mode, the idle timeout and poll interval, the pump rate and the two
    dark delays are what the caller gave; and the count of lines read
    lies between zero and the number of lines of the program. *)
Theorem run_file_keeps_the_setup
    (lines : list string) (s s' : GcodeExecutor * world) (r : outcome RunStats) :
  run_file lines s = (r, s') ->
  same_setup (fst s) (fst s')
  /\ (0 <= gcode_lines_total (stats (fst s')) <= Z.of_nat (List.length lines))%Z.
Proof.
  unfold run_file. unfold bind at 1. unfold update. cbv beta iota.
  unfold bind at 1.
  destruct (run_lines lines (run_begin (fst s), snd s)) as [[[]|e|] s1] eqn:Hlines;
    apply run_lines_setup in Hlines as [Hsetup Htotal]; cbn [fst snd] in *;
    intros H; inversion H; subst; (split; [exact Hsetup|exact Htotal]).
Qed.

Lemma run_file_keeps_the_setup_witness :
  let s := (new_executor "/d" false 180 (1 # 10) 30 1 3,
            mkWorld 0 [Delivered 0 "error:2"] [] reliable) in
  let s' := snd (run_file ["M6054 3"; "G1 Z"; "M106 S255"] s) in
  same_setup (fst s) (fst s')
  /\ (0 <= gcode_lines_total (stats (fst s')) <= 3)%Z.
Proof.
  exact (run_file_keeps_the_setup ["M6054 3"; "G1 Z"; "M106 S255"]
           (new_executor "/d" false 180 (1 # 10) 30 1 3,
            mkWorld 0 [Delivered 0 "error:2"] [] reliable)
           _ _ (surjective_pairing _)).
Defined.

(* ================================================================== *)
(** * GcodeExecutor: a dry run stays dry *)
(* ================================================================== *)

Lemma handle_m106_dry_frame (line : string) (self : GcodeExecutor) (w : world) :
  dry_run self = true ->
  exists (r : outcome bool) (self' : GcodeExecutor),
    _handle_m106 line (self, w) = (r, (self', w)).
Proof.
  intros Hdry. destruct (_RE_M106 line) as [level|] eqn:Hre.
  - destruct (py_float level) as [v|] eqn:Hfloat.
    + destruct (ge_1 v) eqn:Hge.
      * rewrite (handle_m106_begin self w line level v Hre Hfloat Hge), Hdry.
        destruct (current_image self); eauto.
      * rewrite (handle_m106_end self w line level v Hre Hfloat Hge), Hdry. eauto.
    + unfold _handle_m106. rewrite Hre. unfold float_of_group. rewrite Hfloat.
      unfold bind, raise. eauto.
  - rewrite (handle_m106_no_match _ _ Hre). eauto.
Qed.

Lemma handle_g4_dry_frame (line : string) (self : GcodeExecutor) (w : world) :
  dry_run self = true ->
  exists (r : outcome bool) (self' : GcodeExecutor),
    _handle_g4 line (self, w) = (r, (self', w)).
Proof.
  intros Hdry. destruct (_RE_G4P line) as [ms|] eqn:Hre.
  - destruct (py_float ms) as [v|] eqn:Hfloat.
    + unfold _handle_g4. rewrite Hre. unfold float_of_group. rewrite Hfloat.
      unfold bind, ret, count, update, get_self. cbn [fst snd dry_run set_stats].
      rewrite Hdry. cbn [negb]. eauto.
    + unfold _handle_g4. rewrite Hre. unfold float_of_group. rewrite Hfloat.
      unfold bind, raise. eauto.
  - rewrite (handle_g4_no_match _ _ Hre). eauto.
Qed.

Lemma run_line_dry_frame (raw : string) (self : GcodeExecutor) (w : world) :
  dry_run self = true ->
  exists (r : outcome unit) (self' : GcodeExecutor),
    run_line raw (self, w) = (r, (self', w)).
Proof.
  intros Hdry. unfold run_line.
  unfold bind at 1. unfold count, update. cbv beta iota. cbn [fst snd].
  set (self1 := set_stats (inc_total (stats self)) self).
  assert (Hdry1 : dry_run self1 = true) by exact Hdry.
  destruct (is_empty (_strip_comment raw)); [unfold ret; eauto|].
  unfold bind at 1. rewrite handle_m6054_result.
  destruct (_RE_M6054 (_strip_comment raw)) as [name|]; cbv beta iota;
    [unfold ret; eauto|].
  unfold bind at 1.
  destruct (handle_m106_dry_frame (_strip_comment raw) self1 w Hdry1)
    as (r2 & self2 & H2).
  rewrite H2. destruct r2 as [[]|e|]; [unfold ret; eauto| |eauto|eauto].
  assert (Hdry2 : dry_run self2 = true).
  { assert (Hk : respects same_setup_and_total (_handle_m106 (_strip_comment raw)))
      by (unfold _handle_m106; respects_setup).
    apply Hk in H2. cbn [fst] in H2. destruct H2 as [(_ & Hd & _) _].
    rewrite Hd. exact Hdry1. }
  unfold bind at 1.
  destruct (handle_g4_dry_frame (_strip_comment raw) self2 w Hdry2)
    as (r3 & self3 & H3).
  rewrite H3. destruct r3 as [[]|e|]; [unfold ret; eauto| |eauto|eauto].
  assert (Hdry3 : dry_run self3 = true).
  { assert (Hk : respects same_setup_and_total (_handle_g4 (_strip_comment raw)))
      by (unfold _handle_g4; respects_setup).
    apply Hk in H3. cbn [fst] in H3. destruct H3 as [(_ & Hd & _) _].
    rewrite Hd. exact Hdry2. }
  rewrite (send_to_grbl_dry _ _ _ Hdry3). eauto.
Qed.

Lemma run_lines_dry_frame :
  forall (lines : list string) (self : GcodeExecutor) (w : world),
    dry_run self = true ->
    exists (r : outcome unit) (self' : GcodeExecutor),
      run_lines lines (self, w) = (r, (self', w)).
Proof.
  induction lines as [|raw lines IH]; intros self w Hdry.
  - unfold run_lines, ret. eauto.
  - cbn [run_lines]. unfold bind.
    destruct (run_line_dry_frame raw self w Hdry) as (r1 & self1 & H1).
    rewrite H1. destruct r1 as [[]|e|]; [|eauto|eauto].
    apply IH. apply run_line_setup in H1 as [(_ & Hd & _) _].
    cbn [fst] in Hd. rewrite Hd. exact Hdry.
Qed.

(** X13. A dry run moves nothing: whatever the program, and whether
    the run returns or raises, the serial port has been neither written
    nor read, no call has been made on the projector or the display, and
    the clock has not been waited on. *)
Theorem dry_run_touches_nothing
    (lines : list string) (self : GcodeExecutor) (w : world)
    (r : outcome RunStats) (s' : GcodeExecutor * world) :
  dry_run self = true ->
  run_file lines (self, w) = (r, s') ->
  snd s' = w /\ dry_run (fst s') = true.
Proof.
  intros Hdry Hrun. split.
  - unfold run_file in Hrun. unfold bind at 1 in Hrun. unfold update in Hrun.
    cbv beta iota in Hrun. cbn [fst snd] in Hrun. unfold bind at 1 in Hrun.
    destruct (run_lines_dry_frame lines (run_begin self) w Hdry) as (r1 & self1 & H1).
    rewrite H1 in Hrun.
    destruct r1 as [[]|e|]; inversion Hrun; reflexivity.
  - unfold run_file in Hrun. unfold bind at 1 in Hrun. unfold update in Hrun.
    cbv beta iota in Hrun. cbn [fst snd] in Hrun. unfold bind at 1 in Hrun.
    destruct (run_lines lines (run_begin self, w)) as [[[]|e|] s1] eqn:Hlines;
      apply run_lines_setup in Hlines as [(_ & Hd & _) _]; cbn [fst] in Hd;
      inversion Hrun; subst; rewrite Hd; exact Hdry.
Qed.

Lemma dry_run_touches_nothing_witness :
  let self := new_executor "/d" true 180 (1 # 10) 30 1 3 in
  let w := mkWorld 7 [Delivered 0 "ok"] [SerialLine "Grbl 1.1h"] reliable in
  let lines := ["G21"; "M6054 1"; "M106 S255"; "G4 P.."; "G1 Z5"] in
  snd (snd (run_file lines (self, w))) = w
  /\ dry_run (fst (snd (run_file lines (self, w)))) = true.
Proof.
  exact (dry_run_touches_nothing
           ["G21"; "M6054 1"; "M106 S255"; "G4 P.."; "G1 Z5"]
           (new_executor "/d" true 180 (1 # 10) 30 1 3)
           (mkWorld 7 [Delivered 0 "ok"] [SerialLine "Grbl 1.1h"] reliable)
           _ _ eq_refl (surjective_pairing _)).
Defined.

(* ================================================================== *)
(** * GcodeExecutor: what goes on the wire *)
(* ================================================================== *)

Lemma payloads_app (a b : list event) : payloads (a ++ b) = (payloads a ++ payloads b)%list.
Proof. unfold payloads. apply flat_map_app. Qed.

Lemma quiet_events_nil : quiet_events [].
Proof. reflexivity. Qed.

Lemma quiet_events_app (a b : list event) :
  quiet_events a -> quiet_events b -> quiet_events (a ++ b).
Proof.
  unfold quiet_events. intros Ha Hb. rewrite payloads_app, filter_app, Ha, Hb.
  reflexivity.
Qed.

Lemma poll_events_quiet (poll_s : Q) (evs : list event) :
  Forall (poll_event poll_s) evs -> quiet_events evs.
Proof.
  induction 1 as [|e evs He _ IH]; [reflexivity|].
  change (e :: evs) with ([e] ++ evs)%list. apply quiet_events_app; [|exact IH].
  destruct e; cbn in He; try reflexivity; try contradiction.
  subst payload. reflexivity.
Qed.

Lemma quiet_world_wait (timeout_s poll_s : Q) :
  quiet_world (wait_until_idle timeout_s poll_s).
Proof.
  intros w w' r Hrun.
  unfold wait_until_idle, bind, time_time, with_fuel in Hrun.
  apply idle_loop_trace in Hrun as (_ & evs & Htr & Hall & _).
  exists evs. split; [exact Htr|]. eapply poll_events_quiet; eassumption.
Qed.

Lemma quiet_world_call (e : event) :
  payloads [e] = [] -> quiet_world (call e).
Proof.
  intros He w w' r. unfold call. intros H. exists [e].
  split; [destruct (faulty w (trace w) e); inversion H; reflexivity|].
  unfold quiet_events. rewrite He. reflexivity.
Qed.

Lemma quiet_world_sleep (sec : option Q) : quiet_world (display_sleep_with_pump sec).
Proof.
  destruct sec as [q|]; [apply quiet_world_call; reflexivity|].
  intros w w' r H. inversion H. exists [DisplaySleepForever]. split; reflexivity.
Qed.

Lemma quiet_ret {A} (a : A) : quiet (ret a).
Proof.
  intros s s' r H. inversion H. exists []. rewrite app_nil_r. auto using quiet_events_nil.
Qed.

Lemma quiet_raise {A} (e : exn) : quiet (@raise _ A e).
Proof.
  intros s s' r H. inversion H. exists []. rewrite app_nil_r. auto using quiet_events_nil.
Qed.

Lemma quiet_get_self : quiet get_self.
Proof.
  intros s s' r H. inversion H. exists []. rewrite app_nil_r. auto using quiet_events_nil.
Qed.

Lemma quiet_update (f : GcodeExecutor -> GcodeExecutor) : quiet (update f).
Proof.
  intros s s' r H. inversion H. exists []. cbn [snd]. rewrite app_nil_r.
  auto using quiet_events_nil.
Qed.

Lemma quiet_on_world {A} (m : M world A) : quiet_world m -> quiet (on_world m).
Proof.
  intros Hm s s' r. unfold on_world. destruct (m (snd s)) as [r1 w1] eqn:Hms.
  intros H. inversion H; subst. cbn [snd]. eapply Hm; eassumption.
Qed.

Lemma quiet_bind {A B} (m : X A) (k : A -> X B) :
  quiet m -> (forall a, quiet (k a)) -> quiet (bind m k).
Proof.
  intros Hm Hk s s' r. unfold bind. destruct (m s) as [[a|e|] s1] eqn:Hms; intros H.
  - apply Hm in Hms as (e1 & Ht1 & Hq1). apply Hk in H as (e2 & Ht2 & Hq2).
    exists (e1 ++ e2)%list. split; [|apply quiet_events_app; assumption].
    rewrite Ht2, Ht1, app_assoc. reflexivity.
  - inversion H; subst. eapply Hm; eassumption.
  - inversion H; subst. eapply Hm; eassumption.
Qed.

Lemma quiet_if {A} (b : bool) (m1 m2 : X A) :
  quiet m1 -> quiet m2 -> quiet (if b then m1 else m2).
Proof. destruct b; auto. Qed.

Ltac quiet :=
  repeat match goal with
    | |- quiet (bind _ _) => apply quiet_bind
    | |- quiet (if _ then _ else _) => apply quiet_if
    | |- quiet (match ?o with Some _ => _ | None => _ end) => destruct o
    | |- quiet (on_world (wait_until_idle _ _)) =>
        apply quiet_on_world, quiet_world_wait
    | |- quiet (on_world (call _)) =>
        apply quiet_on_world, quiet_world_call; reflexivity
    | |- quiet (on_world (display_sleep_with_pump _)) =>
        apply quiet_on_world, quiet_world_sleep
    | |- quiet (ret _) => apply quiet_ret
    | |- quiet (raise _) => apply quiet_raise
    | |- quiet get_self => apply quiet_get_self
    | |- quiet (float_of_group ?t) => unfold float_of_group
    | |- quiet (count _) => unfold count
    | |- quiet (update _) => apply quiet_update
    | |- forall _, _ => intro
    end.

(** The three handlers of the reserved op-codes write nothing but status
    queries. *)
Lemma handle_m6054_quiet (line : string) : quiet (_handle_m6054 line).
Proof. unfold _handle_m6054. quiet. Qed.

Lemma handle_m106_quiet (line : string) : quiet (_handle_m106 line).
Proof. unfold _handle_m106. quiet. Qed.

Lemma handle_g4_quiet (line : string) : quiet (_handle_g4 line).
Proof. unfold _handle_g4. quiet. Qed.

Lemma reads_no_payload (evs : list event) : Forall read_event evs -> payloads evs = [].
Proof.
  induction 1 as [|e evs He _ IH]; [reflexivity|].
  destruct He as [He|[line He]]; subst e; exact IH.
Qed.

Lemma ack_loop_reads_only (clean : string) :
  forall (fuel : nat) (w w' : world) (r : outcome string),
    ack_loop fuel clean w = (r, w') ->
    exists evs : list event, trace w' = (trace w ++ evs)%list /\ payloads evs = [].
Proof.
  induction fuel as [|fuel IH]; intros w w' r Hrun.
  - inversion Hrun; subst. exists []. rewrite app_nil_r. auto.
  - cbn [ack_loop] in Hrun. unfold bind at 1 in Hrun.
    destruct (_readline 10 w) as [r1 w1] eqn:Hread.
    apply readline_inv in Hread as (_ & _ & _ & evs & Htr & Hevs & _).
    apply reads_no_payload in Hevs.
    destruct r1 as [resp|e|];
      [|inversion Hrun; subst; exists evs; auto|inversion Hrun; subst; exists evs; auto].
    destruct (lower resp =? "ok"); [inversion Hrun; subst; exists evs; auto|].
    destruct (startswith "error" (lower resp) || startswith "alarm" (lower resp));
      [inversion Hrun; subst; exists evs; auto|].
    apply IH in Hrun as (evs' & Htr' & Hp').
    exists (evs ++ evs')%list. split; [rewrite Htr', Htr, app_assoc; reflexivity|].
    rewrite payloads_app, Hevs, Hp'. reflexivity.
Qed.

(** Whatever its outcome, [send_line_wait_ok] writes its command once. *)
Lemma send_line_wait_ok_writes_once (line : string) (w w' : world) (r : outcome string) :
  strip line <> EmptyString ->
  send_line_wait_ok line w = (r, w') ->
  exists evs : list event,
    trace w' = (trace w ++ evs)%list /\ payloads evs = [strip line ++ NL].
Proof.
  intros Hclean Hrun. unfold send_line_wait_ok in Hrun.
  apply is_empty_false in Hclean. rewrite Hclean in Hrun.
  unfold bind at 1 in Hrun. unfold write_line, emit in Hrun. cbv beta iota in Hrun.
  unfold with_fuel in Hrun. rewrite strip_idempotent in Hrun.
  apply ack_loop_reads_only in Hrun as (evs & Htr & Hpay). cbn [trace] in Htr.
  exists (SerialWrite (strip line ++ NL) :: evs). split.
  - rewrite Htr, <- app_assoc. reflexivity.
  - cbn [payloads flat_map]. fold (payloads evs). rewrite Hpay. reflexivity.
Qed.

Lemma commands_cons (raw : string) (lines : list string) :
  commands (raw :: lines) = (commands [raw] ++ commands lines)%list.
Proof.
  unfold commands, non_blank. cbn [map filter].
  destruct (negb (is_empty (_strip_comment raw))); cbn [map filter app]; [|reflexivity].
  destruct (is_motion (classify (_strip_comment raw))); reflexivity.
Qed.

Lemma commands_one (raw : string) :
  commands [raw]
  = if is_empty (_strip_comment raw) then []
    else if is_motion (classify (_strip_comment raw)) then [_strip_comment raw ++ NL]
         else [].
Proof.
  unfold commands, non_blank. cbn [map filter].
  destruct (is_empty (_strip_comment raw)); cbn [negb map filter]; [reflexivity|].
  destruct (is_motion (classify (_strip_comment raw))); reflexivity.
Qed.

(** What one line of a live run puts on the wire, whatever its outcome. *)
Lemma run_line_writes (raw : string) (s s' : GcodeExecutor * world) (r : outcome unit) :
  dry_run (fst s) = false ->
  run_line raw s = (r, s') ->
  exists evs : list event,
    trace (snd s') = (trace (snd s) ++ evs)%list
    /\ filter not_query (payloads evs) = filter not_query (commands [raw]).
Proof.
  intros Hlive. rewrite commands_one. unfold run_line.
  unfold bind at 1. unfold count, update. cbv beta iota.
  set (s1 := (set_stats (inc_total (stats (fst s))) (fst s), snd s)).
  assert (Hlive1 : dry_run (fst s1) = false) by exact Hlive.
  assert (Htr1 : trace (snd s1) = trace (snd s)) by reflexivity.
  rewrite <- Htr1. clearbody s1. clear Htr1.
  destruct (is_empty (_strip_comment raw)) eqn:Hblank.
  - intros H. inversion H. exists []. rewrite app_nil_r. auto.
  - unfold classify. unfold bind at 1. rewrite handle_m6054_result.
    destruct (_RE_M6054 (_strip_comment raw)) as [name|]; cbv beta iota.
    + intros H. inversion H. exists []. cbn [snd is_motion]. rewrite app_nil_r. auto.
    + destruct (_RE_M106 (_strip_comment raw)) as [level|] eqn:Hm106.
      * intros H. cbn [is_motion].
        assert (Hq : quiet (b <- _handle_m106 (_strip_comment raw) ;;
                            if b then ret tt
                            else b0 <- _handle_g4 (_strip_comment raw) ;;
                                 if b0 then ret tt
                                 else _send_to_grbl (_strip_comment raw))).
        { intros s0 s0' r0 H0. unfold bind at 1 in H0.
          destruct (_handle_m106 (_strip_comment raw) s0) as [[b|e|] s2] eqn:Hh.
          - pose proof (handle_m106_Ok _ _ _ _ _ Hm106 Hh) as (Hb & _). subst b.
            inversion H0; subst. eapply handle_m106_quiet; eassumption.
          - inversion H0; subst. eapply handle_m106_quiet; eassumption.
          - inversion H0; subst. eapply handle_m106_quiet; eassumption. }
        apply Hq in H. exact H.
      * rewrite bind_step with (1 := handle_m106_no_match _ _ Hm106).
        destruct (_RE_G4P (_strip_comment raw)) as [ms|] eqn:Hg4.
        -- intros H. cbn [is_motion].
           assert (Hq : quiet (b0 <- _handle_g4 (_strip_comment raw) ;;
                               if b0 then ret tt
                               else _send_to_grbl (_strip_comment raw))).
           { intros s0 s0' r0 H0. unfold bind at 1 in H0.
             destruct (_handle_g4 (_strip_comment raw) s0) as [[b|e|] s2] eqn:Hh.
             - pose proof (handle_g4_Ok _ _ _ _ _ Hg4 Hh) as (Hb & _). subst b.
               inversion H0; subst. eapply handle_g4_quiet; eassumption.
             - inversion H0; subst. eapply handle_g4_quiet; eassumption.
             - inversion H0; subst. eapply handle_g4_quiet; eassumption. }
           apply Hq in H. exact H.
        -- rewrite bind_step with (1 := handle_g4_no_match _ _ Hg4).
           cbn [is_motion]. unfold _send_to_grbl. unfold bind at 1.
           unfold get_self. cbv beta iota. rewrite Hlive1.
           unfold bind, on_world.
           destruct (send_line_wait_ok (_strip_comment raw) (snd s1)) as [r1 w1] eqn:Hsend.
           assert (Hclean : strip (_strip_comment raw) <> EmptyString).
           { unfold _strip_comment. rewrite strip_idempotent.
             apply is_empty_false. exact Hblank. }
           apply (send_line_wait_ok_writes_once _ _ _ _ Hclean) in Hsend
             as (evs & Htr & Hpay).
           assert (Hstrip : strip (_strip_comment raw) = _strip_comment raw)
             by (unfold _strip_comment; apply strip_idempotent).
           rewrite Hstrip in Hpay.
           intros H. exists evs. rewrite Hpay.
           destruct r1 as [resp|e|]; inversion H; subst; cbn [snd]; auto.
Qed.

Lemma run_lines_writes :
  forall (lines : list string) (s s' : GcodeExecutor * world) (r : outcome unit),
    dry_run (fst s) = false ->
    run_lines lines s = (r, s') ->
    exists (k : nat) (evs : list event),
      (k <= List.length lines)%nat
      /\ trace (snd s') = (trace (snd s) ++ evs)%list
      /\ filter not_query (payloads evs)
         = filter not_query (commands (firstn k lines))
      /\ (r = Ok tt -> k = List.length lines).
Proof.
  induction lines as [|raw lines IH]; intros s s' r Hlive Hrun.
  - inversion Hrun; subst. exists 0%nat, []. rewrite app_nil_r. auto.
  - cbn [run_lines] in Hrun. unfold bind in Hrun.
    destruct (run_line raw s) as [r1 s1] eqn:Hline.
    pose proof (run_line_writes _ _ _ _ Hlive Hline) as (e1 & Ht1 & Hp1).
    pose proof (run_line_setup _ _ _ _ Hline) as [(_ & Hd & _) _].
    assert (Hstop : r1 <> Ok tt -> r = match r1 with Ok _ => r | Raise e => Raise e
                                               | OutOfFuel => OutOfFuel end
                                    /\ s' = s1).
    { destruct r1 as [[]|e|]; [congruence| |]; intros _; inversion Hrun; auto. }
    destruct r1 as [[]|e|].
    + rewrite <- Hd in Hlive.
      apply (IH _ _ _ Hlive) in Hrun as (k & e2 & Hk & Ht2 & Hp2 & Hall).
      exists (S k), (e1 ++ e2)%list. cbn [List.length firstn].
      split; [lia|]. split; [rewrite Ht2, Ht1, app_assoc; reflexivity|].
      split; [|intros Hok; rewrite (Hall Hok); reflexivity].
      rewrite payloads_app, filter_app, Hp1, Hp2, (commands_cons raw (firstn k lines)),
        filter_app. reflexivity.
    + destruct Hstop as [Hr Hs]; [discriminate|]. subst r s'.
      exists 1%nat, e1. cbn [List.length firstn].
      split; [lia|]. split; [exact Ht1|]. split; [|discriminate].
      rewrite Hp1. destruct lines; reflexivity.
    + destruct Hstop as [Hr Hs]; [discriminate|]. subst r s'.
      exists 1%nat, e1. cbn [List.length firstn].
      split; [lia|]. split; [exact Ht1|]. split; [|discriminate].
      rewrite Hp1. destruct lines; reflexivity.
Qed.

(** X14. What a live run puts on the wire.  Apart from status queries,
    the serial port is written the motion commands of the program, each
    once, with its comment and surrounding white space removed and a
    newline added, in the order of the program: all of them when the run
    returns, those of the lines reached when it raises.  A select, an
    exposure or a dwell line is never forwarded. *)
Theorem live_run_forwards_the_commands
    (lines : list string) (self : GcodeExecutor) (w : world)
    (r : outcome RunStats) (s' : GcodeExecutor * world) :
  dry_run self = false ->
  run_file lines (self, w) = (r, s') ->
  exists (k : nat) (evs : list event),
    (k <= List.length lines)%nat
    /\ trace (snd s') = (trace w ++ evs)%list
    /\ filter not_query (payloads evs) = filter not_query (commands (firstn k lines))
    /\ (forall st : RunStats, r = Ok st -> k = List.length lines).
Proof.
  intros Hlive Hrun.
  unfold run_file in Hrun. unfold bind at 1 in Hrun. unfold update in Hrun.
  cbv beta iota in Hrun. cbn [fst snd] in Hrun. unfold bind at 1 in Hrun.
  destruct (run_lines lines (run_begin self, w)) as [r1 s1] eqn:Hlines.
  apply run_lines_writes in Hlines as (k & evs & Hk & Htr & Hpay & Hall);
    [|exact Hlive].
  cbn [snd] in Htr. exists k, evs.
  destruct r1 as [[]|e|]; inversion Hrun; subst; repeat split; auto; discriminate.
Qed.

Lemma live_run_forwards_the_commands_witness :
  let self := new_executor "/d" false 180 (1 # 10) 30 1 3 in
  let w := mkWorld 0 [Delivered 0 "ok"; Delivered 0 idle_report; Delivered 0 "error:9"]
             [] reliable in
  let lines := ["G21 ; mm"; "M6054 1"; "M106 S255"; "G4 P10"; "  G1 Z5"; "M106 S0"] in
  exists (k : nat) (evs : list event),
    (k <= 6)%nat
    /\ trace (snd (snd (run_file lines (self, w)))) = ([] ++ evs)%list
    /\ filter not_query (payloads evs) = filter not_query (commands (firstn k lines))
    /\ (forall st : RunStats, fst (run_file lines (self, w)) = Ok st -> k = 6%nat).
Proof.
  exact (live_run_forwards_the_commands
           ["G21 ; mm"; "M6054 1"; "M106 S255"; "G4 P10"; "  G1 Z5"; "M106 S0"]
           (new_executor "/d" false 180 (1 # 10) 30 1 3)
           (mkWorld 0 [Delivered 0 "ok"; Delivered 0 idle_report; Delivered 0 "error:9"]
              [] reliable)
           _ _ eq_refl (surjective_pairing _)).
Defined.

(* ================================================================== *)
(** * GcodeExecutor: the first error ends the run *)
(* ================================================================== *)

Lemma run_lines_app (a b : list string) (s : GcodeExecutor * world) :
  run_lines (a ++ b) s = (run_lines a ;; run_lines b) s.
Proof.
  revert s. induction a as [|raw a IH]; intros s.
  - reflexivity.
  - cbn [app run_lines]. unfold bind.
    destruct (run_line raw s) as [[[]|e|] s1]; [|reflexivity|reflexivity].
    rewrite IH. reflexivity.
Qed.

(** X15. The first error ends the run.  When the lines before a line go
    through and that line raises, [run_file] raises the same error and
    leaves the executor and the world as that line left them: no line
    after it is read, whatever follows in the program, and the count of
    lines read is the number of the failing line. *)
Theorem run_file_stops_at_the_first_error
    (done_lines rest_lines : list string) (raw : string)
    (self : GcodeExecutor) (w : world) (s1 s2 : GcodeExecutor * world) (e : exn) :
  run_lines done_lines (run_begin self, w) = (Ok tt, s1) ->
  run_line raw s1 = (Raise e, s2) ->
  run_file (done_lines ++ raw :: rest_lines) (self, w) = (Raise e, s2)
  /\ gcode_lines_total (stats (fst s2)) = (Z.of_nat (List.length done_lines) + 1)%Z.
Proof.
  intros Hdone Hraise. split.
  - unfold run_file. unfold bind at 1. unfold update. cbv beta iota. cbn [fst snd].
    unfold bind at 1. rewrite run_lines_app. unfold bind at 1. rewrite Hdone.
    cbn [run_lines]. unfold bind at 1. rewrite Hraise. reflexivity.
  - apply run_lines_Ok_counts in Hdone. cbv zeta in Hdone.
    destruct Hdone as (Htotal & _). cbn [fst run_begin set_stats stats RunStats0
      gcode_lines_total] in Htotal.
    apply run_line_setup in Hraise as [_ Hone]. rewrite Hone, Htotal. lia.
Qed.

Lemma run_file_stops_at_the_first_error_witness :
  let self := new_executor "/d" false 180 (1 # 10) 30 1 3 in
  let w := mkWorld 0 [Delivered 0 "ok"; Delivered 0 "<Alarm|MPos:0>"] [] reliable in
  let s2 := (mkExecutor "/d" false 180 (1 # 10) 30 1 false 3 (Some "/d/1.png")
               (mkRunStats 3 1 0 1 0 1),
             mkWorld (0 + 0 + 0) []
               [SerialWrite ("G21" ++ NL); SerialLine "ok";
                SerialWrite status_query; SerialLine "<Alarm|MPos:0>"] reliable) in
  run_file (["G21"; "M6054 1"] ++ "M106 S255" :: ["G4 P1000"; "M106 S0"]) (self, w)
  = (Raise (ControllerAlarm "<Alarm|MPos:0>"), s2)
  /\ gcode_lines_total (stats (fst s2)) = (Z.of_nat 2 + 1)%Z.
Proof.
  refine (run_file_stops_at_the_first_error ["G21"; "M6054 1"] ["G4 P1000"; "M106 S0"]
            "M106 S255"
            (new_executor "/d" false 180 (1 # 10) 30 1 3)
            (mkWorld 0 [Delivered 0 "ok"; Delivered 0 "<Alarm|MPos:0>"] [] reliable)
            (mkExecutor "/d" false 180 (1 # 10) 30 1 false 3 (Some "/d/1.png")
               (mkRunStats 2 1 0 0 0 1),
             mkWorld (0 + 0) [Delivered 0 "<Alarm|MPos:0>"]
               [SerialWrite ("G21" ++ NL); SerialLine "ok"] reliable)
            _ (ControllerAlarm "<Alarm|MPos:0>") _ _).
  - reflexivity.
  - reflexivity.
Defined.

(* ================================================================== *)
(** * The projector: bytes on the I2C bus *)
(* ================================================================== *)

Local Open Scope Z_scope.

Lemma land_255 (x : Z) : Z.land x 255 = x mod 256.
Proof. change 255 with (Z.ones 8). rewrite Z.land_ones by lia. reflexivity. Qed.

(** X16. The two bytes of a 16-bit parameter.  For every integer, also
    a negative one or one beyond 16 bits, [low_byte] and [high_byte] are
    bytes, and the low byte plus 256 times the high byte is the integer
    modulo 65536: a parameter from 0 to 65535 is sent whole, low byte
    first. *)
Theorem low_and_high_byte_split (x : Z) :
  0 <= I2C_DLP_HDMI.low_byte x <= 255
  /\ 0 <= I2C_DLP_HDMI.high_byte x <= 255
  /\ I2C_DLP_HDMI.low_byte x + 256 * I2C_DLP_HDMI.high_byte x = x mod 65536
  /\ (0 <= x <= 65535 ->
      I2C_DLP_HDMI.low_byte x + 256 * I2C_DLP_HDMI.high_byte x = x).
Proof.
  unfold I2C_DLP_HDMI.low_byte, I2C_DLP_HDMI.high_byte.
  rewrite !land_255, Z.shiftr_div_pow2 by lia. change (2 ^ 8) with 256.
  pose proof (Z.mod_pos_bound x 256 ltac:(lia)).
  pose proof (Z.mod_pos_bound (x / 256) 256 ltac:(lia)).
  assert (Hsplit : x mod 256 + 256 * ((x / 256) mod 256) = x mod 65536).
  { change 65536 with (256 * 256). rewrite Z.rem_mul_r by lia. reflexivity. }
  repeat split; try lia.
  intros Hx. rewrite Hsplit. apply Z.mod_small. lia.
Qed.

Lemma blue_current_clamp (raw : Z) :
  (let r := if raw <? 0 then 0 else raw in if r >? 1023 then 1023 else r)
  = Z.max 0 (Z.min raw 1023).
Proof.
  cbv zeta. destruct (raw <? 0) eqn:Hneg.
  - apply Z.ltb_lt in Hneg. cbn. lia.
  - apply Z.ltb_ge in Hneg. destruct (raw >? 1023) eqn:Hbig.
    + apply Z.gtb_lt in Hbig. lia.
    + rewrite Z.gtb_ltb in Hbig. apply Z.ltb_ge in Hbig. lia.
Qed.

(** The bytes of the LED current command, as they go on the bus. *)
Lemma blue_current_bytes (v : Z) :
  0 <= v <= 1023 ->
  map (fun x => Z.land x 255)
    [I2C_DLP_HDMI.low_byte 0; I2C_DLP_HDMI.high_byte 0;
     I2C_DLP_HDMI.low_byte 0; I2C_DLP_HDMI.high_byte 0;
     I2C_DLP_HDMI.low_byte v; I2C_DLP_HDMI.high_byte v]
  = [0; 0; 0; 0; v mod 256; v / 256].
Proof.
  intros Hv. unfold I2C_DLP_HDMI.low_byte, I2C_DLP_HDMI.high_byte. cbn [map].
  assert (Hmask : forall x, Z.land (Z.land x 255) 255 = Z.land x 255)
    by (intros x; rewrite <- Z.land_assoc, Z.land_diag; reflexivity).
  rewrite !Hmask. change (Z.shiftr 0 8) with 0. change (Z.land 0 255) with 0.
  rewrite !land_255, Z.shiftr_div_pow2 by lia. change (2 ^ 8) with 256.
  assert (Hhi : 0 <= v / 256 <= 3).
  { split; [apply Z.div_pos; lia|].
    assert (v / 256 < 4) by (apply Z.div_lt_upper_bound; lia). lia. }
  rewrite (Z.mod_small (v / 256) 256) by lia. reflexivity.
Qed.

(** X17. The LED current command.  Whatever integer it is given,
    [dlp_set_blue_current] writes command 0x54 with six bytes: zero for
    the red and the green channel, and for the blue channel the value
    clamped into 0..1023, low byte first; the high byte never exceeds 3
    (the bits above the tenth are zero).  A value within range is sent
    unchanged.  When the bus refuses the write the error goes up and no
    settle time is waited. *)
Theorem blue_current_is_clamped_to_ten_bits (raw_value : Z) (b : I2C_DLP_HDMI.bus) :
  let v := Z.max 0 (Z.min raw_value 1023) in
  let data := [0; 0; 0; 0; v mod 256; v / 256] in
  0 <= v mod 256 <= 255
  /\ 0 <= v / 256 <= 3
  /\ v mod 256 + 256 * (v / 256) = v
  /\ (0 <= raw_value <= 1023 -> v = raw_value)
  /\ I2C_DLP_HDMI.dlp_set_blue_current raw_value b
     = if I2C_DLP_HDMI.refuses b (I2C_DLP_HDMI.wire b) 84 data
       then (Fail (I2C_DLP_HDMI.BusError 84 data),
             I2C_DLP_HDMI.mkBus
               (I2C_DLP_HDMI.wire b ++ [I2C_DLP_HDMI.Refused 27 84 data])
               (I2C_DLP_HDMI.refuses b))
       else (Done tt,
             I2C_DLP_HDMI.mkBus
               (I2C_DLP_HDMI.wire b
                  ++ [I2C_DLP_HDMI.Written 27 84 data; I2C_DLP_HDMI.Settled (2 # 1000)])
               (I2C_DLP_HDMI.refuses b)).
Proof.
  intros v data.
  assert (Hv : 0 <= v <= 1023) by (unfold v; lia).
  pose proof (Z.mod_pos_bound v 256 ltac:(lia)) as Hlo.
  assert (Hhi : 0 <= v / 256 <= 3).
  { split; [apply Z.div_pos; lia|].
    assert (v / 256 < 4) by (apply Z.div_lt_upper_bound; lia). lia. }
  split; [lia|]. split; [exact Hhi|].
  split; [rewrite Z.add_comm; symmetry; apply Z.div_mod; lia|].
  split; [unfold v; lia|].
  unfold I2C_DLP_HDMI.dlp_set_blue_current. cbv zeta.
  pose proof (blue_current_clamp raw_value) as Hclamp. cbv zeta in Hclamp.
  rewrite Hclamp. fold v.
  unfold I2C_DLP_HDMI.dlp_write_cmd. cbv zeta.
  rewrite (blue_current_bytes v Hv). fold data. reflexivity.
Qed.

Lemma set_blue_current_clamped (raw : Z) (b : I2C_DLP_HDMI.bus) :
  I2C_DLP_HDMI.dlp_set_blue_current raw b
  = I2C_DLP_HDMI.dlp_write_cmd 84
      (Some [0; 0; 0; 0; I2C_DLP_HDMI.low_byte (Z.max 0 (Z.min raw 1023));
             I2C_DLP_HDMI.high_byte (Z.max 0 (Z.min raw 1023))]) b.
Proof.
  unfold I2C_DLP_HDMI.dlp_set_blue_current. cbv zeta.
  pose proof (blue_current_clamp raw) as Hclamp. cbv zeta in Hclamp.
  rewrite Hclamp. reflexivity.
Qed.

Lemma set_blue_current_of_clamp (raw : Z) (b : I2C_DLP_HDMI.bus) :
  I2C_DLP_HDMI.dlp_set_blue_current raw b
  = I2C_DLP_HDMI.dlp_set_blue_current (Z.max 0 (Z.min raw 1023)) b.
Proof.
  rewrite (set_blue_current_clamped raw), (set_blue_current_clamped (Z.max _ _)).
  replace (Z.max 0 (Z.min (Z.max 0 (Z.min raw 1023)) 1023))
    with (Z.max 0 (Z.min raw 1023)) by lia.
  reflexivity.
Qed.

(* ================================================================== *)
(** * IEEE doubles: what stays finite *)
(* ================================================================== *)

Lemma fexp_eq (e : Z) :
  SpecFloat.fexp FloatOps.prec FloatOps.emax e = Z.max (e - 53) (-1074).
Proof. reflexivity. Qed.

Lemma digits2_succ (p : positive) :
  Z.pos (SpecFloat.digits2_pos (Pos.succ p)) <= Z.pos (SpecFloat.digits2_pos p) + 1.
Proof.
  induction p as [p IH|p IH|]; cbn [Pos.succ SpecFloat.digits2_pos]; lia.
Qed.

Lemma digits2_bounds (p : positive) :
  2 ^ (Z.pos (SpecFloat.digits2_pos p) - 1) <= Z.pos p
  < 2 ^ Z.pos (SpecFloat.digits2_pos p).
Proof.
  induction p as [p IH|p IH|]; cbn [SpecFloat.digits2_pos].
  - rewrite Pos2Z.inj_succ.
    replace (Z.succ (Z.pos (SpecFloat.digits2_pos p)) - 1)
      with (Z.succ (Z.pos (SpecFloat.digits2_pos p) - 1)) by lia.
    rewrite !Z.pow_succ_r by lia. lia.
  - rewrite Pos2Z.inj_succ.
    replace (Z.succ (Z.pos (SpecFloat.digits2_pos p)) - 1)
      with (Z.succ (Z.pos (SpecFloat.digits2_pos p) - 1)) by lia.
    rewrite !Z.pow_succ_r by lia. lia.
  - cbn. lia.
Qed.

Lemma digits_nonneg (m : Z) : 0 <= m -> 0 <= SpecFloat.Zdigits2 m.
Proof. destruct m; cbn; lia. Qed.

Lemma digits_below (m k : Z) : 0 <= m < 2 ^ k -> 0 <= k -> SpecFloat.Zdigits2 m <= k.
Proof.
  intros [Hm Hlt] Hk. destruct m as [|p|p]; cbn [SpecFloat.Zdigits2]; [lia| |lia].
  destruct (Z_le_gt_dec (Z.pos (SpecFloat.digits2_pos p)) k) as [Hle|Hgt]; [exact Hle|].
  exfalso. pose proof (digits2_bounds p) as [Hlow _].
  assert (2 ^ k <= 2 ^ (Z.pos (SpecFloat.digits2_pos p) - 1))
    by (apply Z.pow_le_mono_r; lia).
  lia.
Qed.

Lemma digits_above (m : Z) : 0 <= m -> m < 2 ^ SpecFloat.Zdigits2 m.
Proof.
  intros Hm. destruct m as [|p|p]; [cbn; lia| |lia].
  apply digits2_bounds.
Qed.

Lemma digits_succ (m : Z) : 0 <= m -> SpecFloat.Zdigits2 (m + 1) <= SpecFloat.Zdigits2 m + 1.
Proof.
  intros Hm. destruct m as [|p|p]; [cbn; lia| |lia].
  replace (Z.pos p + 1) with (Z.pos (Pos.succ p)) by lia.
  apply digits2_succ.
Qed.

Lemma shr_1_spec (r : SpecFloat.shr_record) :
  0 <= SpecFloat.shr_m r ->
  0 <= SpecFloat.shr_m (SpecFloat.shr_1 r)
  /\ SpecFloat.Zdigits2 (SpecFloat.shr_m (SpecFloat.shr_1 r)) = Z.max (SpecFloat.Zdigits2 (SpecFloat.shr_m r) - 1) 0.
Proof.
  destruct r as [m r s]. cbn [SpecFloat.shr_m]. intros Hm.
  destruct m as [|[p|p|]|p]; cbn [SpecFloat.shr_1 SpecFloat.shr_m SpecFloat.Zdigits2
                                  SpecFloat.digits2_pos]; lia.
Qed.

Lemma iter_shr_1_spec (p : positive) :
  forall r : SpecFloat.shr_record,
    0 <= SpecFloat.shr_m r ->
    0 <= SpecFloat.shr_m (SpecFloat.iter_pos SpecFloat.shr_1 p r)
    /\ SpecFloat.Zdigits2 (SpecFloat.shr_m (SpecFloat.iter_pos SpecFloat.shr_1 p r))
       = Z.max (SpecFloat.Zdigits2 (SpecFloat.shr_m r) - Z.pos p) 0.
Proof.
  induction p as [p IH|p IH|]; intros r Hr; cbn [SpecFloat.iter_pos].
  - destruct (shr_1_spec r Hr) as [H1 D1].
    destruct (IH _ H1) as [H2 D2]. destruct (IH _ H2) as [H3 D3].
    split; [exact H3|]. rewrite D3, D2, D1. lia.
  - destruct (IH _ Hr) as [H2 D2]. destruct (IH _ H2) as [H3 D3].
    split; [exact H3|]. rewrite D3, D2. lia.
  - apply shr_1_spec, Hr.
Qed.

Lemma shr_m_of_loc (m : Z) (l : SpecFloat.location) :
  SpecFloat.shr_m (SpecFloat.shr_record_of_loc m l) = m.
Proof. destruct l as [|[| |]]; reflexivity. Qed.

Lemma shr_fexp_spec (m e : Z) (l : SpecFloat.location) :
  0 <= m ->
  let mrs := fst (SpecFloat.shr_fexp FloatOps.prec FloatOps.emax m e l) in
  let e' := snd (SpecFloat.shr_fexp FloatOps.prec FloatOps.emax m e l) in
  0 <= SpecFloat.shr_m mrs
  /\ e' = Z.max e (Z.max (SpecFloat.Zdigits2 m + e - 53) (-1074))
  /\ SpecFloat.Zdigits2 (SpecFloat.shr_m mrs) + e' <= Z.max (SpecFloat.Zdigits2 m + e) e'.
Proof.
  intros Hm. unfold SpecFloat.shr_fexp, SpecFloat.shr. rewrite fexp_eq.
  destruct (Z.max (SpecFloat.Zdigits2 m + e - 53) (-1074) - e) as [|n|n] eqn:Hn;
    cbn [fst snd]; rewrite ?shr_m_of_loc.
  - split; [exact Hm|]. split; lia.
  - destruct (iter_shr_1_spec n (SpecFloat.shr_record_of_loc m l)) as [H D];
      rewrite ?shr_m_of_loc; [exact Hm|].
    rewrite shr_m_of_loc in D.
    split; [exact H|]. split; [lia|]. rewrite D. lia.
  - split; [exact Hm|]. split; lia.
Qed.

Lemma round_nearest_even_spec (m : Z) (l : SpecFloat.location) :
  0 <= m ->
  0 <= SpecFloat.round_nearest_even m l
  /\ SpecFloat.Zdigits2 (SpecFloat.round_nearest_even m l) <= SpecFloat.Zdigits2 m + 1.
Proof.
  intros Hm. pose proof (digits_succ m Hm).
  destruct l as [|[| |]]; cbn [SpecFloat.round_nearest_even];
    try destruct (Z.even m); split; lia.
Qed.

Lemma binary_round_aux_below (sx : bool) (mx ex : Z) (lx : SpecFloat.location) (k : Z) :
  0 <= mx -> SpecFloat.Zdigits2 mx + ex <= k -> ex <= k -> -1074 <= k -> k + 1 <= 971 ->
  finite_below (k + 1) (SpecFloat.binary_round_aux FloatOps.prec FloatOps.emax sx mx ex lx).
Proof.
  intros Hm Hd He Hlow Hhigh. unfold SpecFloat.binary_round_aux.
  pose proof (shr_fexp_spec mx ex lx Hm) as H1. cbv zeta in H1.
  destruct (SpecFloat.shr_fexp FloatOps.prec FloatOps.emax mx ex lx) as [mrs1 e1].
  cbn [fst snd] in H1. destruct H1 as (Hm1 & He1 & Hd1).
  pose proof (round_nearest_even_spec (SpecFloat.shr_m mrs1)
                (SpecFloat.loc_of_shr_record mrs1) Hm1) as [Hm2 Hd2].
  set (m2 := SpecFloat.round_nearest_even _ _) in *.
  pose proof (shr_fexp_spec m2 e1 SpecFloat.loc_Exact Hm2) as H3. cbv zeta in H3.
  destruct (SpecFloat.shr_fexp FloatOps.prec FloatOps.emax m2 e1 SpecFloat.loc_Exact)
    as [mrs3 e3].
  cbn [fst snd] in H3. destruct H3 as (Hm3 & He3 & Hd3).
  destruct (SpecFloat.shr_m mrs3) as [|m3|m3] eqn:Hm3'; [exact I| |lia].
  cbn [SpecFloat.Zdigits2] in Hd3.
  replace (e3 <=? FloatOps.emax - FloatOps.prec) with true.
  - cbn [finite_below]. lia.
  - symmetry. apply Z.leb_le. change (FloatOps.emax - FloatOps.prec) with 971. lia.
Qed.

Lemma digits_mul (a b : positive) :
  SpecFloat.Zdigits2 (Z.pos (a * b))
  <= Z.pos (SpecFloat.digits2_pos a) + Z.pos (SpecFloat.digits2_pos b).
Proof.
  apply digits_below; [|lia].
  pose proof (digits2_bounds a) as [_ Ha]. pose proof (digits2_bounds b) as [_ Hb].
  rewrite Z.pow_add_r by lia. rewrite Pos2Z.inj_mul. split; [lia|].
  apply Z.mul_lt_mono_nonneg; lia.
Qed.

(** A product of two doubles that are not large is finite. *)
Lemma SFmul_below (x y : SpecFloat.spec_float) (kx ky : Z) :
  finite_below kx x -> finite_below ky y ->
  -1074 <= kx + ky -> kx + ky + 1 <= 971 ->
  finite_below (kx + ky + 1) (SpecFloat.SFmul FloatOps.prec FloatOps.emax x y).
Proof.
  intros Hx Hy Hlow Hhigh.
  destruct x as [sx|sx| |sx mx ex]; try contradiction;
    destruct y as [sy|sy| |sy my ey]; try contradiction;
    cbn [SpecFloat.SFmul]; try exact I.
  cbn [finite_below] in Hx, Hy. pose proof (digits_mul mx my).
  apply binary_round_aux_below; lia.
Qed.

(** A quotient of a double that is not large by a double that is not
    small is finite. *)
Lemma SFdiv_below (x : SpecFloat.spec_float) (sy : bool) (my : positive) (ey kx : Z) :
  finite_below kx x ->
  let k := kx - (Z.pos (SpecFloat.digits2_pos my) + ey) + 1 in
  -1074 <= k -> k + 1 <= 971 ->
  finite_below (k + 1)
    (SpecFloat.SFdiv FloatOps.prec FloatOps.emax x (SpecFloat.S754_finite sy my ey)).
Proof.
  intros Hx k Hlow Hhigh.
  destruct x as [sx|sx| |sx mx ex]; try contradiction; [exact I|].
  cbn [finite_below] in Hx. cbn [SpecFloat.SFdiv].
  unfold SpecFloat.SFdiv_core_binary. cbn [SpecFloat.Zdigits2]. rewrite fexp_eq.
  set (d1 := Z.pos (SpecFloat.digits2_pos mx)) in *.
  set (d2 := Z.pos (SpecFloat.digits2_pos my)) in *.
  set (e' := Z.min (Z.max (d1 + ex - (d2 + ey) - 53) (-1074)) (ex - ey)).
  set (s := ex - ey - e').
  set (m' := match s with
             | 0 => Z.pos mx
             | Z.pos _ => Z.shiftl (Z.pos mx) s
             | Z.neg _ => 0
             end).
  assert (Hs : 0 <= s) by (unfold s, e'; lia).
  assert (Hm' : 0 <= m' < 2 ^ (d1 + s)).
  { pose proof (digits2_bounds mx) as [_ Hmx]. fold d1 in Hmx.
    unfold m'. destruct s as [|p|p] eqn:Hp.
    - rewrite Z.add_0_r. lia.
    - rewrite Z.shiftl_mul_pow2 by lia. rewrite Z.pow_add_r by lia.
      assert (0 < 2 ^ Z.pos p) by (apply Z.pow_pos_nonneg; lia). nia.
    - lia. }
  pose proof (Z_div_mod m' (Z.pos my) ltac:(lia)) as Hdiv.
  destruct (Z.div_eucl m' (Z.pos my)) as [q r]. destruct Hdiv as [Heq Hr].
  assert (Hq : 0 <= q) by nia.
  assert (Hdq : SpecFloat.Zdigits2 q + e' <= k).
  { pose proof (digits2_bounds my) as [Hmy _]. fold d2 in Hmy.
    assert (Hd2 : 0 <= d2 - 1) by (unfold d2; lia).
    assert (Hpow : 0 < 2 ^ (d2 - 1)) by (apply Z.pow_pos_nonneg; lia).
    assert (Hprod : q * 2 ^ (d2 - 1) < 2 ^ (d1 + s)) by nia.
    destruct (Z_le_gt_dec 0 (d1 + s - (d2 - 1))) as [Ht|Ht].
    - assert (Hlt : q < 2 ^ (d1 + s - (d2 - 1))).
      { replace (d1 + s) with ((d1 + s - (d2 - 1)) + (d2 - 1)) in Hprod by lia.
        rewrite Z.pow_add_r in Hprod by lia. nia. }
      pose proof (digits_below q _ (conj Hq Hlt) Ht). unfold k, s in *. lia.
    - assert (Hsmall : 2 ^ (d1 + s) <= 2 ^ (d2 - 1))
        by (apply Z.pow_le_mono_r; unfold d1 in *; lia).
      assert (q = 0) by nia. subst q. cbn [SpecFloat.Zdigits2].
      unfold k, e'. lia. }
  apply binary_round_aux_below; [exact Hq|exact Hdq| |exact Hlow|exact Hhigh].
  unfold k, e'. unfold d1 in *. lia.
Qed.

(** A double is a NaN exactly when [is_nan] says so. *)
Lemma is_nan_true (x : PrimFloat.float) :
  PrimFloat.is_nan x = true -> x = PrimFloat.nan.
Proof.
  intros H. rewrite <- (FloatAxioms.SF2Prim_Prim2SF x).
  unfold FloatOps.Prim2SF. rewrite H. reflexivity.
Qed.

Lemma is_nan_false (x : PrimFloat.float) :
  PrimFloat.is_nan x = false -> FloatOps.Prim2SF x <> SpecFloat.S754_nan.
Proof.
  intros H. unfold FloatOps.Prim2SF. rewrite H.
  destruct (PrimFloat.is_zero x); [discriminate|].
  destruct (PrimFloat.is_infinity x); [discriminate|].
  destruct (FloatOps.Z.frexp x) as [r exp].
  destruct (SpecFloat.shr_fexp _ _ _ _ _) as [shr e'].
  destruct (SpecFloat.shr_m shr); discriminate.
Qed.

(** The mantissa of a double has at most 53 bits. *)
Lemma mantissa_bits (x : PrimFloat.float) (s : bool) (m : positive) (e : Z) :
  FloatOps.Prim2SF x = SpecFloat.S754_finite s m e ->
  Z.pos (SpecFloat.digits2_pos m) <= 53.
Proof.
  intros H. pose proof (FloatAxioms.Prim2SF_valid x) as Hvalid. rewrite H in Hvalid.
  cbn [SpecFloat.valid_binary] in Hvalid. unfold SpecFloat.bounded in Hvalid.
  apply andb_true_iff in Hvalid as [Hcanon _].
  unfold SpecFloat.canonical_mantissa in Hcanon. rewrite fexp_eq in Hcanon.
  apply Z.eqb_eq in Hcanon. lia.
Qed.

(* ================================================================== *)
(** * The projector: brightness in percent *)
(* ================================================================== *)

Section Brightness.

Import Floats.PrimFloat.

(** A double between 0 and 100 is zero or finite, and below [2 ^ 7]. *)
Lemma percent_below (p : float) :
  is_nan p = false -> (p <? 0)%float = false -> (100 <? p)%float = false ->
  finite_below 7 (FloatOps.Prim2SF p).
Proof.
  intros Hnan Hneg Hbig. apply is_nan_false in Hnan.
  rewrite FloatAxioms.ltb_spec in Hneg, Hbig.
  change (FloatOps.Prim2SF 0) with (SpecFloat.S754_zero false) in Hneg.
  change (FloatOps.Prim2SF 100)
    with (SpecFloat.S754_finite false 7036874417766400 (-46)) in Hbig.
  pose proof (mantissa_bits p) as Hbits.
  destruct (FloatOps.Prim2SF p) as [s|s| |s m e]; [exact I| |contradiction|].
  - destruct s; discriminate.
  - specialize (Hbits s m e eq_refl). destruct s; [discriminate Hneg|].
    cbn [finite_below]. unfold SpecFloat.SFltb, SpecFloat.SFcompare in Hbig.
    destruct (Z.compare_spec (-46) e) as [He|He|He]; [lia|discriminate Hbig|lia].
Qed.

(** The integer part of a double that is zero or finite. *)
Lemma int_of_finite (x : float) (k : Z) :
  finite_below k (FloatOps.Prim2SF x) ->
  exists v : Z, I2C_DLP_HDMI.int_of_float x = Some v.
Proof.
  unfold I2C_DLP_HDMI.int_of_float.
  destruct (FloatOps.Prim2SF x) as [s|s| |s m e]; try contradiction; eauto.
Qed.

(** X18. The brightness in percent.  A percentage below zero is taken
    as 0 and sets the current 0; one above 100 is taken as 100 and sets
    the current 1023; 50 sets 511.  Every number that is not a NaN, the
    two infinities among them, sets a current in 0..1023; a NaN, and
    nothing else, raises before anything is written. *)
Theorem brightness_percent_is_clamped (percent : PrimFloat.float) (b : I2C_DLP_HDMI.bus) :
  (PrimFloat.ltb percent 0%float = true ->
   I2C_DLP_HDMI.dlp_set_blue_brightness_percent percent b
   = I2C_DLP_HDMI.dlp_set_blue_current 0 b)
  /\ (PrimFloat.ltb percent 0%float = false -> PrimFloat.ltb 100%float percent = true ->
      I2C_DLP_HDMI.dlp_set_blue_brightness_percent percent b
      = I2C_DLP_HDMI.dlp_set_blue_current 1023 b)
  /\ (PrimFloat.is_nan percent = false ->
      exists v : Z,
        0 <= v <= 1023
        /\ I2C_DLP_HDMI.dlp_set_blue_brightness_percent percent b
           = I2C_DLP_HDMI.dlp_set_blue_current v b)
  /\ (PrimFloat.is_nan percent = true ->
      I2C_DLP_HDMI.dlp_set_blue_brightness_percent percent b
      = (Fail I2C_DLP_HDMI.NotANumber, b))
  /\ I2C_DLP_HDMI.dlp_set_blue_brightness_percent 50%float b
     = I2C_DLP_HDMI.dlp_set_blue_current 511 b.
Proof.
  assert (Hlow : PrimFloat.ltb percent 0%float = true ->
                 I2C_DLP_HDMI.dlp_set_blue_brightness_percent percent b
                 = I2C_DLP_HDMI.dlp_set_blue_current 0 b).
  { intros Hneg. unfold I2C_DLP_HDMI.dlp_set_blue_brightness_percent. cbv zeta.
    rewrite Hneg. reflexivity. }
  assert (Hhigh : PrimFloat.ltb percent 0%float = false ->
                  PrimFloat.ltb 100%float percent = true ->
                  I2C_DLP_HDMI.dlp_set_blue_brightness_percent percent b
                  = I2C_DLP_HDMI.dlp_set_blue_current 1023 b).
  { intros Hpos Hbig. unfold I2C_DLP_HDMI.dlp_set_blue_brightness_percent. cbv zeta.
    rewrite Hpos, Hbig. reflexivity. }
  split; [exact Hlow|]. split; [exact Hhigh|]. split; [|split].
  - intros Hnan.
    destruct (PrimFloat.ltb percent 0%float) eqn:Hneg;
      [exists 0; split; [lia|auto]|].
    destruct (PrimFloat.ltb 100%float percent) eqn:Hbig;
      [exists 1023; split; [lia|auto]|].
    pose proof (percent_below percent Hnan Hneg Hbig) as Hp.
    assert (Hquot : finite_below 2 (FloatOps.Prim2SF (percent / 100))).
    { rewrite FloatAxioms.div_spec.
      change (FloatOps.Prim2SF 100)
        with (SpecFloat.S754_finite false 7036874417766400 (-46)).
      apply (SFdiv_below _ false 7036874417766400 (-46) 7 Hp); cbn; lia. }
    assert (Hprod : finite_below 13 (FloatOps.Prim2SF (1023 * (percent / 100)))).
    { rewrite FloatAxioms.mul_spec.
      apply (SFmul_below _ _ 10 2); [|exact Hquot|lia|lia].
      change (FloatOps.Prim2SF 1023)
        with (SpecFloat.S754_finite false 8998403161718784 (-43)).
      cbn. lia. }
    destruct (int_of_finite _ _ Hprod) as [raw Hraw].
    exists (Z.max 0 (Z.min raw 1023)). split; [lia|].
    unfold I2C_DLP_HDMI.dlp_set_blue_brightness_percent. cbv zeta.
    rewrite Hneg, Hbig, Hraw. apply set_blue_current_of_clamp.
  - intros Hnan. rewrite (is_nan_true percent Hnan). reflexivity.
  - reflexivity.
Qed.

End Brightness.

(* ================================================================== *)
(** * The projector: what its methods put on the bus *)
(* ================================================================== *)

Lemma sends_ret : sends [] (io_ret tt).
Proof.
  intros b b' r H. inversion H; subst. rewrite app_nil_r.
  split; [reflexivity|]. split; [discriminate|reflexivity].
Qed.

Lemma sends_write (cmd : Z) (data : list Z) :
  sends (sent cmd (map (fun x => Z.land x 255) data))
    (I2C_DLP_HDMI.dlp_write_cmd cmd (Some data)).
Proof.
  intros b b' r. unfold I2C_DLP_HDMI.dlp_write_cmd. cbv zeta.
  destruct (I2C_DLP_HDMI.refuses b _ _ _); intros H; inversion H; subst;
    (split; [reflexivity|]); (split; [discriminate|]);
    first [discriminate | reflexivity].
Qed.

Lemma sends_bind (e1 e2 : list I2C_DLP_HDMI.bus_event)
    (m k : IO I2C_DLP_HDMI.error I2C_DLP_HDMI.bus unit) :
  sends e1 m -> sends e2 k -> sends (e1 ++ e2) (io_bind m (fun _ => k)).
Proof.
  intros Hm Hk b b' r. unfold io_bind.
  destruct (m b) as [[[]|e|] b1] eqn:Hmb; intros H.
  - apply Hm in Hmb as (Hf1 & _ & Hw1). apply Hk in H as (Hf2 & Hs2 & Hw2).
    split; [congruence|]. split; [exact Hs2|].
    intros Hr. rewrite (Hw2 Hr), (Hw1 eq_refl), app_assoc. reflexivity.
  - apply Hm in Hmb as (Hf1 & _ & _). inversion H; subst.
    split; [exact Hf1|]. split; discriminate.
  - apply Hm in Hmb as (_ & Hs & _). congruence.
Qed.

Lemma sends_video :
  sends video_setup I2C_DLP_HDMI.dlp_setup_external_video_1920x1080_RGB888.
Proof.
  unfold I2C_DLP_HDMI.dlp_setup_external_video_1920x1080_RGB888, video_setup.
  cbv zeta. repeat apply sends_bind; apply sends_write.
Qed.

Lemma sends_blue_current (v : Z) :
  0 <= v <= 1023 -> sends (sent 84 (current_bytes v)) (I2C_DLP_HDMI.dlp_set_blue_current v).
Proof.
  intros Hv b b' r H. rewrite set_blue_current_clamped in H.
  replace (Z.max 0 (Z.min v 1023)) with v in H by lia.
  apply sends_write in H. cbn [map] in H.
  pose proof (blue_current_bytes v Hv) as Hbytes. cbn [map] in Hbytes.
  unfold I2C_DLP_HDMI.low_byte at 1 2, I2C_DLP_HDMI.high_byte at 1 2 in Hbytes.
  change (Z.land (Z.land 0 255) 255) with 0 in Hbytes.
  change (Z.land (Z.land (Z.shiftr 0 8) 255) 255) with 0 in Hbytes.
  change (Z.land 0 255) with 0 in H.
  unfold current_bytes. rewrite <- Hbytes. exact H.
Qed.

Lemma sends_blue_setup : sends blue_setup I2C_DLP_HDMI.dlp_setup_blue_only.
Proof.
  unfold I2C_DLP_HDMI.dlp_setup_blue_only, blue_setup.
  apply sends_bind; [apply (sends_write 80 [0])|].
  apply sends_bind; [apply sends_blue_current; unfold I2C_DLP_HDMI.DEFAULT_BLUE_CURRENT; lia|].
  apply (sends_write 82 [4]).
Qed.

Lemma sends_brightness (p : PrimFloat.float) :
  exists v : Z,
    0 <= v <= 1023
    /\ sends (sent 84 (current_bytes v)) (I2C_DLP_HDMI.dlp_set_blue_brightness_percent p).
Proof.
  unfold I2C_DLP_HDMI.dlp_set_blue_brightness_percent. cbv zeta.
  match goal with
  | |- context [I2C_DLP_HDMI.int_of_float ?x] =>
      destruct (I2C_DLP_HDMI.int_of_float x) as [raw|]
  end.
  - exists (Z.max 0 (Z.min raw 1023)). split; [lia|].
    intros b b' r H. rewrite set_blue_current_of_clamp in H.
    revert H. apply sends_blue_current. lia.
  - exists 0. split; [lia|]. intros b b' r H. inversion H; subst.
    split; [reflexivity|]. split; discriminate.
Qed.

Lemma sends_init_program (percent : option PrimFloat.float) :
  exists brightness : list I2C_DLP_HDMI.bus_event,
    sends (video_setup ++ blue_setup ++ brightness ++ sent 82 [0]) (init_program percent)
    /\ (percent = None -> brightness = [])
    /\ (forall p, percent = Some p ->
        exists v : Z, 0 <= v <= 1023 /\ brightness = sent 84 (current_bytes v)).
Proof.
  unfold init_program. destruct percent as [p|].
  - destruct (sends_brightness p) as (v & Hv & Hsends).
    exists (sent 84 (current_bytes v)). split; [|split; [discriminate|eauto]].
    apply sends_bind; [apply sends_video|].
    apply sends_bind; [apply sends_blue_setup|].
    apply sends_bind; [exact Hsends|apply (sends_write 82 [0])].
  - exists []. split; [|split; [reflexivity|discriminate]].
    apply sends_bind; [apply sends_video|].
    apply sends_bind; [apply sends_blue_setup|].
    apply (sends_bind [] _ (io_ret tt)); [apply sends_ret|apply (sends_write 82 [0])].
Qed.

(** [init] on a projector that is enabled, with its driver, and not
    ready. *)
Lemma init_unfold (self : projector_control.DlpProjector) (mc : projector_control.machine) :
  projector_control.enabled (projector_control.cfg self) = true ->
  projector_control.dlp mc = true ->
  projector_control._ready self = false ->
  projector_control.init (self, mc)
  = match init_program (projector_control.blue_brightness_percent
                          (projector_control.cfg self)) (projector_control.i2c mc) with
    | (Done _, b) =>
        (Done tt,
         (projector_control.mkDlpProjector (projector_control.cfg self) true,
          projector_control.mkMachine true b))
    | (Fail e, b) => (Fail e, (self, projector_control.mkMachine true b))
    | (Spent, b) => (Spent, (self, projector_control.mkMachine true b))
    end.
Proof.
  intros Henabled Hdlp Hready. destruct mc as [d b0]. cbn in Hdlp. subst d.
  unfold projector_control.init, init_program, io_bind,
    projector_control.get_projector, projector_control.get_machine,
    projector_control.on_bus, projector_control.set_ready, io_ret, io_fail.
  cbn [fst snd]. rewrite Henabled. cbn [negb fst snd projector_control.dlp].
  rewrite Hready.
  cbn [fst snd projector_control.dlp projector_control.i2c projector_control.cfg].
  destruct (I2C_DLP_HDMI.dlp_setup_external_video_1920x1080_RGB888 b0) as [[[]|e|] b1];
    cbn [fst snd projector_control.dlp projector_control.i2c]; try reflexivity.
  destruct (I2C_DLP_HDMI.dlp_setup_blue_only b1) as [[[]|e|] b2];
    cbn [fst snd projector_control.dlp projector_control.i2c]; try reflexivity.
  destruct (projector_control.blue_brightness_percent (projector_control.cfg self))
    as [p|]; cbn [fst snd projector_control.dlp projector_control.i2c].
  - destruct (I2C_DLP_HDMI.dlp_set_blue_brightness_percent p b2) as [[[]|e|] b3];
      cbn [fst snd projector_control.dlp projector_control.i2c]; try reflexivity.
    destruct (I2C_DLP_HDMI.dlp_all_leds_off b3) as [[[]|e|] b4]; reflexivity.
  - destruct (I2C_DLP_HDMI.dlp_all_leds_off b2) as [[[]|e|] b4]; reflexivity.
Qed.

(** X19. A projector that is switched off in its configuration never
    touches the bus and never fails: [init], [on] and [off] return at
    once, also when the driver could not be imported.  A projector that is
    enabled while the driver is missing fails in all three methods, before
    any byte is written, and stays as it was. *)
Theorem projector_disabled_or_without_driver
    (self : projector_control.DlpProjector) (mc : projector_control.machine) :
  (projector_control.enabled (projector_control.cfg self) = false ->
   projector_control.init (self, mc) = (Done tt, (self, mc))
   /\ projector_control.on (self, mc) = (Done tt, (self, mc))
   /\ projector_control.off (self, mc) = (Done tt, (self, mc)))
  /\ (projector_control.enabled (projector_control.cfg self) = true ->
      projector_control.dlp mc = false ->
      projector_control.init (self, mc) = (Fail I2C_DLP_HDMI.ImportFailed, (self, mc))
      /\ projector_control.on (self, mc) = (Fail I2C_DLP_HDMI.ImportFailed, (self, mc))
      /\ projector_control.off (self, mc) = (Fail I2C_DLP_HDMI.ImportFailed, (self, mc))).
Proof.
  split.
  - intros Hoff.
    unfold projector_control.on, projector_control.off, projector_control.init,
      io_bind, projector_control.get_projector, io_ret.
    cbn [fst snd]. rewrite Hoff. cbn [negb]. auto.
  - intros Hen Hdlp.
    assert (Hinit : projector_control.init (self, mc)
                    = (Fail I2C_DLP_HDMI.ImportFailed, (self, mc))).
    { unfold projector_control.init, io_bind, projector_control.get_projector,
        projector_control.get_machine, io_fail.
      cbn [fst snd]. rewrite Hen. cbn [negb fst snd]. rewrite Hdlp. reflexivity. }
    split; [exact Hinit|].
    unfold projector_control.on, projector_control.off, io_bind,
      projector_control.get_projector.
    cbn [fst snd]. rewrite Hen. cbn [negb]. rewrite Hinit. auto.
Qed.

(** X20. [init] of an enabled projector that is not ready, with its
    driver: whatever the bus does, the configuration is kept, and the
    projector is ready afterwards exactly when [init] returned normally.
    In that case the bus has taken, in this order, the video set-up, the
    blue set-up (default current 512, blue LED enabled), the configured
    brightness if there is one (a current of at most ten bits), and last
    the command that turns all LEDs off. *)
Theorem init_sets_up_or_stays_unready
    (self : projector_control.DlpProjector) (mc : projector_control.machine)
    (r : res I2C_DLP_HDMI.error unit)
    (s' : projector_control.DlpProjector * projector_control.machine) :
  projector_control.enabled (projector_control.cfg self) = true ->
  projector_control.dlp mc = true ->
  projector_control._ready self = false ->
  projector_control.init (self, mc) = (r, s') ->
  projector_control.cfg (fst s') = projector_control.cfg self
  /\ projector_control.dlp (snd s') = true
  /\ r <> Spent
  /\ (projector_control._ready (fst s') = true <-> r = Done tt)
  /\ (r = Done tt ->
      exists brightness : list I2C_DLP_HDMI.bus_event,
        I2C_DLP_HDMI.wire (projector_control.i2c (snd s'))
        = (I2C_DLP_HDMI.wire (projector_control.i2c mc)
           ++ video_setup ++ blue_setup ++ brightness ++ sent 82 [0])%list
        /\ (projector_control.blue_brightness_percent (projector_control.cfg self) = None ->
            brightness = [])
        /\ (forall p : PrimFloat.float,
            projector_control.blue_brightness_percent (projector_control.cfg self) = Some p ->
            exists v : Z, 0 <= v <= 1023 /\ brightness = sent 84 (current_bytes v))).
Proof.
  intros Hen Hdlp Hready Hinit.
  rewrite (init_unfold self mc Hen Hdlp Hready) in Hinit.
  destruct (sends_init_program
              (projector_control.blue_brightness_percent (projector_control.cfg self)))
    as (brightness & Hsends & Hnone & Hsome).
  destruct (init_program _ (projector_control.i2c mc)) as [r0 b] eqn:Hprog.
  apply Hsends in Hprog as (_ & Hspent & Hwire).
  destruct r0 as [[]|e|]; inversion Hinit; subst; cbn [fst snd
    projector_control.cfg projector_control.dlp projector_control._ready
    projector_control.i2c].
  - split; [reflexivity|]. split; [reflexivity|]. split; [discriminate|].
    split; [tauto|]. intros _. exists brightness. auto.
  - split; [reflexivity|]. split; [reflexivity|]. split; [discriminate|].
    rewrite Hready. split; [split; discriminate|discriminate].
  - contradiction Hspent. reflexivity.
Qed.

Lemma init_sets_up_or_stays_unready_witness :
  let self := projector_control.new_projector
                (projector_control.mkProjectorConfig true None) in
  let mc := projector_control.mkMachine true
              (I2C_DLP_HDMI.mkBus [] (fun _ _ _ => false)) in
  projector_control._ready (fst (snd (projector_control.init (self, mc)))) = true
  <-> fst (projector_control.init (self, mc)) = Done tt.
Proof.
  cbv zeta.
  apply (init_sets_up_or_stays_unready
           (projector_control.new_projector (projector_control.mkProjectorConfig true None))
           (projector_control.mkMachine true (I2C_DLP_HDMI.mkBus [] (fun _ _ _ => false)))
           _ _ eq_refl eq_refl eq_refl).
  vm_compute. reflexivity.
Defined.

(* ================================================================== *)
(** * The projector: the LED enable register *)
(* ================================================================== *)

Lemma led_enable_app (h t : list I2C_DLP_HDMI.bus_event) :
  led_enable (h ++ t)
  = match led_enable t with Some d => Some d | None => led_enable h end.
Proof.
  induction h as [|e h IH]; cbn [app led_enable].
  - destruct (led_enable t); reflexivity.
  - rewrite IH. destruct (led_enable t); reflexivity.
Qed.

Lemma led_enable_sent (h : list I2C_DLP_HDMI.bus_event) (d : list Z) :
  led_enable (h ++ sent 82 d) = Some d.
Proof. rewrite led_enable_app. reflexivity. Qed.

(** A normal return of [init] on an enabled projector leaves it ready. *)
Lemma init_Done_ready (self : projector_control.DlpProjector)
    (mc : projector_control.machine)
    (s1 : projector_control.DlpProjector * projector_control.machine) :
  projector_control.enabled (projector_control.cfg self) = true ->
  projector_control.init (self, mc) = (Done tt, s1) ->
  projector_control._ready (fst s1) = true
  /\ projector_control.cfg (fst s1) = projector_control.cfg self
  /\ projector_control.dlp (snd s1) = true.
Proof.
  intros Hen Hinit.
  destruct (projector_control.dlp mc) eqn:Hdlp.
  - destruct (projector_control._ready self) eqn:Hready.
    + unfold projector_control.init, io_bind, projector_control.get_projector,
        projector_control.get_machine, io_ret in Hinit.
      cbn [fst snd] in Hinit. rewrite Hen in Hinit. cbn [negb fst snd] in Hinit.
      rewrite Hdlp, Hready in Hinit. cbn [negb] in Hinit.
      inversion Hinit; subst. cbn [fst snd]. auto.
    + rewrite (init_unfold self mc Hen Hdlp Hready) in Hinit.
      destruct (init_program _ _) as [[[]|e|] b]; inversion Hinit; subst.
      cbn. auto.
  - unfold projector_control.init, io_bind, projector_control.get_projector,
      projector_control.get_machine, io_fail in Hinit.
    cbn [fst snd] in Hinit. rewrite Hen in Hinit. cbn [negb fst snd] in Hinit.
    rewrite Hdlp in Hinit. cbn [negb] in Hinit. discriminate.
Qed.

(** [init] on a projector that is ready. *)
Lemma init_ready (s : projector_control.DlpProjector * projector_control.machine) :
  projector_control._ready (fst s) = true ->
  projector_control.dlp (snd s) = true ->
  projector_control.init s = (Done tt, s).
Proof.
  intros Hready Hdlp. destruct s as [self mc]. cbn [fst snd] in Hready, Hdlp.
  unfold projector_control.init, io_bind, projector_control.get_projector,
    projector_control.get_machine, io_ret.
  cbn [fst snd].
  destruct (projector_control.enabled (projector_control.cfg self));
    cbn [negb fst snd]; [|reflexivity].
  rewrite Hdlp, Hready. reflexivity.
Qed.

(** A write of the driver, seen from the projector. *)
Lemma on_bus_write (cmd : Z) (data : list Z)
    (s s' : projector_control.DlpProjector * projector_control.machine)
    (r : res I2C_DLP_HDMI.error unit) :
  projector_control.on_bus (I2C_DLP_HDMI.dlp_write_cmd cmd (Some data)) s = (r, s') ->
  fst s' = fst s
  /\ projector_control.dlp (snd s') = projector_control.dlp (snd s)
  /\ ((r = Done tt
       /\ I2C_DLP_HDMI.wire (projector_control.i2c (snd s'))
          = (I2C_DLP_HDMI.wire (projector_control.i2c (snd s))
             ++ sent cmd (map (fun x => Z.land x 255) data))%list)
      \/ (r = Fail (I2C_DLP_HDMI.BusError cmd (map (fun x => Z.land x 255) data))
          /\ I2C_DLP_HDMI.wire (projector_control.i2c (snd s'))
             = (I2C_DLP_HDMI.wire (projector_control.i2c (snd s))
                ++ [I2C_DLP_HDMI.Refused 27 cmd (map (fun x => Z.land x 255) data)])%list)).
Proof.
  unfold projector_control.on_bus, I2C_DLP_HDMI.dlp_write_cmd. cbv zeta.
  destruct (I2C_DLP_HDMI.refuses _ _ _ _); intros H; inversion H; subst;
    cbn [fst snd projector_control.dlp projector_control.i2c I2C_DLP_HDMI.wire];
    (split; [reflexivity|]); (split; [reflexivity|]); [right|left];
    split; reflexivity.
Qed.

(** [on] and [off] of an enabled projector: [init], then one write. *)
Lemma switch_unfold (k : IO I2C_DLP_HDMI.error I2C_DLP_HDMI.bus unit)
    (self : projector_control.DlpProjector) (mc : projector_control.machine) :
  projector_control.enabled (projector_control.cfg self) = true ->
  io_bind projector_control.get_projector (fun self0 =>
    if negb (projector_control.enabled (projector_control.cfg self0)) then io_ret tt
    else io_bind projector_control.init (fun _ => projector_control.on_bus k)) (self, mc)
  = match projector_control.init (self, mc) with
    | (Done _, s1) => projector_control.on_bus k s1
    | (Fail e, s1) => (Fail e, s1)
    | (Spent, s1) => (Spent, s1)
    end.
Proof.
  intros Hen. unfold io_bind at 1, projector_control.get_projector.
  cbn [fst snd]. rewrite Hen. cbn [negb]. unfold io_bind.
  destruct (projector_control.init (self, mc)) as [[[]|e|] s1]; reflexivity.
Qed.

(** The LED enable register after a switch that returned normally. *)
Lemma switch_sets_led (d : Z)
    (self : projector_control.DlpProjector) (mc : projector_control.machine)
    (s' : projector_control.DlpProjector * projector_control.machine) :
  projector_control.enabled (projector_control.cfg self) = true ->
  Z.land d 255 = d ->
  match projector_control.init (self, mc) with
  | (Done _, s1) => projector_control.on_bus (I2C_DLP_HDMI.dlp_write_cmd 82 (Some [d])) s1
  | (Fail e, s1) => (Fail e, s1)
  | (Spent, s1) => (Spent, s1)
  end = (Done tt, s') ->
  led_enable (I2C_DLP_HDMI.wire (projector_control.i2c (snd s'))) = Some [d]
  /\ projector_control._ready (fst s') = true.
Proof.
  intros Hen Hd H.
  destruct (projector_control.init (self, mc)) as [[[]|e|] s1] eqn:Hinit;
    try discriminate.
  apply (init_Done_ready self mc s1 Hen) in Hinit as (Hready & _ & _).
  apply on_bus_write in H as (Hself & _ & [[_ Hwire]|[Hr _]]); [|discriminate].
  rewrite Hwire, Hself. cbn [map]. rewrite Hd. split; [apply led_enable_sent|exact Hready].
Qed.

(** X21. The LED enable register of the projector, read off the bus as
    the data of the last write of command 0x52 that was taken.  When [on]
    of an enabled projector returns normally the register holds 4 (blue
    LED only); when [off] returns normally it holds 0 (all LEDs off).  In
    both cases the projector is ready afterwards.  This holds for a fresh
    projector, where the call runs the whole initialisation first, and for
    a ready one. *)
Theorem on_and_off_set_the_led_enable
    (self : projector_control.DlpProjector) (mc : projector_control.machine)
    (s' : projector_control.DlpProjector * projector_control.machine) :
  projector_control.enabled (projector_control.cfg self) = true ->
  (projector_control.on (self, mc) = (Done tt, s') ->
   led_enable (I2C_DLP_HDMI.wire (projector_control.i2c (snd s'))) = Some [4]
   /\ projector_control._ready (fst s') = true)
  /\ (projector_control.off (self, mc) = (Done tt, s') ->
      led_enable (I2C_DLP_HDMI.wire (projector_control.i2c (snd s'))) = Some [0]
      /\ projector_control._ready (fst s') = true).
Proof.
  intros Hen. split; intros H.
  - unfold projector_control.on in H. rewrite (switch_unfold _ self mc Hen) in H.
    revert H. apply (switch_sets_led 4 self mc s' Hen). reflexivity.
  - unfold projector_control.off in H. rewrite (switch_unfold _ self mc Hen) in H.
    revert H. apply (switch_sets_led 0 self mc s' Hen). reflexivity.
Qed.

Lemma on_and_off_set_the_led_enable_witness :
  led_enable
    (I2C_DLP_HDMI.wire
       (projector_control.i2c
          (snd (snd (projector_control.on
                       (projector_control.new_projector
                          (projector_control.mkProjectorConfig true None),
                        projector_control.mkMachine true
                          (I2C_DLP_HDMI.mkBus [] (fun _ _ _ => false)))))))) = Some [4]
  /\ projector_control._ready
       (fst (snd (projector_control.on
                    (projector_control.new_projector
                       (projector_control.mkProjectorConfig true None),
                     projector_control.mkMachine true
                       (I2C_DLP_HDMI.mkBus [] (fun _ _ _ => false)))))) = true.
Proof.
  apply (on_and_off_set_the_led_enable
           (projector_control.new_projector (projector_control.mkProjectorConfig true None))
           (projector_control.mkMachine true (I2C_DLP_HDMI.mkBus [] (fun _ _ _ => false)))
           _ eq_refl).
  vm_compute. reflexivity.
Defined.

(** X22. Once [init] has returned normally, the projector is set up for
    good: a further [init] does nothing, and on an enabled projector [on]
    and [off] come down to a single write of the LED enable command, with
    data 4 and 0, which the bus takes or refuses; the set-up is not sent
    again and the projector stays as it is. *)
Theorem ready_projector_switches_with_one_write
    (s s' : projector_control.DlpProjector * projector_control.machine) :
  projector_control.init s = (Done tt, s') ->
  projector_control.init s' = (Done tt, s')
  /\ (projector_control.enabled (projector_control.cfg (fst s)) = true ->
      forall (r : res I2C_DLP_HDMI.error unit)
             (s'' : projector_control.DlpProjector * projector_control.machine),
        (projector_control.on s' = (r, s'') ->
         fst s'' = fst s'
         /\ ((r = Done tt
              /\ I2C_DLP_HDMI.wire (projector_control.i2c (snd s''))
                 = (I2C_DLP_HDMI.wire (projector_control.i2c (snd s')) ++ sent 82 [4])%list)
             \/ (r = Fail (I2C_DLP_HDMI.BusError 82 [4])
                 /\ I2C_DLP_HDMI.wire (projector_control.i2c (snd s''))
                    = (I2C_DLP_HDMI.wire (projector_control.i2c (snd s'))
                       ++ [I2C_DLP_HDMI.Refused 27 82 [4]])%list)))
        /\ (projector_control.off s' = (r, s'') ->
            fst s'' = fst s'
            /\ ((r = Done tt
                 /\ I2C_DLP_HDMI.wire (projector_control.i2c (snd s''))
                    = (I2C_DLP_HDMI.wire (projector_control.i2c (snd s')) ++ sent 82 [0])%list)
                \/ (r = Fail (I2C_DLP_HDMI.BusError 82 [0])
                    /\ I2C_DLP_HDMI.wire (projector_control.i2c (snd s''))
                       = (I2C_DLP_HDMI.wire (projector_control.i2c (snd s'))
                          ++ [I2C_DLP_HDMI.Refused 27 82 [0]])%list)))).
Proof.
  intros Hinit. destruct s as [self mc].
  destruct (projector_control.enabled (projector_control.cfg self)) eqn:Hen.
  - destruct (init_Done_ready self mc s' Hen Hinit) as (Hready & Hcfg & Hdlp).
    pose proof (init_ready s' Hready Hdlp) as Hagain.
    split; [exact Hagain|]. intros _ r s''.
    assert (Hen' : projector_control.enabled (projector_control.cfg (fst s')) = true)
      by (rewrite Hcfg; exact Hen).
    destruct s' as [self' mc']. cbn [fst] in Hen'.
    split; intros H.
    + unfold projector_control.on in H.
      rewrite (switch_unfold _ self' mc' Hen'), Hagain in H.
      apply on_bus_write in H as (Hself & _ & Hwire). split; [exact Hself|exact Hwire].
    + unfold projector_control.off in H.
      rewrite (switch_unfold _ self' mc' Hen'), Hagain in H.
      apply on_bus_write in H as (Hself & _ & Hwire). split; [exact Hself|exact Hwire].
  - split; [|cbn [fst]; intros Habs; rewrite Hen in Habs; discriminate].
    unfold projector_control.init, io_bind, projector_control.get_projector, io_ret in Hinit.
    cbn [fst snd] in Hinit. rewrite Hen in Hinit. cbn [negb] in Hinit.
    inversion Hinit; subst.
    unfold projector_control.init, io_bind, projector_control.get_projector, io_ret.
    cbn [fst snd]. rewrite Hen. reflexivity.
Qed.

Lemma ready_projector_switches_with_one_write_witness :
  projector_control.init
    (snd (projector_control.init
            (projector_control.new_projector (projector_control.mkProjectorConfig true None),
             projector_control.mkMachine true (I2C_DLP_HDMI.mkBus [] (fun _ _ _ => false)))))
  = (Done tt,
     snd (projector_control.init
            (projector_control.new_projector (projector_control.mkProjectorConfig true None),
             projector_control.mkMachine true (I2C_DLP_HDMI.mkBus [] (fun _ _ _ => false))))).
Proof.
  apply (ready_projector_switches_with_one_write
           (projector_control.new_projector (projector_control.mkProjectorConfig true None),
            projector_control.mkMachine true (I2C_DLP_HDMI.mkBus [] (fun _ _ _ => false)))).
  vm_compute. reflexivity.
Defined.

(* ================================================================== *)
(** * The projector: only safe bytes *)
(* ================================================================== *)

Lemma masked_bytes (data : list Z) : Forall is_byte (map (fun x => Z.land x 255) data).
Proof.
  induction data as [|x data IH]; cbn [map]; constructor; [|exact IH].
  unfold is_byte. rewrite land_255.
  pose proof (Z.mod_pos_bound x 256 ltac:(lia)). lia.
Qed.

Lemma taken_app (a b : list I2C_DLP_HDMI.bus_event) :
  taken a -> taken b -> taken (a ++ b).
Proof.
  induction 1 as [|cmd data rest Hsafe _ IH]; intros Hb; [exact Hb|].
  rewrite <- app_assoc. apply taken_cons; auto.
Qed.

Lemma safe_wire_app {A} (before evs : list I2C_DLP_HDMI.bus_event)
    (r : res I2C_DLP_HDMI.error A) :
  taken before -> safe_wire r evs -> safe_wire r (before ++ evs).
Proof.
  intros Hbefore. destruct r as [a|[|cmd data|]|]; cbn [safe_wire];
    try (apply taken_app; exact Hbefore).
  intros (mid & -> & Hmid & Hsafe). exists (before ++ mid)%list.
  rewrite app_assoc. auto using taken_app.
Qed.

(** A failure keeps its wire when it goes up through a bind. *)
Lemma safe_wire_fail {A B} (e : I2C_DLP_HDMI.error) (evs : list I2C_DLP_HDMI.bus_event) :
  safe_wire (A := A) (Fail e) evs -> safe_wire (A := B) (Fail e) evs.
Proof. intros H. exact H. Qed.

Lemma stays_safe_write (cmd : Z) (data : list Z) :
  (cmd = 82 -> map (fun x => Z.land x 255) data = [0]
               \/ map (fun x => Z.land x 255) data = [4]) ->
  (cmd = 84 -> exists v : Z,
      0 <= v <= 1023 /\ map (fun x => Z.land x 255) data = current_bytes v) ->
  stays_safe (I2C_DLP_HDMI.dlp_write_cmd cmd (Some data)).
Proof.
  intros Hled Hcur b b' r. unfold I2C_DLP_HDMI.dlp_write_cmd. cbv zeta.
  assert (Hsafe : safe_command cmd (map (fun x => Z.land x 255) data)).
  { split; [apply masked_bytes|]. split; assumption. }
  destruct (I2C_DLP_HDMI.refuses _ _ _ _); intros H; inversion H; subst;
    cbn [I2C_DLP_HDMI.wire]; eexists; (split; [reflexivity|]).
  - exists []. split; [reflexivity|]. split; [constructor|exact Hsafe].
  - apply (taken_cons cmd _ []); [exact Hsafe|constructor].
Qed.

Lemma stays_safe_plain (cmd : Z) (data : list Z) :
  cmd <> 82 -> cmd <> 84 -> stays_safe (I2C_DLP_HDMI.dlp_write_cmd cmd (Some data)).
Proof.
  intros H82 H84. apply stays_safe_write; intros Habs; contradiction.
Qed.

Lemma stays_safe_nan {A} :
  stays_safe (io_fail (A := A) I2C_DLP_HDMI.NotANumber).
Proof.
  intros b b' r H. inversion H; subst. exists []. rewrite app_nil_r.
  split; [reflexivity|constructor].
Qed.

Lemma stays_safe_bind {A B} (m : IO I2C_DLP_HDMI.error I2C_DLP_HDMI.bus A)
    (k : A -> IO I2C_DLP_HDMI.error I2C_DLP_HDMI.bus B) :
  stays_safe m -> (forall a, stays_safe (k a)) -> stays_safe (io_bind m k).
Proof.
  intros Hm Hk b b' r. unfold io_bind.
  destruct (m b) as [[a|e|] b1] eqn:Hmb; intros H;
    apply Hm in Hmb as (e1 & Hw1 & Hs1).
  - apply Hk in H as (e2 & Hw2 & Hs2). exists (e1 ++ e2)%list.
    rewrite Hw2, Hw1, app_assoc. split; [reflexivity|].
    apply safe_wire_app; assumption.
  - inversion H; subst. exists e1. split; [assumption|].
    apply (safe_wire_fail (A := A)), Hs1.
  - inversion H; subst. exists e1. split; assumption.
Qed.

Lemma stays_safe_led (d : Z) :
  d = 0 \/ d = 4 -> stays_safe (I2C_DLP_HDMI.dlp_write_cmd 82 (Some [d])).
Proof.
  intros [Hd|Hd]; subst d; apply stays_safe_write;
    solve [ intros _; cbn; auto | intros Habs; discriminate ].
Qed.

Lemma stays_safe_blue_current (raw : Z) :
  stays_safe (I2C_DLP_HDMI.dlp_set_blue_current raw).
Proof.
  intros b b' r H. rewrite set_blue_current_clamped in H. revert H.
  apply stays_safe_write; [intros Habs; discriminate|].
  intros _. exists (Z.max 0 (Z.min raw 1023)). split; [lia|].
  pose proof (blue_current_bytes (Z.max 0 (Z.min raw 1023)) ltac:(lia)) as Hbytes.
  cbn [map] in Hbytes |- *.
  unfold I2C_DLP_HDMI.low_byte at 1 2, I2C_DLP_HDMI.high_byte at 1 2 in Hbytes.
  change (Z.land (Z.land 0 255) 255) with 0 in Hbytes.
  change (Z.land (Z.land (Z.shiftr 0 8) 255) 255) with 0 in Hbytes.
  change (Z.land 0 255) with 0. exact Hbytes.
Qed.

Lemma stays_safe_brightness (p : PrimFloat.float) :
  stays_safe (I2C_DLP_HDMI.dlp_set_blue_brightness_percent p).
Proof.
  unfold I2C_DLP_HDMI.dlp_set_blue_brightness_percent. cbv zeta.
  match goal with
  | |- context [I2C_DLP_HDMI.int_of_float ?x] =>
      destruct (I2C_DLP_HDMI.int_of_float x) as [raw|]
  end; [apply stays_safe_blue_current|apply stays_safe_nan].
Qed.

Lemma stays_safe_blue_setup : stays_safe I2C_DLP_HDMI.dlp_setup_blue_only.
Proof.
  unfold I2C_DLP_HDMI.dlp_setup_blue_only.
  apply stays_safe_bind; [apply stays_safe_plain; discriminate|intros _].
  apply stays_safe_bind; [apply stays_safe_blue_current|intros _].
  apply stays_safe_led. auto.
Qed.

Lemma stays_safe_video :
  stays_safe I2C_DLP_HDMI.dlp_setup_external_video_1920x1080_RGB888.
Proof.
  unfold I2C_DLP_HDMI.dlp_setup_external_video_1920x1080_RGB888. cbv zeta.
  apply stays_safe_bind; [apply stays_safe_plain; discriminate|intros _].
  apply stays_safe_bind; [apply stays_safe_plain; discriminate|intros _].
  apply stays_safe_bind; [apply stays_safe_plain; discriminate|intros _].
  apply stays_safe_plain; discriminate.
Qed.

(** A step that leaves the bus alone and does not fail on a write. *)
Lemma drives_safely_quiet {A}
    (m : projector_control.P A) :
  (forall s, (snd (m s) = s \/ exists b, snd (m s) = (b, snd s))
             /\ forall cmd data, fst (m s) <> Fail (I2C_DLP_HDMI.BusError cmd data)) ->
  drives_safely m.
Proof.
  intros Hm s s' r H. exists []. rewrite app_nil_r.
  destruct (Hm s) as [Hs Hr]. rewrite H in Hs, Hr. cbn [fst snd] in Hs, Hr. split.
  - destruct Hs as [Hs|[b Hs]]; subst s'; reflexivity.
  - destruct r as [a|[|cmd data|]|]; cbn [safe_wire]; try constructor.
    exfalso. apply (Hr cmd data). reflexivity.
Qed.

Ltac quiet_step :=
  apply drives_safely_quiet; intros ?;
  split; [first [left; reflexivity | right; eexists; reflexivity]
         |intros ? ?; discriminate].

Lemma drives_safely_bind {A B} (m : projector_control.P A)
    (k : A -> projector_control.P B) :
  drives_safely m -> (forall a, drives_safely (k a)) -> drives_safely (io_bind m k).
Proof.
  intros Hm Hk s s' r. unfold io_bind.
  destruct (m s) as [[a|e|] s1] eqn:Hms; intros H;
    apply Hm in Hms as (e1 & Hw1 & Hs1).
  - apply Hk in H as (e2 & Hw2 & Hs2). exists (e1 ++ e2)%list.
    rewrite Hw2, Hw1, app_assoc. split; [reflexivity|].
    apply safe_wire_app; assumption.
  - inversion H; subst. exists e1. split; [assumption|].
    apply (safe_wire_fail (A := A)), Hs1.
  - inversion H; subst. exists e1. split; assumption.
Qed.

Lemma drives_safely_on_bus {A} (m : IO I2C_DLP_HDMI.error I2C_DLP_HDMI.bus A) :
  stays_safe m -> drives_safely (projector_control.on_bus m).
Proof.
  intros Hm s s' r. unfold projector_control.on_bus.
  destruct (m (projector_control.i2c (snd s))) as [r0 b] eqn:Hmb.
  intros H. inversion H; subst. cbn [snd projector_control.i2c].
  apply Hm in Hmb. exact Hmb.
Qed.

Lemma drives_safely_init : drives_safely projector_control.init.
Proof.
  unfold projector_control.init.
  apply drives_safely_bind; [quiet_step|intros self].
  destruct (negb _); [quiet_step|].
  apply drives_safely_bind; [quiet_step|intros mc].
  destruct (negb _); [quiet_step|].
  destruct (projector_control._ready self); [quiet_step|].
  apply drives_safely_bind; [apply drives_safely_on_bus, stays_safe_video|intros _].
  apply drives_safely_bind; [apply drives_safely_on_bus, stays_safe_blue_setup|intros _].
  apply drives_safely_bind.
  - destruct (projector_control.blue_brightness_percent _) as [p|].
    + apply drives_safely_on_bus, stays_safe_brightness.
    + quiet_step.
  - intros _.
    apply drives_safely_bind;
      [apply drives_safely_on_bus, stays_safe_led; auto|intros _].
    quiet_step.
Qed.

(** X23. Whatever the projector object is asked, whatever its
    configuration and whatever the bus answers, [init], [on] and [off] put
    only this on the bus: writes to the controller at address 0x1B whose
    data are bytes, each write that is taken followed at once by a settle
    time of two milliseconds, a write that is refused followed by nothing:
    it is the last thing on the bus, and the call fails with it.  Under
    the LED enable command 0x52 the data are 0 (all off) or 4 (blue);
    under the LED current command 0x54 they are zero red, zero green and
    a blue current of at most ten bits, whatever the configured
    brightness.  The red and the green LED are never enabled and never
    given a current. *)
Theorem projector_only_drives_blue :
  drives_safely projector_control.init
  /\ drives_safely projector_control.on
  /\ drives_safely projector_control.off.
Proof.
  split; [exact drives_safely_init|].
  split.
  - unfold projector_control.on.
    apply drives_safely_bind; [quiet_step|intros self].
    destruct (negb _); [quiet_step|].
    apply drives_safely_bind; [exact drives_safely_init|intros _].
    apply drives_safely_on_bus, stays_safe_led. auto.
  - unfold projector_control.off.
    apply drives_safely_bind; [quiet_step|intros self].
    destruct (negb _); [quiet_step|].
    apply drives_safely_bind; [exact drives_safely_init|intros _].
    apply drives_safely_on_bus, stays_safe_led. auto.
Qed.

(* ================================================================== *)
(** * The display: events, images and the window *)
(* ================================================================== *)

Lemma handle_events_spec (evs : list exposure.pg_event)
    (s : exposure.globals * exposure.outside) :
  exposure.handle_events evs s
  = if existsb asks_to_quit evs
    then (Fail (exposure.SystemExit 0),
          (fst s, exposure.logged (snd s) (exposure.Returned exposure.PygameQuit)))
    else (Done tt, s).
Proof.
  induction evs as [|ev rest IH]; cbn [exposure.handle_events existsb].
  - reflexivity.
  - destruct ev as [|key|]; cbn [asks_to_quit orb].
    + reflexivity.
    + destruct (key =? exposure.K_ESCAPE); cbn [orb]; [reflexivity|exact IH].
    + exact IH.
Qed.

Lemma process_events_spec (s : exposure.globals * exposure.outside) :
  exposure._process_events s
  = if exposure.raises (snd s) (exposure.log (snd s)) exposure.EventGet
    then (Fail (exposure.PygameError exposure.EventGet),
          (fst s, exposure.logged (snd s) (exposure.Raised exposure.EventGet)))
    else if existsb asks_to_quit (exposure.posted (snd s) (exposure.log (snd s)))
         then (Fail (exposure.SystemExit 0),
               (fst s,
                exposure.logged (exposure.logged (snd s) (exposure.Returned exposure.EventGet))
                  (exposure.Returned exposure.PygameQuit)))
         else (Done tt, (fst s, exposure.logged (snd s) (exposure.Returned exposure.EventGet))).
Proof.
  unfold exposure._process_events, io_bind, exposure.event_get. cbv zeta.
  destruct (exposure.raises _ _ _); [reflexivity|].
  rewrite handle_events_spec. reflexivity.
Qed.

Lemma same_size_true (w h W H : Z) :
  exposure.same_size (w, h) (Some W, Some H) = true -> w = W /\ h = H.
Proof.
  unfold exposure.same_size. cbn [fst snd]. intros Heq.
  apply andb_true_iff in Heq as [Hw Hh].
  apply Z.eqb_eq in Hw. apply Z.eqb_eq in Hh. auto.
Qed.

(** One step down a method of the window module: the next thing that the
    outside decides. *)
Ltac decide_next H :=
  match type of H with
  | context [exposure.file ?o ?l ?p] =>
      let Hfile := fresh "Hfile" in
      destruct (exposure.file o l p) eqn:Hfile
  | context [exposure.raises ?o ?l ?c] =>
      let Hraises := fresh "Hraises" in
      destruct (exposure.raises o l c) eqn:Hraises
  | context [existsb asks_to_quit ?evs] =>
      let Hquit := fresh "Hquit" in
      destruct (existsb asks_to_quit evs) eqn:Hquit
  | context [exposure.same_size ?a ?b] =>
      let Hsame := fresh "Hsame" in
      destruct (exposure.same_size a b) eqn:Hsame
  end;
  cbn [fst snd andb negb exposure.may_raise exposure.log exposure.raises exposure.posted
       exposure.file exposure.native exposure.lag exposure.time_now
       exposure.screen exposure.screen_width exposure.screen_height exposure.clock] in H.

Ltac run_window H :=
  unfold exposure.start_exposure, exposure.stop_exposure, exposure.close_display,
    exposure.init_display, exposure._load_image, exposure.image_load, exposure.pg,
    exposure.set_mode, exposure.get_globals, exposure.put_globals, exposure.sys_exit,
    exposure.logged, io_bind, io_ret, io_fail in H;
  cbn [fst snd andb negb exposure.may_raise exposure.log exposure.raises exposure.posted
       exposure.file exposure.native exposure.lag exposure.time_now
       exposure.screen exposure.screen_width exposure.screen_height exposure.clock] in H.

Ltac leaf H :=
  inversion H; subst; clear H;
  cbn [fst snd exposure.log exposure.screen exposure.screen_width
       exposure.screen_height exposure.clock];
  rewrite <- ?app_assoc; cbn [app].

Lemma start_exposure_cases (path : string) (g : exposure.globals) (o : exposure.outside)
    (W H : Z) (r : res exposure.error unit) (s' : exposure.globals * exposure.outside) :
  exposure.screen g = Some (W, H) ->
  exposure.screen_width g = Some W ->
  exposure.screen_height g = Some H ->
  exposure.start_exposure path (g, o) = (r, s') ->
  fst s' = g
  /\ r <> Fail exposure.InitFirst /\ r <> Fail exposure.TypeError /\ r <> Spent
  /\ exists evs : list exposure.entry,
       exposure.log (snd s') = (exposure.log o ++ evs)%list
       /\ (r = Done tt ->
           (exists pre : list exposure.entry,
               evs = (pre ++ [exposure.Returned (exposure.Blit W H);
                              exposure.Returned exposure.Flip])%list
               /\ existsb draws pre = false)
           \/ (evs = [exposure.Returned exposure.EventGet;
                      exposure.Raised (exposure.ImageLoad path)])).
Proof.
  intros Hscreen Hw Hh Hrun.
  unfold exposure.start_exposure in Hrun. unfold io_bind at 1 in Hrun.
  unfold exposure.get_globals at 1 in Hrun. cbn [fst snd] in Hrun.
  rewrite Hscreen in Hrun. unfold io_bind at 1 in Hrun.
  rewrite process_events_spec in Hrun. cbn [fst snd] in Hrun.
  run_window Hrun.
  repeat (first [rewrite Hw in Hrun | rewrite Hh in Hrun | decide_next Hrun];
          cbn [fst snd] in Hrun).
  all: try (apply same_size_true in Hsame as [? ?]; subst).
  all: leaf Hrun.
  all: split; [reflexivity|].
  all: split; [discriminate|]. all: split; [discriminate|]. all: split; [discriminate|].
  all: eexists; split; [reflexivity|].
  all: try (intros Habs; discriminate Habs).
  all: intros _.
  all: try (right; reflexivity).
  all: left;
    match goal with
    | |- exists pre, ?a :: ?b :: ?c :: ?d :: _ = _ /\ _ =>
        first [ exists [a; b; c; d]; split; reflexivity
              | exists [a; b; c]; split; reflexivity ]
    end.
Qed.

Lemma stop_exposure_cases (g : exposure.globals) (o : exposure.outside)
    (size : Z * Z) (r : res exposure.error unit)
    (s' : exposure.globals * exposure.outside) :
  exposure.screen g = Some size ->
  exposure.stop_exposure (g, o) = (r, s') ->
  fst s' = g
  /\ r <> Fail exposure.InitFirst /\ r <> Fail exposure.TypeError /\ r <> Spent
  /\ exists evs : list exposure.entry,
       exposure.log (snd s') = (exposure.log o ++ evs)%list
       /\ (r = Done tt ->
           evs = [exposure.Returned exposure.EventGet; exposure.Returned exposure.Fill;
                  exposure.Returned exposure.Flip]).
Proof.
  intros Hscreen Hrun.
  unfold exposure.stop_exposure in Hrun. unfold io_bind at 1 in Hrun.
  unfold exposure.get_globals at 1 in Hrun. cbn [fst snd] in Hrun.
  rewrite Hscreen in Hrun. unfold io_bind at 1 in Hrun.
  rewrite process_events_spec in Hrun. cbn [fst snd] in Hrun.
  run_window Hrun. repeat (decide_next Hrun; cbn [fst snd] in Hrun).
  all: leaf Hrun.
  all: split; [reflexivity|].
  all: split; [discriminate|]. all: split; [discriminate|]. all: split; [discriminate|].
  all: eexists; split; [reflexivity|].
  all: first [intros Habs; discriminate Habs | intros _; reflexivity].
Qed.

Lemma init_display_cases (display_index : Z) (g : exposure.globals)
    (o : exposure.outside) (r : res exposure.error unit)
    (s' : exposure.globals * exposure.outside) :
  exposure.init_display display_index (g, o) = (r, s') ->
  r <> Fail exposure.InitFirst /\ r <> Fail exposure.TypeError /\ r <> Spent
  /\ (r = Done tt -> exposure.screen (fst s') <> None)
  /\ (exposure.screen g <> None -> exposure.screen (fst s') <> None)
  /\ ((forall size, exposure.screen g = Some size ->
       exposure.screen_width g = Some (fst size)
       /\ exposure.screen_height g = Some (snd size)) ->
      forall size, exposure.screen (fst s') = Some size ->
      exposure.screen_width (fst s') = Some (fst size)
      /\ exposure.screen_height (fst s') = Some (snd size))
  /\ exists evs : list exposure.entry,
       exposure.log (snd s')
       = (exposure.log o ++ exposure.Returned (exposure.SetEnv display_index)
                            :: exposure.Returned exposure.PygameInit :: evs)%list
       /\ existsb draws evs = false.
Proof.
  intros Hrun. run_window Hrun. repeat (decide_next Hrun; cbn [fst snd] in Hrun).
  all: leaf Hrun.
  all: split; [discriminate|]. all: split; [discriminate|]. all: split; [discriminate|].
  all: split; [first [intros Habs; discriminate Habs | intros _; discriminate]|].
  all: split; [first [intros Hg; exact Hg | intros _; discriminate]|].
  all: split;
    [first [ intros Hg; exact Hg
           | intros _ size Hsize; inversion Hsize; subst; split; reflexivity ]|].
  all: eexists; split; reflexivity.
Qed.

(** [init] keeps the window and ends ready or with an error of pygame. *)
Lemma init_keeps_window (s s' : display_state) (r : res exposure.error unit) :
  has_window s ->
  display_control.init s = (r, s') ->
  has_window s'
  /\ r <> Fail exposure.InitFirst /\ r <> Fail exposure.TypeError /\ r <> Spent
  /\ (r = Done tt -> display_control._inited (fst s') = true)
  /\ display_control.display_index (fst s') = display_control.display_index (fst s)
  /\ display_control.event_pump_hz (fst s') = display_control.event_pump_hz (fst s).
Proof.
  intros [Hwin Hsized] Hrun. destruct s as [self [g o]]. cbn [fst snd] in Hwin, Hsized.
  unfold display_control.init, display_control.get_display in Hrun.
  unfold io_bind at 1 in Hrun. cbn [fst snd] in Hrun.
  destruct (display_control._inited self) eqn:Hinited.
  - inversion Hrun; subst. unfold has_window. cbn [fst snd].
    split; [split; [intros _; apply Hwin; reflexivity|exact Hsized]|].
    split; [discriminate|]. split; [discriminate|]. split; [discriminate|].
    split; [intros _; exact Hinited|]. split; reflexivity.
  - unfold io_bind, display_control.on_exposure, display_control.set_inited in Hrun.
    cbn [fst snd] in Hrun.
    destruct (exposure.init_display (display_control.display_index self) (g, o))
      as [r0 s1] eqn:Hinit.
    apply init_display_cases in Hinit
      as (Hn1 & Hn2 & Hn3 & Hdone & _ & Hsized' & _).
    specialize (Hsized' Hsized).
    destruct r0 as [[]|e|]; inversion Hrun; subst; unfold has_window;
      cbn [fst snd display_control._inited display_control.display_index
           display_control.event_pump_hz].
    + split; [split; [intros _; apply Hdone; reflexivity|exact Hsized']|].
      split; [discriminate|]. split; [discriminate|]. split; [discriminate|].
      split; [reflexivity|]. split; reflexivity.
    + split; [split; [rewrite Hinited; discriminate|exact Hsized']|].
      split; [exact Hn1|]. split; [exact Hn2|]. split; [discriminate|].
      split; [discriminate|]. split; reflexivity.
    + contradiction Hn3. reflexivity.
Qed.

(** A turn of the loop of [sleep_with_pump]. *)
Lemma pump_loop_step (turns : nat) (period t_end : PrimFloat.float) (s : display_state) :
  display_control.pump_loop (S turns) period t_end s
  = if PrimFloat.leb t_end (double_of_Q (the_time s)) then (Done tt, s)
    else io_bind
           (display_control.time_sleep
              (display_control.py_min period
                 (PrimFloat.sub t_end (double_of_Q (the_time s)))))
           (fun _ => display_control.pump_loop turns period t_end) s.
Proof.
  change (display_control.pump_loop (S turns) period t_end)
    with (io_bind display_control.time_time (fun now =>
            if PrimFloat.leb t_end now then io_ret tt
            else io_bind
                   (display_control.time_sleep
                      (display_control.py_min period (PrimFloat.sub t_end now)))
                   (fun _ => display_control.pump_loop turns period t_end))).
  unfold io_bind at 1, display_control.time_time. cbn [fst snd]. fold (the_time s).
  destruct (PrimFloat.leb t_end (double_of_Q (the_time s))); reflexivity.
Qed.

(** [time.sleep] returns, or raises one of its two errors; it leaves the
    display object and the globals of the window module alone and logs
    itself. *)
Lemma time_sleep_cases (d : PrimFloat.float) (s : display_state) :
  fst (snd (display_control.time_sleep d s)) = fst s
  /\ fst (snd (snd (display_control.time_sleep d s))) = fst (snd s)
  /\ ((fst (display_control.time_sleep d s) = Done tt
       /\ the_log (snd (display_control.time_sleep d s))
          = (the_log s ++ [exposure.Returned (exposure.Sleep d)])%list)
      \/ ((fst (display_control.time_sleep d s) = Fail exposure.ValueError
           \/ fst (display_control.time_sleep d s) = Fail exposure.OverflowError)
          /\ the_log (snd (display_control.time_sleep d s))
             = (the_log s ++ [exposure.Raised (exposure.Sleep d)])%list)).
Proof.
  unfold display_control.time_sleep, the_log. cbv zeta.
  destruct (Q_of_double d) as [q|].
  - destruct (Qlt_bool q 0); cbn [fst snd exposure.log exposure.logged];
      (split; [reflexivity|]); (split; [reflexivity|]); [right|left]; auto.
  - destruct (PrimFloat.is_nan d); cbn [fst snd exposure.log exposure.logged];
      (split; [reflexivity|]); (split; [reflexivity|]); right; auto.
Qed.

Lemma py_min_nap (period x : PrimFloat.float) : nap period (display_control.py_min period x).
Proof.
  unfold nap, display_control.py_min.
  destruct (PrimFloat.ltb x period) eqn:Hlt; auto.
Qed.

(** The loop of [sleep_with_pump] does nothing but sleep: it touches
    neither the display object nor the globals of the window module, and
    is over, when it is, at a reading of the clock that is not before
    [t_end]. *)
Lemma pump_loop_spec (turns : nat) (period t_end : PrimFloat.float) :
  forall (s s' : display_state) (r : res exposure.error unit),
    display_control.pump_loop turns period t_end s = (r, s') ->
    fst s' = fst s
    /\ fst (snd s') = fst (snd s)
    /\ exists (naps : list PrimFloat.float) (last : list exposure.entry),
         the_log s' = (the_log s ++ naps_of naps ++ last)%list
         /\ Forall (nap period) naps
         /\ (r = Done tt ->
             last = []
             /\ PrimFloat.leb t_end (double_of_Q (the_time s')) = true)
         /\ (r = Spent -> last = [] /\ List.length naps = turns)
         /\ (forall e, r = Fail e ->
             (e = exposure.ValueError \/ e = exposure.OverflowError)
             /\ exists d, nap period d /\ last = [exposure.Raised (exposure.Sleep d)]).
Proof.
  induction turns as [|turns IH]; intros s s' r Hrun.
  - cbn [display_control.pump_loop] in Hrun. inversion Hrun; subst.
    split; [reflexivity|]. split; [reflexivity|].
    exists [], []. cbn [naps_of map app]. rewrite app_nil_r.
    split; [reflexivity|]. split; [constructor|].
    split; [discriminate|]. split; [auto|discriminate].
  - rewrite pump_loop_step in Hrun.
    destruct (PrimFloat.leb t_end (double_of_Q (the_time s))) eqn:Hover.
    + inversion Hrun; subst.
      split; [reflexivity|]. split; [reflexivity|].
      exists [], []. cbn [naps_of map app]. rewrite app_nil_r.
      split; [reflexivity|]. split; [constructor|].
      split; [auto|]. split; discriminate.
    + set (d := display_control.py_min period
                  (PrimFloat.sub t_end (double_of_Q (the_time s)))) in Hrun.
      pose proof (py_min_nap period (PrimFloat.sub t_end (double_of_Q (the_time s))))
        as Hnap. fold d in Hnap.
      destruct (time_sleep_cases d s) as (Hself & Hglobals & Hcases).
      unfold io_bind in Hrun.
      destruct (display_control.time_sleep d s) as [r1 s1]. cbn [fst snd] in *.
      destruct Hcases as [[Hr Hlog]|[Hr Hlog]].
      * subst r1. apply IH in Hrun
          as (Hself' & Hglobals' & naps & last & Hlog' & Hnaps & Hdone & Hspent & Hfail).
        split; [congruence|]. split; [congruence|].
        exists (d :: naps), last.
        split; [rewrite Hlog', Hlog, <- app_assoc; reflexivity|].
        split; [constructor; assumption|].
        split; [exact Hdone|]. split; [|exact Hfail].
        intros Hs. destruct (Hspent Hs) as [H1 H2]. cbn [List.length]. auto.
      * assert (Hr1 : exists e, r1 = Fail e
                                /\ (e = exposure.ValueError \/ e = exposure.OverflowError)).
        { destruct Hr as [Hr|Hr]; subst r1; eexists; split; eauto. }
        destruct Hr1 as (e & -> & He). inversion Hrun; subst.
        split; [exact Hself|]. split; [exact Hglobals|].
        exists [], [exposure.Raised (exposure.Sleep d)]. cbn [naps_of map app].
        split; [exact Hlog|]. split; [constructor|].
        split; [discriminate|]. split; [discriminate|].
        intros e' He'. injection He' as <-. split; [exact He|]. exists d. auto.
Qed.

Lemma sleep_with_pump_frame (turns : nat) (seconds : PrimFloat.float)
    (s s' : display_state) (r : res exposure.error unit) :
  display_control.sleep_with_pump turns seconds s = (r, s') ->
  fst s' = fst s /\ fst (snd s') = fst (snd s)
  /\ r <> Fail exposure.InitFirst /\ r <> Fail exposure.TypeError.
Proof.
  unfold display_control.sleep_with_pump.
  destruct (PrimFloat.leb seconds _).
  - intros Hrun. inversion Hrun; subst.
    split; [reflexivity|]. split; [reflexivity|]. split; discriminate.
  - unfold io_bind at 1, display_control.get_display. cbn [fst snd].
    unfold io_bind at 1, display_control.pump_period.
    destruct (Q_of_double _) as [q|].
    + destruct (display_control.event_pump_hz (fst s) =? 0)%Z.
      * intros Hrun. inversion Hrun; subst.
        split; [reflexivity|]. split; [reflexivity|]. split; discriminate.
      * unfold io_ret, io_bind at 1, display_control.time_time. cbn [fst snd].
        intros Hrun. apply pump_loop_spec in Hrun
          as (H1 & H2 & naps & last & _ & _ & _ & _ & Hfail).
        split; [exact H1|]. split; [exact H2|].
        split; intros ->; destruct (Hfail _ eq_refl) as [[He|He] _]; discriminate He.
    + intros Hrun. inversion Hrun; subst.
      split; [reflexivity|]. split; [reflexivity|]. split; discriminate.
Qed.

Lemma perform_keeps_window (m : display_method) (s s' : display_state)
    (r : res exposure.error unit) :
  has_window s ->
  perform m s = (r, s') ->
  has_window s' /\ r <> Fail exposure.InitFirst /\ r <> Fail exposure.TypeError.
Proof.
  intros Hwin Hrun. destruct m as [|path| | |turns seconds]; cbn [perform] in Hrun.
  - apply (init_keeps_window s s' r Hwin) in Hrun as (H1 & H2 & H3 & _). auto.
  - unfold display_control.show, io_bind in Hrun.
    destruct (display_control.init s) as [r0 s1] eqn:Hinit.
    apply (init_keeps_window s s1 r0 Hwin) in Hinit
      as (Hwin1 & Hn1 & Hn2 & Hn3 & Hdone & _).
    destruct r0 as [[]|e|]; [|inversion Hrun; subst; auto|contradiction Hn3; reflexivity].
    specialize (Hdone eq_refl). destruct Hwin1 as [Hscreen Hsized].
    destruct s1 as [self1 [g1 o1]]. cbn [fst snd] in *.
    destruct (exposure.screen g1) as [[W H]|] eqn:Hg1;
      [|contradiction (Hscreen Hdone); reflexivity].
    destruct (Hsized (W, H) eq_refl) as [Hw Hh]. cbn [fst snd] in Hw, Hh.
    unfold display_control.on_exposure in Hrun. cbn [fst snd] in Hrun.
    destruct (exposure.start_exposure path (g1, o1)) as [r1 m1] eqn:Hstart.
    inversion Hrun; subst.
    apply (start_exposure_cases path g1 o1 W H _ _ Hg1 Hw Hh) in Hstart
      as (Hg & Hm1 & Hm2 & _).
    destruct m1 as [g2 o2]. cbn [fst] in Hg. subst g2.
    unfold has_window. cbn [fst snd]. split; [|auto]. split.
    + intros _. rewrite Hg1. discriminate.
    + intros size Hsize. rewrite Hg1 in Hsize. inversion Hsize; subst. auto.
  - unfold display_control.black, display_control.get_display in Hrun.
    unfold io_bind at 1 in Hrun. cbn [fst snd] in Hrun.
    destruct s as [self [g o]]. destruct Hwin as [Hscreen Hsized]. cbn [fst snd] in *.
    destruct (display_control._inited self) eqn:Hinited; cbn [negb] in Hrun.
    + destruct (exposure.screen g) as [size|] eqn:Hg;
        [|contradiction (Hscreen eq_refl); reflexivity].
      unfold display_control.on_exposure in Hrun. cbn [fst snd] in Hrun.
      destruct (exposure.stop_exposure (g, o)) as [r1 m1] eqn:Hstop.
      inversion Hrun; subst.
      apply (stop_exposure_cases g o size _ _ Hg) in Hstop as (Hg' & Hm1 & Hm2 & _).
      destruct m1 as [g2 o2]. cbn [fst] in Hg'. subst g2. unfold has_window. cbn [fst snd].
      split; [|auto]. split; [intros _; rewrite Hg; discriminate|].
      rewrite Hg. exact Hsized.
    + inversion Hrun; subst. unfold has_window. cbn [fst snd].
      split; [|split; discriminate]. split; [rewrite Hinited; discriminate|exact Hsized].
  - unfold display_control.close, display_control.get_display in Hrun.
    unfold io_bind at 1 in Hrun. cbn [fst snd] in Hrun.
    destruct s as [self [g o]]. destruct Hwin as [Hscreen Hsized]. cbn [fst snd] in *.
    destruct (display_control._inited self);
      unfold io_bind, display_control.on_exposure, exposure.close_display, exposure.pg,
        display_control.set_inited, io_ret in Hrun;
      cbn [fst snd andb exposure.may_raise] in Hrun; inversion Hrun; subst;
      unfold has_window; cbn [fst snd display_control._inited];
      (split; [|split; discriminate]); (split; [discriminate|exact Hsized]).
  - apply sleep_with_pump_frame in Hrun as (Hself & Hg & Hr).
    destruct Hwin as [Hscreen Hsized].
    split; [split; rewrite ?Hself, ?Hg; assumption|exact Hr].
Qed.

(** X24. The window module refuses to draw before [init_display] has
    run ([RuntimeError]), and would fail on a missing screen size.  A
    caller that goes through an [HdmiDisplay] never meets either: from a
    new display object and a module that was just loaded, no series of
    calls of [init], [show], [black], [close] and [sleep_with_pump],
    whatever the outside answers and also when earlier calls have failed,
    ever ends in one of these two errors. *)
Theorem display_never_draws_without_window
    (display_index hz : Z) (o : exposure.outside) (ms : list display_method) :
  ~ In (Fail exposure.InitFirst)
       (outcomes ms (display_control.new_display display_index hz, (exposure.fresh, o)))
  /\ ~ In (Fail exposure.TypeError)
         (outcomes ms (display_control.new_display display_index hz, (exposure.fresh, o))).
Proof.
  assert (Hfresh : has_window
                     (display_control.new_display display_index hz, (exposure.fresh, o))).
  { split; cbn; [discriminate|intros size Habs; discriminate]. }
  revert Hfresh. generalize (display_control.new_display display_index hz,
                             (exposure.fresh, o)).
  induction ms as [|m rest IH]; intros s Hwin; cbn [outcomes].
  - split; intros [].
  - destruct (perform m s) as [r s'] eqn:Hrun.
    apply (perform_keeps_window m s s' r Hwin) in Hrun as (Hwin' & Hn1 & Hn2).
    destruct (IH s' Hwin') as [IH1 IH2].
    split; intros [Hhead|Htail]; auto.
Qed.

Lemma existsb_draws_app (a b : list exposure.entry) :
  existsb draws a = false -> existsb draws b = false -> existsb draws (a ++ b) = false.
Proof. intros Ha Hb. rewrite existsb_app, Ha, Hb. reflexivity. Qed.

(** What [init] adds to the log: nothing, or calls that start with the
    choice of the screen and draw nothing. *)
Lemma init_log (s s' : display_state) (r : res exposure.error unit) :
  display_control.init s = (r, s') ->
  exists evs : list exposure.entry,
    the_log s' = (the_log s ++ evs)%list
    /\ existsb draws evs = false
    /\ (display_control._inited (fst s) = false ->
        exists rest : list exposure.entry,
          evs = exposure.Returned (exposure.SetEnv (display_control.display_index (fst s)))
                :: exposure.Returned exposure.PygameInit :: rest).
Proof.
  intros Hrun. destruct s as [self [g o]].
  unfold display_control.init, display_control.get_display in Hrun.
  unfold io_bind at 1 in Hrun. cbn [fst snd] in Hrun. unfold the_log. cbn [fst snd].
  destruct (display_control._inited self) eqn:Hinited.
  - inversion Hrun; subst. exists []. cbn [fst snd]. rewrite app_nil_r.
    split; [reflexivity|]. split; [reflexivity|discriminate].
  - unfold io_bind, display_control.on_exposure, display_control.set_inited in Hrun.
    cbn [fst snd] in Hrun.
    destruct (exposure.init_display (display_control.display_index self) (g, o))
      as [r0 s1] eqn:Hinit.
    apply init_display_cases in Hinit as (_ & _ & _ & _ & _ & _ & evs & Hlog & Hdraws).
    eexists. destruct r0 as [[]|e|]; inversion Hrun; subst; cbn [fst snd];
      (split; [exact Hlog|]); (split; [exact Hdraws|]); intros _; exists evs; reflexivity.
Qed.

(** X25. What [show] has done when it returns normally, on a display
    that has its window whenever it holds itself for initialised.  The
    display is initialised afterwards, and one of two things happened.
    Either the last two calls drew an image and flipped the screen, and
    the image drawn has exactly the size of the screen, scaled if the file
    had another size.  Or pygame could not load the file: then nothing was
    drawn at all, the screen shows what it showed before, and the caller
    is not told. *)
Theorem show_draws_at_screen_size_or_nothing (path : string) (s s' : display_state) :
  has_window s ->
  display_control.show path s = (Done tt, s') ->
  display_control._inited (fst s') = true
  /\ exists pre rest : list exposure.entry,
       the_log s' = (the_log s ++ pre ++ rest)%list
       /\ existsb draws pre = false
       /\ ((exists W H : Z,
              exposure.screen (fst (snd s')) = Some (W, H)
              /\ rest = [exposure.Returned (exposure.Blit W H);
                         exposure.Returned exposure.Flip])
           \/ rest = [exposure.Raised (exposure.ImageLoad path)]).
Proof.
  intros Hwin Hrun. unfold display_control.show, io_bind in Hrun.
  destruct (display_control.init s) as [r0 s1] eqn:Hinit.
  destruct (init_log s s1 r0 Hinit) as (evs0 & Hlog0 & Hdraws0 & _).
  apply (init_keeps_window s s1 r0 Hwin) in Hinit
    as (Hwin1 & _ & _ & _ & Hdone & _).
  destruct r0 as [[]|e|]; try discriminate.
  specialize (Hdone eq_refl). destruct Hwin1 as [Hscreen Hsized].
  destruct s1 as [self1 [g1 o1]]. unfold the_log in *. cbn [fst snd] in *.
  destruct (exposure.screen g1) as [[W H]|] eqn:Hg1;
    [|contradiction (Hscreen Hdone); reflexivity].
  destruct (Hsized (W, H) eq_refl) as [Hw Hh]. cbn [fst snd] in Hw, Hh.
  unfold display_control.on_exposure in Hrun. cbn [fst snd] in Hrun.
  destruct (exposure.start_exposure path (g1, o1)) as [r1 m1] eqn:Hstart.
  inversion Hrun; subst.
  apply (start_exposure_cases path g1 o1 W H _ _ Hg1 Hw Hh) in Hstart
    as (Hg & _ & _ & _ & evs & Hlog & Hcases).
  destruct m1 as [g2 o2]. cbn [fst snd] in *. subst g2.
  split; [exact Hdone|].
  destruct (Hcases eq_refl) as [(pre & Hevs & Hpre)|Hevs]; subst evs.
  - exists (evs0 ++ pre)%list. eexists. rewrite Hlog, Hlog0, <- !app_assoc.
    split; [reflexivity|]. split; [apply existsb_draws_app; assumption|].
    left. exists W, H. split; [exact Hg1|reflexivity].
  - exists (evs0 ++ [exposure.Returned exposure.EventGet])%list. eexists.
    rewrite Hlog, Hlog0, <- !app_assoc. split; [reflexivity|].
    split; [apply existsb_draws_app; [assumption|reflexivity]|].
    right. reflexivity.
Qed.

Lemma show_draws_at_screen_size_or_nothing_witness :
  display_control._inited
    (fst (snd (display_control.show "layer.png"
                 (display_control.new_display 1 30,
                  (exposure.fresh,
                   exposure.mkOutside [] 0 (fun _ _ => false) (fun _ => (1920, 1080)%Z)
                     (fun _ => []) (fun _ _ => exposure.LoadPygameError)
                     (fun _ => 0%Q)))))) = true.
Proof.
  apply (show_draws_at_screen_size_or_nothing "layer.png"
           (display_control.new_display 1 30,
            (exposure.fresh,
             exposure.mkOutside [] 0 (fun _ _ => false) (fun _ => (1920, 1080)%Z)
               (fun _ => []) (fun _ _ => exposure.LoadPygameError)
               (fun _ => 0%Q)))).
  - split; cbn; [discriminate|intros size Habs; discriminate].
  - vm_compute. reflexivity.
Defined.

(** After a look at the events, on a window that is there. *)
Lemma after_events (k : exposure.E unit) (g : exposure.globals) (o : exposure.outside)
    (size : Z * Z) :
  exposure.screen g = Some size ->
  exposure.raises o (exposure.log o) exposure.EventGet = false ->
  io_bind exposure.get_globals (fun g0 =>
    match exposure.screen g0 with
    | None => io_fail exposure.InitFirst
    | Some _ => io_bind exposure._process_events (fun _ => k)
    end) (g, o)
  = if existsb asks_to_quit (exposure.posted o (exposure.log o))
    then (Fail (exposure.SystemExit 0),
          (g, exposure.logged (exposure.logged o (exposure.Returned exposure.EventGet))
                (exposure.Returned exposure.PygameQuit)))
    else k (g, exposure.logged o (exposure.Returned exposure.EventGet)).
Proof.
  intros Hg Hraises. unfold io_bind at 1, exposure.get_globals. cbn [fst snd].
  rewrite Hg. unfold io_bind at 1. rewrite process_events_spec. cbn [fst snd].
  rewrite Hraises. destruct (existsb _ _); reflexivity.
Qed.

(** What follows the look at the events does not end the program. *)
Lemma drawing_does_not_exit (path : string) (s s' : exposure.globals * exposure.outside)
    (r : res exposure.error unit) (code : Z) :
  (io_bind (exposure.pg exposure.Fill) (fun _ => exposure.pg exposure.Flip) s = (r, s')
   \/ io_bind (exposure._load_image path) (fun image =>
        match image with
        | None => io_ret tt
        | Some (w, h) =>
            io_bind (exposure.pg (exposure.Blit w h)) (fun _ => exposure.pg exposure.Flip)
        end) s = (r, s')) ->
  r <> Fail (exposure.SystemExit code).
Proof.
  intros [Hrest|Hrest]; run_window Hrest.
  - repeat (decide_next Hrest; cbn [fst snd] in Hrest).
    all: inversion Hrest; subst; discriminate.
  - repeat (first [ decide_next Hrest
                  | match type of Hrest with
                    | context [exposure.screen_width ?g] =>
                        destruct (exposure.screen_width g)
                    | context [exposure.screen_height ?g] =>
                        destruct (exposure.screen_height g)
                    end ];
            cbn [fst snd] in Hrest).
    all: inversion Hrest; subst; discriminate.
Qed.

(** X26. Leaving by the keyboard or the window.  On a display that is
    initialised, [black] and [show] first look at the events that are
    waiting.  If one of them is a QUIT or the press of ESC, both shut
    pygame down and end the program with exit code 0, and nothing is
    loaded or drawn; the display object still holds itself for
    initialised.  If none is, neither of them ends the program. *)
Theorem quit_event_ends_the_program (path : string)
    (self : display_control.HdmiDisplay) (g : exposure.globals) (o : exposure.outside) :
  display_control._inited self = true ->
  exposure.screen g <> None ->
  exposure.raises o (exposure.log o) exposure.EventGet = false ->
  (existsb asks_to_quit (exposure.posted o (exposure.log o)) = true ->
   display_control.black (self, (g, o))
   = (Fail (exposure.SystemExit 0),
      (self, (g, exposure.logged (exposure.logged o (exposure.Returned exposure.EventGet))
                   (exposure.Returned exposure.PygameQuit))))
   /\ display_control.show path (self, (g, o))
      = (Fail (exposure.SystemExit 0),
         (self, (g, exposure.logged (exposure.logged o (exposure.Returned exposure.EventGet))
                      (exposure.Returned exposure.PygameQuit)))))
  /\ (existsb asks_to_quit (exposure.posted o (exposure.log o)) = false ->
      forall code : Z,
        fst (display_control.black (self, (g, o))) <> Fail (exposure.SystemExit code)
        /\ fst (display_control.show path (self, (g, o))) <> Fail (exposure.SystemExit code)).
Proof.
  intros Hinited Hscreen Hraises.
  destruct (exposure.screen g) as [size|] eqn:Hg;
    [clear Hscreen|contradiction Hscreen; reflexivity].
  assert (Hblack : display_control.black (self, (g, o))
                   = let '(r, m) := exposure.stop_exposure (g, o) in (r, (self, m))).
  { unfold display_control.black, display_control.get_display.
    unfold io_bind at 1. cbn [fst snd]. rewrite Hinited. reflexivity. }
  assert (Hshow : display_control.show path (self, (g, o))
                  = let '(r, m) := exposure.start_exposure path (g, o) in (r, (self, m))).
  { unfold display_control.show, display_control.init, display_control.get_display.
    unfold io_bind at 1 2. cbn [fst snd]. rewrite Hinited. reflexivity. }
  rewrite Hblack, Hshow.
  unfold exposure.stop_exposure, exposure.start_exposure.
  rewrite !(after_events _ g o size Hg Hraises).
  split; intros Hquit; rewrite Hquit.
  - split; reflexivity.
  - intros code. split.
    + destruct (io_bind _ _ _) as [r m] eqn:Hrest. cbn [fst].
      apply (drawing_does_not_exit path
               (g, exposure.logged o (exposure.Returned exposure.EventGet)) m r code). left. exact Hrest.
    + destruct (io_bind _ _ _) as [r m] eqn:Hrest. cbn [fst].
      apply (drawing_does_not_exit path
               (g, exposure.logged o (exposure.Returned exposure.EventGet)) m r code). right. exact Hrest.
Qed.

Lemma quit_event_ends_the_program_witness :
  display_control.black
    (display_control.mkHdmiDisplay 1 30 true,
     (exposure.mkGlobals (Some (1920, 1080)) (Some 1920) (Some 1080) true,
      exposure.mkOutside [] 0 (fun _ _ => false) (fun _ => (1920, 1080))
        (fun _ => [exposure.OtherEvent; exposure.KEYDOWN 27])
        (fun _ _ => exposure.LoadPygameError) (fun _ => 0%Q)))
  = (Fail (exposure.SystemExit 0),
     (display_control.mkHdmiDisplay 1 30 true,
      (exposure.mkGlobals (Some (1920, 1080)) (Some 1920) (Some 1080) true,
       exposure.mkOutside
         [exposure.Returned exposure.EventGet; exposure.Returned exposure.PygameQuit]
         0 (fun _ _ => false) (fun _ => (1920, 1080))
         (fun _ => [exposure.OtherEvent; exposure.KEYDOWN 27])
         (fun _ _ => exposure.LoadPygameError) (fun _ => 0%Q)))).
Proof.
  destruct (quit_event_ends_the_program EmptyString
              (display_control.mkHdmiDisplay 1 30 true)
              (exposure.mkGlobals (Some (1920, 1080)) (Some 1920) (Some 1080) true)
              (exposure.mkOutside [] 0 (fun _ _ => false) (fun _ => (1920, 1080))
                 (fun _ => [exposure.OtherEvent; exposure.KEYDOWN 27])
                 (fun _ _ => exposure.LoadPygameError) (fun _ => 0%Q))
              eq_refl ltac:(discriminate) eq_refl) as [Hquit _].
  destruct (Hquit eq_refl) as [Hblack _]. exact Hblack.
Defined.

Lemma start_exposure_grows (path : string) (g : exposure.globals) (o : exposure.outside)
    (r : res exposure.error unit) (s' : exposure.globals * exposure.outside) :
  exposure.start_exposure path (g, o) = (r, s') ->
  exists more : list exposure.entry, exposure.log (snd s') = (exposure.log o ++ more)%list.
Proof.
  intros Hrun.
  unfold exposure.start_exposure in Hrun. unfold io_bind at 1 in Hrun.
  unfold exposure.get_globals at 1 in Hrun. cbn [fst snd] in Hrun.
  destruct (exposure.screen g) as [size|].
  - unfold io_bind at 1 in Hrun.
    rewrite process_events_spec in Hrun. cbn [fst snd] in Hrun.
    run_window Hrun.
    repeat (first [ decide_next Hrun
                  | match type of Hrun with
                    | context [exposure.screen_width ?g] =>
                        destruct (exposure.screen_width g)
                    | context [exposure.screen_height ?g] =>
                        destruct (exposure.screen_height g)
                    end ];
            cbn [fst snd] in Hrun).
    all: leaf Hrun.
    all: eexists; reflexivity.
  - inversion Hrun; subst. exists []. rewrite app_nil_r. reflexivity.
Qed.

(** X27. [close] never fails and leaves a display that holds itself for
    not initialised; pygame is shut down only if the display was
    initialised, and the globals of the window module are left as they
    are, the stale window included.  After [close], [black] and a second
    [close] do nothing at all, and [show] sets the window up again from
    the start, beginning with the choice of the screen. *)
Theorem close_puts_the_display_back (path : string) (s : display_state) :
  fst (display_control.close s) = Done tt
  /\ display_control._inited (fst (snd (display_control.close s))) = false
  /\ fst (snd (snd (display_control.close s))) = fst (snd s)
  /\ the_log (snd (display_control.close s))
     = (the_log s ++ (if display_control._inited (fst s)
                      then [exposure.Returned exposure.PygameQuit] else []))%list
  /\ display_control.black (snd (display_control.close s))
     = (Done tt, snd (display_control.close s))
  /\ display_control.close (snd (display_control.close s))
     = (Done tt, snd (display_control.close s))
  /\ exists rest : list exposure.entry,
       the_log (snd (display_control.show path (snd (display_control.close s))))
       = (the_log (snd (display_control.close s))
          ++ exposure.Returned (exposure.SetEnv (display_control.display_index (fst s)))
             :: exposure.Returned exposure.PygameInit :: rest)%list.
Proof.
  destruct s as [self [g o]].
  assert (Hclose : display_control.close (self, (g, o))
                   = (Done tt,
                      (display_control.mkHdmiDisplay (display_control.display_index self)
                         (display_control.event_pump_hz self) false,
                       (g, if display_control._inited self
                           then exposure.logged o (exposure.Returned exposure.PygameQuit)
                           else o)))).
  { unfold display_control.close, display_control.get_display.
    unfold io_bind at 1. cbn [fst snd].
    destruct (display_control._inited self); reflexivity. }
  rewrite Hclose. cbn [fst snd display_control._inited].
  split; [reflexivity|]. split; [reflexivity|]. split; [reflexivity|].
  split.
  { unfold the_log. cbn [fst snd].
    destruct (display_control._inited self); cbn [exposure.logged exposure.log];
      [reflexivity|rewrite app_nil_r; reflexivity]. }
  split; [reflexivity|]. split; [reflexivity|].
  set (s1 := (display_control.mkHdmiDisplay _ _ false, _)).
  unfold display_control.show, io_bind.
  destruct (display_control.init s1) as [r0 s2] eqn:Hinit.
  destruct (init_log s1 s2 r0 Hinit) as (evs & Hlog & _ & Hstart).
  destruct (Hstart eq_refl) as (rest & Hevs). subst evs.
  cbn [fst display_control.display_index] in Hlog.
  destruct r0 as [[]|e|]; cbn [snd]; try (exists rest; exact Hlog).
  destruct (display_control.on_exposure _ s2) as [r1 s3] eqn:Hstart_exposure.
  cbn [snd].
  assert (Hgrows : exists more, the_log s3 = (the_log s2 ++ more)%list).
  { unfold display_control.on_exposure in Hstart_exposure.
    destruct s2 as [self2 [g2 o2]]. cbn [fst snd] in Hstart_exposure.
    destruct (exposure.start_exposure path (g2, o2)) as [r2 m2] eqn:Hse.
    inversion Hstart_exposure; subst. unfold the_log. cbn [fst snd].
    exact (start_exposure_grows path g2 o2 r1 m2 Hse). }
  destruct Hgrows as (more & Hmore). exists (rest ++ more)%list.
  rewrite Hmore, Hlog, <- app_assoc. reflexivity.
Qed.

(* ================================================================== *)
(** * The display: waiting *)
(* ================================================================== *)

Section Waiting.

Import Floats.PrimFloat.

Lemma infinity_first (x : float) : (infinity <=? x)%float = true -> x = infinity.
Proof.
  rewrite FloatAxioms.leb_spec. intros H.
  rewrite <- (FloatAxioms.SF2Prim_Prim2SF x).
  change (FloatOps.Prim2SF infinity) with (SpecFloat.S754_infinity false) in H.
  destruct (FloatOps.Prim2SF x) as [sx|[|]| |sx mx ex]; try discriminate H.
  reflexivity.
Qed.

Lemma nothing_after_nan (x y : float) :
  FloatOps.Prim2SF x = SpecFloat.S754_nan -> (x <=? y)%float = false.
Proof. intros H. rewrite FloatAxioms.leb_spec, H. reflexivity. Qed.

(** A time that is infinitely far is at no finite reading of the
    clock. *)
Lemma end_without_end (now x : float) :
  (now + infinity <=? x)%float = true -> x = infinity.
Proof.
  intros H. destruct (FloatOps.Prim2SF (now + infinity)) eqn:Hsum.
  - exfalso. rewrite FloatAxioms.add_spec in Hsum.
    change (FloatOps.Prim2SF infinity) with (SpecFloat.S754_infinity false) in Hsum.
    destruct (FloatOps.Prim2SF now) as [sx|[|]| |sx mx ex]; discriminate Hsum.
  - assert (Hinf : (now + infinity)%float = infinity).
    { rewrite <- (FloatAxioms.SF2Prim_Prim2SF (now + infinity)), Hsum.
      rewrite FloatAxioms.add_spec in Hsum.
      change (FloatOps.Prim2SF infinity) with (SpecFloat.S754_infinity false) in Hsum.
      destruct (FloatOps.Prim2SF now) as [sx|[|]| |sx mx ex];
        inversion Hsum; reflexivity. }
    rewrite Hinf in H. apply infinity_first, H.
  - rewrite (nothing_after_nan _ x Hsum) in H. discriminate H.
  - exfalso. rewrite FloatAxioms.add_spec in Hsum.
    change (FloatOps.Prim2SF infinity) with (SpecFloat.S754_infinity false) in Hsum.
    destruct (FloatOps.Prim2SF now) as [sx|[|]| |sx mx ex]; discriminate Hsum.
Qed.

(** A time that is not a number is at no reading of the clock. *)
Lemma end_not_a_number (now x : float) : (now + nan <=? x)%float = false.
Proof.
  apply nothing_after_nan. rewrite FloatAxioms.add_spec.
  change (FloatOps.Prim2SF nan) with SpecFloat.S754_nan.
  destruct (FloatOps.Prim2SF now) as [sx|[|]| |sx mx ex]; reflexivity.
Qed.

(** X28. [sleep_with_pump] only sleeps.  Whatever the seconds, the pump
    rate, the clock and the number of turns of its loop that are
    followed, it leaves the display object and the window module as they
    are and calls nothing but [time.sleep]: no event of the window is
    fetched or pumped, nothing is drawn.  For seconds that are zero or
    negative it returns at once.  Otherwise every nap is one period
    [1.0 / hz], or a double below it, and the wait is over only at a
    reading of the clock that is not before the reading at the start plus
    the seconds: for infinitely many seconds, at no finite reading, and
    for seconds that are not a number, never. *)
Theorem sleep_with_pump_waits_in_naps
    (turns : nat) (seconds : float) (s s' : display_state)
    (r : res exposure.error unit) :
  display_control.sleep_with_pump turns seconds s = (r, s') ->
  let period :=
    (1 / double_of_Q (inject_Z (display_control.event_pump_hz (fst s))))%float in
  let t_end := (double_of_Q (the_time s) + seconds)%float in
  fst s' = fst s
  /\ fst (snd s') = fst (snd s)
  /\ ((seconds <=? 0)%float = true -> r = Done tt /\ s' = s)
  /\ (exists (naps : list float) (last : list exposure.entry),
        the_log s' = (the_log s ++ naps_of naps ++ last)%list
        /\ Forall (nap period) naps
        /\ (last = []
            \/ exists d : float,
                 last = [exposure.Raised (exposure.Sleep d)] /\ nap period d
                 /\ (r = Fail exposure.ValueError \/ r = Fail exposure.OverflowError))
        /\ (r = Done tt -> last = [])
        /\ (r = Spent -> last = [] /\ List.length naps = turns))
  /\ (r = Done tt -> (seconds <=? 0)%float = false ->
      (t_end <=? double_of_Q (the_time s'))%float = true)
  /\ (r = Done tt -> seconds = infinity -> double_of_Q (the_time s') = infinity)
  /\ (r = Done tt -> is_nan seconds = false).
Proof.
  intros Hrun period t_end.
  destruct (sleep_with_pump_frame turns seconds s s' r Hrun) as (Hself & Hglobals & _).
  split; [exact Hself|]. split; [exact Hglobals|].
  unfold display_control.sleep_with_pump in Hrun.
  assert (Hnone : forall e : exposure.error,
             (r : res exposure.error unit) = Fail e \/ r = Done tt -> s' = s ->
             exists (naps : list float) (last : list exposure.entry),
               the_log s' = (the_log s ++ naps_of naps ++ last)%list
               /\ Forall (nap period) naps
               /\ (last = []
                   \/ exists d : float,
                        last = [exposure.Raised (exposure.Sleep d)] /\ nap period d
                        /\ (r = Fail exposure.ValueError
                            \/ r = Fail exposure.OverflowError))
               /\ (r = Done tt -> last = [])
               /\ (r = Spent -> last = [] /\ List.length naps = turns)).
  { intros e Hr ->. exists [], []. cbn [naps_of map app]. rewrite app_nil_r.
    split; [reflexivity|]. split; [constructor|]. split; [auto|].
    split; [auto|]. intros ->. destruct Hr; discriminate. }
  destruct (seconds <=? 0)%float eqn:Hleb.
  - inversion Hrun; subst.
    split; [auto|]. split; [apply (Hnone exposure.TypeError); auto|].
    split; [discriminate|]. split; [intros _ ->; discriminate Hleb|].
    intros _. destruct (is_nan seconds) eqn:Hnan; [|reflexivity].
    rewrite (is_nan_true _ Hnan) in Hleb. discriminate Hleb.
  - split; [discriminate|].
    unfold io_bind at 1, display_control.get_display in Hrun. cbn [fst snd] in Hrun.
    unfold io_bind at 1, display_control.pump_period in Hrun.
    destruct (Q_of_double _) as [q|].
    + destruct (display_control.event_pump_hz (fst s) =? 0)%Z.
      * inversion Hrun; subst.
        split; [apply (Hnone exposure.ZeroDivisionError); auto|].
        split; [discriminate|]. split; discriminate.
      * unfold io_ret, io_bind at 1, display_control.time_time in Hrun.
        cbn [fst snd] in Hrun. fold (the_time s) in Hrun. fold period t_end in Hrun.
        apply pump_loop_spec in Hrun
          as (_ & _ & naps & last & Hlog & Hnaps & Hdone & Hspent & Hfail).
        split; [|split; [|split]].
        -- exists naps, last. split; [exact Hlog|]. split; [exact Hnaps|].
           split; [|split; [intros Hr; apply Hdone, Hr|exact Hspent]].
           destruct r as [[]|e|].
           ++ left. apply Hdone. reflexivity.
           ++ right. destruct (Hfail e eq_refl) as [He (d & Hd & Hlast)].
              exists d. split; [exact Hlast|]. split; [exact Hd|].
              destruct He; subst e; auto.
           ++ left. apply Hspent. reflexivity.
        -- intros Hr _. apply Hdone, Hr.
        -- intros Hr Hinf. destruct (Hdone Hr) as [_ Hover].
           unfold t_end in Hover. rewrite Hinf in Hover.
           apply (end_without_end _ _ Hover).
        -- intros Hr. destruct (Hdone Hr) as [_ Hover].
           destruct (is_nan seconds) eqn:Hnan; [|reflexivity].
           unfold t_end in Hover. rewrite (is_nan_true _ Hnan) in Hover.
           rewrite end_not_a_number in Hover. discriminate Hover.
    + inversion Hrun; subst.
      split; [apply (Hnone exposure.OverflowError); auto|].
      split; [discriminate|]. split; discriminate.
Qed.

Lemma sleep_with_pump_waits_in_naps_witness :
  let s := (display_control.new_display 1 30,
            (exposure.fresh,
             exposure.mkOutside [] 0 (fun _ _ => false) (fun _ => (1920, 1080))
               (fun _ => []) (fun _ _ => exposure.LoadPygameError)
               (fun _ => (1 # 1000)%Q))) in
  let seconds := 0.125%float in
  let r := fst (display_control.sleep_with_pump 10 seconds s) in
  let s' := snd (display_control.sleep_with_pump 10 seconds s) in
  let period :=
    (1 / double_of_Q (inject_Z (display_control.event_pump_hz (fst s))))%float in
  let t_end := (double_of_Q (the_time s) + seconds)%float in
  fst s' = fst s
  /\ fst (snd s') = fst (snd s)
  /\ ((seconds <=? 0)%float = true -> r = Done tt /\ s' = s)
  /\ (exists (naps : list float) (last : list exposure.entry),
        the_log s' = (the_log s ++ naps_of naps ++ last)%list
        /\ Forall (nap period) naps
        /\ (last = []
            \/ exists d : float,
                 last = [exposure.Raised (exposure.Sleep d)] /\ nap period d
                 /\ (r = Fail exposure.ValueError \/ r = Fail exposure.OverflowError))
        /\ (r = Done tt -> last = [])
        /\ (r = Spent -> last = [] /\ List.length naps = 10%nat))
  /\ (r = Done tt -> (seconds <=? 0)%float = false ->
      (t_end <=? double_of_Q (the_time s'))%float = true)
  /\ (r = Done tt -> seconds = infinity -> double_of_Q (the_time s') = infinity)
  /\ (r = Done tt -> is_nan seconds = false).
Proof.
  apply (sleep_with_pump_waits_in_naps 10 0.125%float
           (display_control.new_display 1 30,
            (exposure.fresh,
             exposure.mkOutside [] 0 (fun _ _ => false) (fun _ => (1920, 1080))
               (fun _ => []) (fun _ _ => exposure.LoadPygameError)
               (fun _ => (1 # 1000)%Q)))).
  vm_compute. reflexivity.
Defined.

(** A quarter of a second at 30 turns a second, on a clock that starts
    at 0 and on which no nap lasts longer than asked: the wait is over
    after 8 naps; an endless wait is not over after any number of turns
    that one follows. *)
Example quarter_second_at_30_hz :
  let o := exposure.mkOutside [] 0 (fun _ _ => false) (fun _ => (1920, 1080))
             (fun _ => []) (fun _ _ => exposure.LoadPygameError) (fun _ => 0%Q) in
  let s := (display_control.new_display 1 30, (exposure.fresh, o)) in
  fst (display_control.sleep_with_pump 20 0.25%float s) = Done tt
  /\ List.length (the_log (snd (display_control.sleep_with_pump 20 0.25%float s))) = 8%nat
  /\ fst (display_control.sleep_with_pump 7 0.25%float s) = Spent
  /\ fst (display_control.sleep_with_pump 20 infinity s) = Spent
  /\ fst (display_control.sleep_with_pump 20 nan s) = Spent.
Proof. vm_compute. repeat split; reflexivity. Qed.

End Waiting.

(* ================================================================== *)
(** * The two drivers encode a current alike *)
(* ================================================================== *)

(** X29. The stand-alone driver packs a 10-bit code with a mask of two
    bits on the high byte, the driver of the print run splits a 16-bit
    value with a mask of eight bits after clamping.  For every integer the
    two give the same two bytes, those of the code clamped into 0..1023:
    the low byte plus 256 times the high byte is the clamped code, and a
    code within range comes back whole. *)
Theorem pack_10bit_le_agrees_with_byte_split (code : Z) :
  I2C_DLP.pack_10bit_le code
  = (I2C_DLP_HDMI.low_byte (Z.max 0 (Z.min code 1023)),
     I2C_DLP_HDMI.high_byte (Z.max 0 (Z.min code 1023)))
  /\ fst (I2C_DLP.pack_10bit_le code) + 256 * snd (I2C_DLP.pack_10bit_le code)
     = Z.max 0 (Z.min code 1023)
  /\ 0 <= snd (I2C_DLP.pack_10bit_le code) <= 3
  /\ (0 <= code <= 1023 ->
      fst (I2C_DLP.pack_10bit_le code) + 256 * snd (I2C_DLP.pack_10bit_le code) = code).
Proof.
  unfold I2C_DLP.pack_10bit_le.
  pose proof (blue_current_clamp code) as Hclamp. cbv zeta in Hclamp |- *.
  rewrite Hclamp. set (v := Z.max 0 (Z.min code 1023)).
  assert (Hv : 0 <= v <= 1023) by (unfold v; lia).
  unfold I2C_DLP_HDMI.low_byte, I2C_DLP_HDMI.high_byte. cbn [fst snd].
  rewrite !land_255, Z.shiftr_div_pow2 by lia. change (2 ^ 8) with 256.
  assert (Hhi : 0 <= v / 256 < 4).
  { split; [apply Z.div_pos; lia|apply Z.div_lt_upper_bound; lia]. }
  assert (Hmask : Z.land (v / 256) 3 = v / 256).
  { change 3 with (Z.ones 2). rewrite Z.land_ones by lia.
    apply Z.mod_small. change (2 ^ 2) with 4. lia. }
  rewrite Hmask, (Z.mod_small (v / 256) 256) by lia.
  pose proof (Z.div_mod v 256 ltac:(lia)) as Hdm.
  split; [reflexivity|]. split; [lia|]. split; [lia|].
  intros Hcode. unfold v in *. lia.
Qed.
